(** * ngx-locatorjs: resolution pipeline

    A shallow embedding of the resolver ([src/browser/index.ts]), the
    component scanner ([src/node/cmp-scan.ts]) and the file opener
    ([src/node/file-opener.ts]), with the properties of the specification
    stated and settled against these definitions.

    Conventions of the embedding.
    - A JavaScript string is a [string]: a sequence of UTF-16 code units,
      restricted here to the code units below 256 (one [ascii] each).
    - A JavaScript object used as a dictionary is a [gmap string _] of its
      own properties. A read [obj[key]] whose key the program does not
      control goes through [Js.getProperty], which also finds what a
      plain object inherits from [Object.prototype].
    - [undefined]/[null] results are [None]; a thrown exception inside a
      [try] block is [None] of the block's result. *)

From Stdlib Require Import ZArith QArith Lqa Lia List Ascii String Bool DecimalString.
From stdpp Require Import gmap strings list fin_maps.

Local Open Scope string_scope.
Local Open Scope list_scope.
Local Open Scope stdpp_scope.

(** ** JavaScript string primitives used by the sources *)

Module Js.

(** [c] as a code unit number. *)
Definition code (c : ascii) : N := N_of_ascii c.

Definition between (lo hi : N) (c : ascii) : bool :=
  (lo <=? code c)%N && (code c <=? hi)%N.

(** [String.prototype.toLowerCase] on one code unit below 256:
    A-Z, and the Latin-1 capitals U+00C0..U+00DE except U+00D7. *)
Definition lowerUnit (c : ascii) : ascii :=
  if between 65 90 c then ascii_of_N (code c + 32)
  else if between 192 222 c && negb (code c =? 215)%N
       then ascii_of_N (code c + 32)
       else c.

Fixpoint toLowerCase (s : string) : string :=
  match s with
  | EmptyString => EmptyString
  | String c s' => String (lowerUnit c) (toLowerCase s')
  end.

(** [s.startsWith(p)]. *)
Fixpoint startsWith (s p : string) : bool :=
  match p, s with
  | EmptyString, _ => true
  | String a p', String b s' => Ascii.eqb a b && startsWith s' p'
  | String _ _, EmptyString => false
  end.

(** [s.includes(p)]: [p] occurs in [s] at some position. *)
Fixpoint includes (s p : string) : bool :=
  startsWith s p ||
  match s with
  | EmptyString => false
  | String _ s' => includes s' p
  end.

(** [s.split(sep)] for a one-unit separator: never the empty list. *)
Fixpoint split (sep : ascii) (s : string) : list string :=
  match s with
  | EmptyString => [EmptyString]
  | String c s' =>
      if Ascii.eqb c sep then EmptyString :: split sep s'
      else match split sep s' with
           | [] => [String c EmptyString]
           | w :: ws => String c w :: ws
           end
  end.

(** WhiteSpace and LineTerminator code units below 256, as [trim] strips
    them: TAB, LF, VT, FF, CR, SP and NBSP. *)
Definition isSpace (c : ascii) : bool :=
  between 9 13 c || (code c =? 32)%N || (code c =? 160)%N.

Fixpoint trimStart (s : string) : string :=
  match s with
  | EmptyString => EmptyString
  | String c s' => if isSpace c then trimStart s' else s
  end.

(** Drops the trailing white space: a unit is kept when it is not white
    space or when something is kept after it. *)
Fixpoint trimEnd (s : string) : string :=
  match s with
  | EmptyString => EmptyString
  | String c s' =>
      match trimEnd s' with
      | EmptyString => if isSpace c then EmptyString else String c EmptyString
      | t => String c t
      end
  end.

Definition trim (s : string) : string := trimEnd (trimStart s).

(** Truthiness of a string: the empty string is falsy. *)
Definition truthy (s : string) : bool := negb (String.eqb s "").

(** [l.filter(Boolean)] on an array of strings. *)
Definition filterBoolean (l : list string) : list string :=
  List.filter truthy l.

(** [l.includes(x)] on an array of strings. *)
Definition arrayIncludes (l : list string) (x : string) : bool :=
  existsb (String.eqb x) l.

(** [l[l.length - 1]]: [None] is [undefined]. *)
Definition lastElement (l : list string) : option string := List.last (List.map Some l) None.

(** *** Plain objects

    An object literal and an object parsed from JSON inherit the
    members of [Object.prototype]; a read [obj[key]] finds them when
    [obj] has no own property [key]. *)
Definition objectPrototypeMembers : list string :=
  [ "constructor"; "__defineGetter__"; "__defineSetter__"; "hasOwnProperty";
    "__lookupGetter__"; "__lookupSetter__"; "isPrototypeOf"; "propertyIsEnumerable";
    "toString"; "valueOf"; "__proto__"; "toLocaleString" ].

Definition inherited (key : string) : bool := arrayIncludes objectPrototypeMembers key.

(** What [obj[key]] gives: the value of an own property, a member of
    [Object.prototype] (a function; for [__proto__] the prototype object
    itself), or [undefined]. *)
Inductive Property (A : Type) : Type :=
| Own (value : A)
| Inherited (member : string)
| Undefined.

Arguments Own {A} value.
Arguments Inherited {A} member.
Arguments Undefined {A}.

Definition getProperty {A} (own : gmap string A) (key : string) : Property A :=
  match own !! key with
  | Some value => Own value
  | None => if inherited key then Inherited key else Undefined
  end.

(** [member.length] of a member of [Object.prototype]: the number of
    parameters of the function, [None] ([undefined]) for the object that
    [__proto__] gives. *)
Definition memberLength (member : string) : option nat :=
  if String.eqb member "__proto__" then None
  else if String.eqb member "__defineGetter__" || String.eqb member "__defineSetter__"
       then Some 2
       else if String.eqb member "toString" || String.eqb member "valueOf"
               || String.eqb member "toLocaleString"
            then Some 0
            else Some 1.

(** A loop over [l] whose body may throw: [None] once it has. *)
Fixpoint forEachOrThrow {S A} (body : S -> A -> option S) (l : list A) (state : S)
  : option S :=
  match l with
  | [] => Some state
  | x :: rest =>
      match body state x with
      | Some state' => forEachOrThrow body rest state'
      | None => None
      end
  end.

End Js.

(** ** The resolver of [src/browser/index.ts] *)

Module Browser.

Record CmpInfo := {
  className : string;
  filePath : string;
  templateUrl : option string
}.

Record CmpMap := {
  detailByFilePath : gmap string CmpInfo;
  filePathsByClassName : gmap string (list string)
}.

(** The second loop of [calculatePathRelevance]: [i] runs over the
    adjacent pairs of [urlSegments]. *)
Fixpoint adjacentPairs (filePath : string) (urlSegments : list string) (score : Z) : Z :=
  match urlSegments with
  | a :: ((b :: _) as rest) =>
      let pattern := a +:+ "/" +:+ b in
      adjacentPairs filePath rest
        (if Js.includes filePath pattern then score + 20 else score)%Z
  | _ => score
  end.

Definition calculatePathRelevance (filePath currentUrl : string) : Z :=
  let urlSegments := Js.filterBoolean (Js.split "/" currentUrl) in
  let fileSegments := Js.filterBoolean (Js.split "/" filePath) in
  let score := 0%Z in
  let score :=
    fold_left (fun score urlSeg =>
                 if Js.arrayIncludes fileSegments urlSeg then score + 10 else score)%Z
              urlSegments score in
  let score := adjacentPairs filePath urlSegments score in
  let score :=
    match Js.lastElement urlSegments with
    | Some lastUrlSeg =>
        if Js.truthy lastUrlSeg
           && Js.includes (Js.toLowerCase filePath) (Js.toLowerCase lastUrlSeg)
        then (score + 30)%Z else score
    | None => score
    end in
  score.

(** One turn of the loop of [selectBestMatchingFile]. *)
Definition selectStep (currentUrl : string) (best : string * Z) (filePath : string)
  : string * Z :=
  let '(bestMatch, bestScore) := best in
  let score := calculatePathRelevance filePath currentUrl in
  if (bestScore <? score)%Z then (filePath, score) else (bestMatch, bestScore).

(** [currentUrl] is [window.location.pathname]; [None] is the
    [undefined] that [candidates[0]] gives on an empty array. *)
Definition selectBestMatchingFile (currentUrl : string) (candidates : list string)
  : option string :=
  match candidates with
  | [] => None
  | [only] => Some only
  | first :: _ => Some (fst (fold_left (selectStep currentUrl) candidates (first, (-1)%Z)))
  end.

(** [className.replace(/^_+/, '')]: the leading run of underscores goes. *)
Fixpoint stripLeadingUnderscores (s : string) : string :=
  match s with
  | String c s' => if Ascii.eqb c "_" then stripLeadingUnderscores s' else s
  | EmptyString => EmptyString
  end.

(** The local [push] of [getClassNameCandidates]. *)
Definition push (candidates : list string) (value : string) : list string :=
  if negb (Js.truthy value) then candidates
  else if Js.arrayIncludes candidates value then candidates
       else candidates ++ [value].

Definition getClassNameCandidates (className : string) : list string :=
  let candidates := [] in
  let candidates := push candidates className in
  let trimmed := stripLeadingUnderscores className in
  let candidates := push candidates trimmed in
  candidates.

(** What [getComponentInfoByClassName] gives back: a record; a member
    of [Object.prototype] that the read of [detailByFilePath] found and
    that is returned in place of a record; [null]; or a [TypeError] that
    leaves the function. *)
Inductive Resolution : Type :=
| Found (info : CmpInfo)
| Ghost (member : string)
| NotFound
| Throws.

(** [CMP_MAP.detailByFilePath[filePath] ?? null], then [if (info) return
    info]: [None] when the loop goes on. *)
Definition recordAt (map : CmpMap) (filePath : string) : option Resolution :=
  match Js.getProperty (detailByFilePath map) filePath with
  | Js.Own info => Some (Found info)
  | Js.Inherited member => Some (Ghost member)
  | Js.Undefined => None
  end.

(** The loop of [getComponentInfoByClassName] over the identifier
    candidates; [continue] is the recursive call on the rest. When
    [filePathsByClassName[candidate]] is a member of [Object.prototype],
    [candidates.length] is the member's length: with length 1,
    [selectBestMatchingFile] returns [candidates[0]], which is
    [undefined], and the record is read under the key [undefined]; with
    a greater length its [for ... of] throws, a function not being
    iterable. *)
Fixpoint lookupLoop (map : CmpMap) (currentUrl : string) (classNameCandidates : list string)
  : Resolution :=
  match classNameCandidates with
  | [] => NotFound
  | candidate :: rest =>
      match Js.getProperty (filePathsByClassName map) candidate with
      | Js.Own ((_ :: _) as candidates) =>
          match selectBestMatchingFile currentUrl candidates with
          | Some filePath =>
              match recordAt map filePath with
              | Some result => result
              | None => lookupLoop map currentUrl rest
              end
          | None => lookupLoop map currentUrl rest
          end
      | Js.Own [] => lookupLoop map currentUrl rest
      | Js.Inherited member =>
          match Js.memberLength member with
          | None | Some 0 => lookupLoop map currentUrl rest
          | Some 1 =>
              match recordAt map "undefined" with
              | Some result => result
              | None => lookupLoop map currentUrl rest
              end
          | Some _ => Throws
          end
      | Js.Undefined => lookupLoop map currentUrl rest
      end
  end.

(** [CMP_MAP] is the module's loaded index, [None] while it is [null]. *)
Definition getComponentInfoByClassName
    (CMP_MAP : option CmpMap) (currentUrl className : string) : Resolution :=
  match CMP_MAP with
  | None => NotFound
  | Some map => lookupLoop map currentUrl (getClassNameCandidates className)
  end.


(** *** The relevance score in the words of the specification *)

(** Segments of a path: the path split on [/], empty segments discarded. *)
Definition segments (path : string) : list string :=
  List.filter (fun s => negb (String.eqb s "")) (Js.split "/" path).

(** The adjacent pairs [(s[i], s[i+1])] of a list. *)
Fixpoint adjacent (l : list string) : list (string * string) :=
  match l with
  | a :: ((b :: _) as rest) => (a, b) :: adjacent rest
  | _ => []
  end.

Definition count {A} (p : A -> bool) (l : list A) : Z :=
  Z.of_nat (length (List.filter p l)).

Definition spec_relevance (filePath navigation : string) : Z :=
  let nav := segments navigation in
  let file := segments filePath in
  (10 * count (Js.arrayIncludes file) nav
   + 20 * count (fun p => Js.includes filePath (fst p +:+ "/" +:+ snd p)) (adjacent nav)
   + match Js.lastElement nav with
     | Some s =>
         if Js.includes (Js.toLowerCase filePath) (Js.toLowerCase s) then 30 else 0
     | None => 0
     end)%Z.

(** *** The resolver in the words of the specification *)

(** The candidate file paths an identifier yields, when it yields one or
    more. *)
Definition candidatesOf (map : CmpMap) (identifier : string) : option (list string) :=
  match filePathsByClassName map !! identifier with
  | Some (p :: ps) => Some (p :: ps)
  | _ => None
  end.






(** The invariants of the index (spec, data model): every file path listed
    under an identifier is a key of [detailByFilePath], and identifiers are
    non-empty. *)
Definition index_invariant (map : CmpMap) : Prop :=
  (forall identifier paths p,
      filePathsByClassName map !! identifier = Some paths ->
      In p paths -> is_Some (detailByFilePath map !! p))
  /\ candidatesOf map "" = None.

End Browser.

(** ** The host's regular expressions

    [new RegExp(pattern).test(subject)] is a service of the JavaScript
    host. The model parses and runs the patterns of a fragment of the
    ECMAScript grammar (no flags, Annex B): pattern characters, identity
    escapes of syntax characters, [.], [^], [$], [\b], [\B], capturing
    groups, alternation and the quantifiers [*], [+], [?] (greedy or
    lazy). On this fragment it answers as the host does, a [SyntaxError]
    included. Any other pattern is [Beyond] the fragment and is left to
    the host. *)

Module RegExp.

Inductive regex : Type :=
| Empty
| Char (c : ascii)
| AnyChar
| WordBoundary
| NotWordBoundary
| LineStart
| LineEnd
| Seq (r1 r2 : regex)
| Alt (r1 r2 : regex)
| Star (r : regex)
| Plus (r : regex)
| Opt (r : regex)
| Group (r : regex).

Inductive compiled : Type :=
| Parsed (r : regex)
| SyntaxError
| Beyond.

(** *** Parsing *)

(** An open group: its finished alternatives and the terms of the
    alternative being read, both latest first. *)
Record frame := { alts : list regex; terms : list regex }.

Definition emptyFrame : frame := {| alts := []; terms := [] |}.

Definition addTerm (f : frame) (t : regex) : frame :=
  {| alts := alts f; terms := t :: terms f |}.

Definition alternative (ts : list regex) : regex :=
  fold_left (fun acc t => Seq t acc) ts Empty.

Definition nextAlternative (f : frame) : frame :=
  {| alts := alternative (terms f) :: alts f; terms := [] |}.

Definition disjunction (f : frame) : regex :=
  fold_left (fun acc a => Alt a acc) (alts f) (alternative (terms f)).

(** What stands before the next character: no atom (start of an
    alternative, or an assertion), an atom that may be quantified, or a
    quantifier that [?] may still make lazy. *)
Inductive qstate : Type := NoAtom | Atom | Quantified.

Definition quantify (c : ascii) (f : frame) : frame :=
  match terms f with
  | t :: ts =>
      let t' := if Ascii.eqb c "*" then Star t
                else if Ascii.eqb c "+" then Plus t else Opt t in
      {| alts := alts f; terms := t' :: ts |}
  | [] => f
  end.

Definition isOneOf (set : string) (c : ascii) : bool :=
  existsb (Ascii.eqb c) (list_ascii_of_string set).

(** SyntaxCharacter of the grammar. *)
Definition isSyntaxCharacter : ascii -> bool := isOneOf "^$\.*+?()[]{}|".

(** After [[]: is the class closed by an unescaped []]? *)
Fixpoint classTerminated (s : string) : bool :=
  match s with
  | EmptyString => false
  | String c rest =>
      if Ascii.eqb c "]" then true
      else if Ascii.eqb c "\" then
             match rest with
             | EmptyString => false
             | String _ rest' => classTerminated rest'
             end
           else classTerminated rest
  end.

(** [stack] holds the frames of the enclosing groups, innermost first. *)
Fixpoint parse (p : string) (stack : list frame) (cur : frame) (q : qstate) : compiled :=
  match p with
  | EmptyString =>
      match stack with
      | [] => Parsed (disjunction cur)
      | _ :: _ => SyntaxError
      end
  | String c rest =>
      if Ascii.eqb c "\" then
        match rest with
        | EmptyString => SyntaxError
        | String d rest' =>
            if Ascii.eqb d "b" then parse rest' stack (addTerm cur WordBoundary) NoAtom
            else if Ascii.eqb d "B" then parse rest' stack (addTerm cur NotWordBoundary) NoAtom
            else if isSyntaxCharacter d || Ascii.eqb d "/"
                 then parse rest' stack (addTerm cur (Char d)) Atom
                 else Beyond
        end
      else if Ascii.eqb c "(" then
        match rest with
        | String d _ =>
            if Ascii.eqb d "?" then Beyond else parse rest (cur :: stack) emptyFrame NoAtom
        | EmptyString => parse rest (cur :: stack) emptyFrame NoAtom
        end
      else if Ascii.eqb c ")" then
        match stack with
        | [] => SyntaxError
        | outer :: stack' => parse rest stack' (addTerm outer (Group (disjunction cur))) Atom
        end
      else if Ascii.eqb c "|" then parse rest stack (nextAlternative cur) NoAtom
      else if isOneOf "*+?" c then
        match q with
        | Atom => parse rest stack (quantify c cur) Quantified
        | Quantified => if Ascii.eqb c "?" then parse rest stack cur NoAtom else SyntaxError
        | NoAtom => SyntaxError
        end
      else if Ascii.eqb c "[" then
        if classTerminated rest then Beyond else SyntaxError
      else if Ascii.eqb c "{" then Beyond
      else if Ascii.eqb c "^" then parse rest stack (addTerm cur LineStart) NoAtom
      else if Ascii.eqb c "$" then parse rest stack (addTerm cur LineEnd) NoAtom
      else if Ascii.eqb c "." then parse rest stack (addTerm cur AnyChar) Atom
      else parse rest stack (addTerm cur (Char c)) Atom
  end.

Definition compile (pattern : string) : compiled := parse pattern [] emptyFrame NoAtom.

(** *** Matching *)

(** [\w]: A-Z, a-z, 0-9 and the underscore. *)
Definition isWordChar (c : ascii) : bool :=
  Js.between 97 122 c || Js.between 65 90 c || Js.between 48 57 c || Ascii.eqb c "_".

Definition wordAt (s : list ascii) (i : nat) : bool :=
  match s !! i with
  | Some c => isWordChar c
  | None => false
  end.

(** The assertion [\b] at position [i]. *)
Definition isBoundary (s : list ascii) (i : nat) : bool :=
  xorb (match i with 0 => false | S j => wordAt s j end) (wordAt s i).

Definition isLineTerminator (c : ascii) : bool :=
  (Js.code c =? 10)%N || (Js.code c =? 13)%N.

(** The matcher of [r] on [s] from position [i] with continuation [k], as
    the standard writes it; [test] asks whether some choice succeeds, so
    the order of the choices is immaterial. An iteration of [*] that
    consumes nothing is rejected. *)
Fixpoint matcher (r : regex) (s : list ascii) (i : nat) (k : nat -> bool) : bool :=
  let star (r' : nat -> (nat -> bool) -> bool) :=
    fix star (fuel : nat) (i : nat) : bool :=
      k i || match fuel with
             | 0 => false
             | S fuel' => r' i (fun j => Nat.ltb i j && star fuel' j)
             end in
  match r with
  | Empty => k i
  | Char c =>
      match s !! i with
      | Some d => Ascii.eqb c d && k (S i)
      | None => false
      end
  | AnyChar =>
      match s !! i with
      | Some d => negb (isLineTerminator d) && k (S i)
      | None => false
      end
  | WordBoundary => isBoundary s i && k i
  | NotWordBoundary => negb (isBoundary s i) && k i
  | LineStart => Nat.eqb i 0 && k i
  | LineEnd => Nat.eqb i (length s) && k i
  | Seq r1 r2 => matcher r1 s i (fun j => matcher r2 s j k)
  | Alt r1 r2 => matcher r1 s i k || matcher r2 s i k
  | Star r1 => star (matcher r1 s) (S (length s)) i
  | Plus r1 => matcher r1 s i (star (matcher r1 s) (S (length s)))
  | Opt r1 => matcher r1 s i k || k i
  | Group r1 => matcher r1 s i k
  end.

(** [regex.test(subject)]: a match from some start position. *)
Definition test (r : regex) (subject : string) : bool :=
  let s := list_ascii_of_string subject in
  existsb (fun i => matcher r s i (fun _ => true)) (seq 0 (S (length s))).

Section Host.

(** The host's answer on the patterns beyond the fragment: [None] when the
    constructor throws, else the result of [test]. *)
Variable host : string -> string -> option bool.

(** [new RegExp(pattern).test(subject)]; [None] is a thrown [SyntaxError]. *)
Definition RegExp_test (pattern subject : string) : option bool :=
  match compile pattern with
  | Parsed r => Some (test r subject)
  | SyntaxError => None
  | Beyond => host pattern subject
  end.

End Host.

End RegExp.

(** ** The content search ranker and the dispatcher of
    [src/node/file-opener.ts] *)

Module FileOpener.

(** Line feed, the separator of [content.split('\n')]. *)
Definition LF : ascii := "010"%char.

(** Scores are sums of multiples of one half, which the doubles of the
    source hold exactly; they are rationals here. [Qltb a b] is [a < b]. *)
Definition Qltb (a b : Q) : bool := (Qnum a * QDen b <? Qnum b * QDen a)%Z.

(** The class [[.*+?^${}()|[\\]] that opens the regular expression
    literal of the [replace] call. *)
Definition inEscapeClass : ascii -> bool := RegExp.isOneOf ".*+?^${}()|[\".

(** [lowerTerm.replace(/[.*+?^${}()|[\\]\\]/g, '\\$&')]. The literal
    reads: one unit of the class above, then a backslash, then []]. Each
    match, left to right, is replaced by a backslash and the match. *)
Fixpoint escapeReplace (s : string) : string :=
  match s with
  | EmptyString => EmptyString
  | String c tl =>
      match tl with
      | String c1 (String c2 rest) =>
          if inEscapeClass c && Ascii.eqb c1 "\" && Ascii.eqb c2 "]"
          then String "\" (String c (String c1 (String c2 (escapeReplace rest))))
          else String c (escapeReplace tl)
      | _ => String c (escapeReplace tl)
      end
  end.

(** [Math.max(1, searchTerms.length - termIndex)]. *)
Definition weightOf (termCount termIndex : nat) : Z :=
  Z.max 1 (Z.of_nat termCount - Z.of_nat termIndex).

(** [scores[lineIndex] += d]; the index is always within the array. *)
Definition bump (scores : list Q) (lineIndex : nat) (d : Q) : list Q :=
  match scores !! lineIndex with
  | Some x => <[lineIndex := (x + d)%Q]> scores
  | None => scores
  end.

(** One turn of the final [scores.forEach]. *)
Definition bestStep (best : nat * Q) (index : nat) (score : Q) : nat * Q :=
  let '(bestLine, bestScore) := best in
  if Qltb bestScore score then (index + 1, score) else (bestLine, bestScore).

Fixpoint bestLoop (scores : list Q) (index : nat) (best : nat * Q) : nat * Q :=
  match scores with
  | [] => best
  | score :: rest => bestLoop rest (S index) (bestStep best index score)
  end.

Section Ranker.

(** The host's regular expressions beyond the modelled fragment. *)
Variable host : string -> string -> option bool.

(** [fs.readFileSync(filePath, 'utf8')]: [None] when it throws. *)
Variable readFileSync : string -> option string.

(** The inner [lines.forEach]; [None] when the [RegExp] constructor
    throws, which leaves the whole [try] block. *)
Fixpoint forEachLine (weight : Z) (term : string) (lines : list string)
    (lineIndex : nat) (scores : list Q) : option (list Q) :=
  match lines with
  | [] => Some scores
  | line :: rest =>
      let lowerLine := Js.toLowerCase line in
      let lowerTerm := Js.toLowerCase term in
      if Js.includes lowerLine lowerTerm then
        let scores := bump scores lineIndex (inject_Z weight * 2) in
        match RegExp.RegExp_test host ("\b" +:+ escapeReplace lowerTerm +:+ "\b") lowerLine with
        | None => None
        | Some wholeWord =>
            let scores :=
              if wholeWord then bump scores lineIndex (inject_Z weight * 3) else scores in
            let scores :=
              if Js.startsWith (Js.trim lowerLine) lowerTerm
              then bump scores lineIndex (inject_Z weight * (3 # 2)) else scores in
            forEachLine weight term rest (S lineIndex) scores
        end
      else forEachLine weight term rest (S lineIndex) scores
  end.

(** The outer [searchTerms.forEach]. *)
Fixpoint forEachTerm (termCount : nat) (terms : list string) (termIndex : nat)
    (lines : list string) (scores : list Q) : option (list Q) :=
  match terms with
  | [] => Some scores
  | term :: rest =>
      let weight := weightOf termCount termIndex in
      match forEachLine weight term lines 0 scores with
      | None => None
      | Some scores => forEachTerm termCount rest (S termIndex) lines scores
      end
  end.

(** The body of the [try] block on the content read. *)
Definition rankLines (content : string) (searchTerms : list string) : option nat :=
  let lines := Js.split LF content in
  let scores := repeat 0%Q (length lines) in
  match forEachTerm (length searchTerms) searchTerms 0 lines scores with
  | None => None
  | Some scores =>
      let '(bestLine, bestScore) := bestLoop scores 0 (1, 0%Q) in
      Some (if Qltb 0 bestScore then bestLine else 1)
  end.

Definition findBestLineInFile (filePath : string) (searchTerms : list string) : nat :=
  match readFileSync filePath with
  | None => 1
  | Some content =>
      match rankLines content searchTerms with
      | Some line => line
      | None => 1
      end
  end.

End Ranker.

(** *** The ranker in the words of the specification *)

(** Clue at 0-based position [i] of [clueCount] clues. *)
Definition spec_weight (clueCount i : nat) : Z :=
  Z.max 1 (Z.of_nat clueCount - Z.of_nat i).

(** The pattern that matches the text of [clue], unit by unit. *)
Fixpoint literal (clue : string) (after : RegExp.regex) : RegExp.regex :=
  match clue with
  | EmptyString => after
  | String c rest => RegExp.Seq (RegExp.Char c) (literal rest after)
  end.

(** A whole-word boundary match of the clue's literal text in the line:
    the text occurs with a word boundary on both sides. *)
Definition wholeWordMatch (line clue : string) : bool :=
  RegExp.test
    (RegExp.Seq RegExp.WordBoundary (literal clue (RegExp.Seq RegExp.WordBoundary RegExp.Empty)))
    line.

(** What one clue of weight [w] adds to one line; the comparisons are
    case-insensitive (both sides lower-cased). *)
Definition spec_clueScore (w : Z) (clue line : string) : Q :=
  let l := Js.toLowerCase line in
  let c := Js.toLowerCase clue in
  if Js.includes l c then
    (inject_Z w * 2
     + (if wholeWordMatch l c then inject_Z w * 3 else 0)
     + (if Js.startsWith (Js.trim l) c then inject_Z w * (3 # 2) else 0))%Q
  else 0%Q.

Fixpoint spec_lineScoreFrom (clueCount i : nat) (clues : list string) (line : string) : Q :=
  match clues with
  | [] => 0%Q
  | clue :: rest =>
      (spec_clueScore (spec_weight clueCount i) clue line
       + spec_lineScoreFrom clueCount (S i) rest line)%Q
  end.

(** The accumulated score of a line. *)
Definition spec_lineScore (clues : list string) (line : string) : Q :=
  spec_lineScoreFrom (length clues) 0 clues line.

(** The 1-based number of the line of maximum score (the first such line),
    and line 1 if no line scores above zero. *)
Definition spec_bestLine (lines clues : list string) : nat :=
  let scores := List.map (spec_lineScore clues) lines in
  let '(bestLine, bestScore) := bestLoop scores 0 (1, 0%Q) in
  if Qltb 0 bestScore then bestLine else 1.

(** *** The dispatcher *)

Record SpawnCall := { cmd : string; args : list string }.

Section Dispatcher.

(** [process.env.EDITOR_CMD]. *)
Variable EDITOR_CMD : option string.

(** The module constant [FALLBACK_EDITOR]. *)
Variable FALLBACK_EDITOR : string.

(** [checkEditorCLI(editor)], as cached when the module loads. *)
Variable checkEditorCLI : string -> bool.

(** [childProcess.spawn(cmd, args, ...).unref()] after the calls of
    [log]: [true] when it returns, [false] when it throws. *)
Variable spawn : list SpawnCall -> SpawnCall -> bool.

Definition macOpen (appName file : string) : string * list string :=
  let filePath := hd "" (Js.split ":" file) in
  ("open", ["-a"; appName; filePath]).

(** The own properties of [COMMAND_TEMPLATES]: [None] for a name that
    is not one of them. *)
Definition COMMAND_TEMPLATES (editor : string) : option (string -> string * list string) :=
  if String.eqb editor "cursor" then
    Some (fun file =>
            if checkEditorCLI "cursor" then ("cursor", ["--goto"; file])
            else macOpen "Cursor" file)
  else if String.eqb editor "code" then
    Some (fun file =>
            if checkEditorCLI "code" then ("code", ["--goto"; file])
            else macOpen "Visual Studio Code" file)
  else if String.eqb editor "webstorm" then
    Some (fun file =>
            if checkEditorCLI "webstorm" then
              let parts := Js.split ":" file in
              let filePath := hd "" parts in
              let args := [filePath] in
              let args :=
                match parts !! 1 with
                | Some line => if Js.truthy line then args ++ ["--line"; line] else args
                | None => args
                end in
              let args :=
                match parts !! 2 with
                | Some col => if Js.truthy col then args ++ ["--column"; col] else args
                | None => args
                end in
              ("webstorm", args)
            else macOpen "WebStorm" file)
  else None.

(** A [spawn] inside [try]: its outcome and the log with the call added. *)
Definition trySpawn (log : list SpawnCall) (call : SpawnCall) : bool * list SpawnCall :=
  (spawn log call, log ++ [call]).

(** What [tryRun] and [launchInEditor] come to: the value returned, or
    a [TypeError] that leaves the function; in both cases after the
    [spawn] calls of [log]. *)
Inductive Launch : Type :=
| Returned (ok : bool) (log : list SpawnCall)
| Thrown (log : list SpawnCall).

(** [mk(fileWithPos)] where [mk] is a member of [Object.prototype] that
    [COMMAND_TEMPLATES[editor]] found, called without [this]: [toString]
    gives the string [[object Undefined]] and [constructor], the function
    [Object], gives a String object of [fileWithPos]. The other members
    give no iterable: [__proto__] is not a function, [isPrototypeOf] gives
    [false], and the rest throw on the missing [this]. [None] is the
    [TypeError] of the statement [const [cmd, args] = mk(fileWithPos)]. *)
Definition callMember (member fileWithPos : string) : option string :=
  if String.eqb member "toString" then Some "[object Undefined]"
  else if String.eqb member "constructor" then Some fileWithPos
  else None.

(** The [spawn] inside [try] when [[cmd, args]] were destructured from a
    string: they are its first two units. [spawn] throws on a [cmd] that
    is [undefined] and on an [args] that is a string, its arguments being
    checked before anything is spawned; with [args] [undefined] it is
    [spawn(cmd, [])]. A call refused for its arguments is not logged. *)
Definition spawnDestructured (log : list SpawnCall) (s : string) : bool * list SpawnCall :=
  match s with
  | String c EmptyString => trySpawn log {| cmd := String c EmptyString; args := [] |}
  | _ => (false, log)
  end.

Definition tryRun (fileWithPos : string) (log : list SpawnCall) (editor : string) : Launch :=
  match COMMAND_TEMPLATES editor with
  | Some mk =>
      let '(cmd, args) := mk fileWithPos in
      let '(ok, log) := trySpawn log {| cmd := cmd; args := args |} in
      Returned ok log
  | None =>
      if Js.inherited editor then
        match callMember editor fileWithPos with
        | Some s => let '(ok, log) := spawnDestructured log s in Returned ok log
        | None => Thrown log
        end
      else Returned false log
  end.

(** The call the override command leads to. *)
Definition overrideCall (editorCmd fileWithPos : string) : SpawnCall :=
  let parts := Js.split " " editorCmd in
  {| cmd := hd "" parts; args := tl parts ++ [fileWithPos] |}.

(** [launchInEditor(fileWithPos, preferred)]: the value returned and the
    [spawn] calls made, in order; an exception of [tryRun] leaves
    [launchInEditor] too. *)
Definition launchInEditor (fileWithPos preferred : string) : Launch :=
  let '(launched, log) :=
    match EDITOR_CMD with
    | Some editorCmd =>
        if Js.truthy editorCmd then trySpawn [] (overrideCall editorCmd fileWithPos)
        else (false, [])
    | None => (false, [])
    end in
  if launched then Returned true log
  else
    match tryRun fileWithPos log preferred with
    | Thrown log => Thrown log
    | Returned true log => Returned true log
    | Returned false log =>
        if Js.truthy FALLBACK_EDITOR then
          match tryRun fileWithPos log FALLBACK_EDITOR with
          | Thrown log => Thrown log
          | Returned true log => Returned true log
          | Returned false log => Returned false log
          end
        else Returned false log
    end.

(** The calls made before the preferred editor is tried. *)
Definition overrideLog (fileWithPos : string) : list SpawnCall :=
  match EDITOR_CMD with
  | Some editorCmd =>
      if Js.truthy editorCmd then [overrideCall editorCmd fileWithPos] else []
  | None => []
  end.

(** *** The dispatcher in the words of the specification *)

(** A launch strategy: the override command, or an editor by name. *)
Inductive Strategy : Type :=
| Override (editorCmd : string)
| Editor (name : string).

(** The call a strategy makes for a target, if it can make one. *)
Definition callOf (fileWithPos : string) (s : Strategy) : option SpawnCall :=
  match s with
  | Override editorCmd => Some (overrideCall editorCmd fileWithPos)
  | Editor name =>
      match COMMAND_TEMPLATES name with
      | Some mk => Some {| cmd := fst (mk fileWithPos); args := snd (mk fileWithPos) |}
      | None => None
      end
  end.

(** Strict priority order, first success wins; failure when the chain is
    exhausted. *)
Fixpoint spec_dispatch (fileWithPos : string) (log : list SpawnCall) (chain : list Strategy)
  : bool * list SpawnCall :=
  match chain with
  | [] => (false, log)
  | s :: rest =>
      match callOf fileWithPos s with
      | None => spec_dispatch fileWithPos log rest
      | Some call =>
          if spawn log call then (true, log ++ [call])
          else spec_dispatch fileWithPos (log ++ [call]) rest
      end
  end.

(** The chain of the specification: override (if configured), preferred
    editor, fallback editor. *)
Definition spec_chain (preferred : string) : list Strategy :=
  match EDITOR_CMD with
  | Some editorCmd => if Js.truthy editorCmd then [Override editorCmd] else []
  | None => []
  end
  ++ [Editor preferred]
  ++ (if Js.truthy FALLBACK_EDITOR then [Editor FALLBACK_EDITOR] else []).

End Dispatcher.

(** *** Clues without pattern syntax *)

(** The units that the pattern grammar does not read as themselves. *)
Definition patternSyntax : string := "\^$.*+?()[{|".

Definition plainUnit (c : ascii) : bool := negb (RegExp.isOneOf patternSyntax c).

(** A clue none of whose units is pattern syntax. *)
Definition plainClue (clue : string) : bool :=
  forallb plainUnit (list_ascii_of_string clue).

(** A file content from its lines. *)
Definition fileOf (lines : list string) : string :=
  match lines with
  | [] => ""
  | first :: rest => fold_left (fun content line => content +:+ String LF line) rest first
  end.

End FileOpener.

(** ** The scanner of [src/node/cmp-scan.ts] *)

Module CmpScan.
Import Browser.

(** [CmpInfo] is declared alike in the scanner and in the browser; the
    persisted [MapFile] adds the time of generation. *)
Record MapFile := {
  generatedAt : string;
  mapDetailByFilePath : gmap string CmpInfo;
  mapFilePathsByClassName : gmap string (list string)
}.

(** *** What the structural extractor (ts-morph) reports *)

(** The first argument of a decorator call: an object literal, with the
    text of the initializer of its [templateUrl] property assignment when
    there is one, or another expression. *)
Inductive Expression : Type :=
| ObjectLiteralExpression (templateUrlText : option string)
| OtherExpression.

(** [firstArgument] is [getCallExpression()?.getArguments()[0]]. *)
Record Decorator := {
  decoratorName : string;
  firstArgument : option Expression
}.

Record ClassDeclaration := {
  getName : option string;
  getDecorators : list Decorator
}.

Record SourceFile := {
  getFilePath : string;
  getClasses : list ClassDeclaration
}.

(** The part of [stripQuotes] past the first unit: every quote goes, and
    a back quote at the end. *)
Fixpoint stripQuotesFrom (s : string) : string :=
  match s with
  | EmptyString => EmptyString
  | String c rest =>
      if Ascii.eqb c "034" || Ascii.eqb c "'" then stripQuotesFrom rest
      else if Ascii.eqb c "`" && String.eqb rest "" then EmptyString
           else String c (stripQuotesFrom rest)
  end.

(** [text.replace(/^`|^'|^"|"|'|`$/g, '')]. *)
Definition stripQuotes (text : string) : string :=
  match text with
  | String c rest => if Ascii.eqb c "`" then stripQuotesFrom rest else stripQuotesFrom text
  | EmptyString => EmptyString
  end.

(** The two dictionaries under construction. *)
Record Index := {
  detail : gmap string CmpInfo;
  byClassName : gmap string (list string)
}.

Definition emptyIndex : Index := {| detail := ∅; byClassName := ∅ |}.

(** The two statements that register [absTs] under [className]:
    [if (!byClass[className]) byClass[className] = []] and
    [if (!byClass[className].includes(absTs)) byClass[className].push(absTs)],
    on a dictionary that is a plain object. When [className] names a
    member of [Object.prototype] that no own property shadows, the first
    read finds the member, which is truthy, and the second statement
    calls its [includes], which is [undefined]: a [TypeError], [None]. *)
Definition appendPath (byClass : gmap string (list string)) (className absTs : string)
  : option (gmap string (list string)) :=
  let byClass :=
    match Js.getProperty byClass className with
    | Js.Undefined => <[className := []]> byClass
    | _ => byClass
    end in
  match Js.getProperty byClass className with
  | Js.Own paths =>
      Some (if Js.arrayIncludes paths absTs then byClass
            else <[className := paths ++ [absTs]]> byClass)
  | _ => None
  end.

(** The statement [if (!l.includes(x)) l.push(x)]. *)
Definition dedupAppend (acc : list string) (x : string) : list string :=
  if Js.arrayIncludes acc x then acc else acc ++ [x].

(** What one component adds to the index; [None] when registering its
    file path throws. *)
Definition addComponent (idx : Index) (info : CmpInfo) : option Index :=
  let detail := <[filePath info := info]> (detail idx) in
  match appendPath (byClassName idx) (className info) (filePath info) with
  | Some byClass => Some {| detail := detail; byClassName := byClass |}
  | None => None
  end.

Section Paths.

(** [path.resolve(root, filePath)]. *)
Variable resolveFromRoot : string -> string.

(** [path.resolve(path.dirname(absTs), templateUrl)], of [absTs] and
    [templateUrl]. *)
Variable resolveTemplate : string -> string -> string.

(** What a class contributes, if it passes every [continue] of the loop
    body: a named class with a [Component] decorator whose first argument
    is an object literal. *)
Definition componentOf (filePath : string) (cls : ClassDeclaration) : option CmpInfo :=
  match List.find (fun d => String.eqb (decoratorName d) "Component") (getDecorators cls) with
  | None => None
  | Some comp =>
      match firstArgument comp with
      | Some (ObjectLiteralExpression templateUrlText) =>
          let templateUrl := option_map stripQuotes templateUrlText in
          match getName cls with
          | Some className =>
              if Js.truthy className then
                let absTs := resolveFromRoot filePath in
                let absTpl :=
                  match templateUrl with
                  | Some t => if Js.truthy t then Some (resolveTemplate absTs t) else None
                  | None => None
                  end in
                Some {| className := className; filePath := absTs; templateUrl := absTpl |}
              else None
          | None => None
          end
      | _ => None
      end
  end.

(** The body of the inner loop. *)
Definition scanClass (filePath : string) (idx : Index) (cls : ClassDeclaration)
  : option Index :=
  match componentOf filePath cls with
  | None => Some idx
  | Some info => addComponent idx info
  end.

Definition scanFile (idx : Index) (sf : SourceFile) : option Index :=
  Js.forEachOrThrow (scanClass (getFilePath sf)) (getClasses sf) idx.

(** The two nested loops of [main]: [None] when a [TypeError] leaves
    them. *)
Definition buildIndex (sourceFiles : list SourceFile) : option Index :=
  Js.forEachOrThrow scanFile sourceFiles emptyIndex.

(** The components found by the scan, in scan order. *)
Definition components (sourceFiles : list SourceFile) : list CmpInfo :=
  flat_map (fun sf => omap (componentOf (getFilePath sf)) (getClasses sf)) sourceFiles.

End Paths.

(** *** The built index in the words of the specification *)

(** The last record found for a file path. *)
Definition lastWithPath (p : string) (found : list CmpInfo) : option CmpInfo :=
  List.find (fun info => String.eqb (filePath info) p) (rev found).

(** The file paths found under an identifier, in scan order. *)
Definition pathsOf (identifier : string) (found : list CmpInfo) : list string :=
  List.map filePath (List.filter (fun info => String.eqb (className info) identifier) found).

(** De-duplication that preserves the first-seen order: an element is
    kept where it is seen first. *)
Fixpoint firstSeen (seen : list string) (l : list string) : list string :=
  match l with
  | [] => []
  | x :: rest =>
      if Js.arrayIncludes seen x then firstSeen seen rest
      else x :: firstSeen (x :: seen) rest
  end.

(** An identifier has an entry when it has a path. *)
Definition entryOf (paths : list string) : option (list string) :=
  match paths with
  | [] => None
  | _ :: _ => Some paths
  end.

(** A persisted index is the index of the components found: each file
    path has the last record found for it, and each identifier lists the
    file paths found under it, first seen first. *)
Definition spec_indexOf (found : list CmpInfo) (index : MapFile) : Prop :=
  (forall p, mapDetailByFilePath index !! p = lastWithPath p found)
  /\ (forall c, mapFilePathsByClassName index !! c = entryOf (firstSeen [] (pathsOf c found))).

(** *** Change detection and persistence *)

(** The cache file's content, [Record<string, number>]: [mtimeMs] per
    path. The numbers are only compared with each other and tested for
    truthiness, so an integer stands for each; 0 is the falsy one. *)
Abbreviation ScanCache := (gmap string Z).

(** Truthiness of [cache[p]]: absent and the number 0 are falsy. The
    paths asked for are the absolute paths of the source files, or keys
    of a cache written from them: none is the name of a member of
    [Object.prototype], and the read is one of own properties. *)
Definition truthyAt (cache : ScanCache) (p : string) : bool :=
  match cache !! p with
  | Some t => negb (t =? 0)%Z
  | None => false
  end.

(** [a[p] !== b[p]]. *)
Definition differAt (a b : ScanCache) (p : string) : bool :=
  match a !! p, b !! p with
  | Some x, Some y => negb (x =? y)%Z
  | None, None => false
  | _, _ => true
  end.

(** [getFileStats(filePaths)] over [fs.statSync]: a path whose [statSync]
    throws is left out. *)
Definition getFileStats (statSync : string -> option Z) (filePaths : list string) : ScanCache :=
  fold_left (fun stats filePath =>
               match statSync filePath with
               | Some mtimeMs => <[filePath := mtimeMs]> stats
               | None => stats
               end) filePaths ∅.

Definition hasChanges (filePaths : list string) (currentStats previousCache : ScanCache) : bool :=
  existsb (fun filePath =>
             negb (truthyAt previousCache filePath)
             || differAt previousCache currentStats filePath) filePaths.

Definition hasNewOrDeletedFiles
    (filePaths : list string) (currentStats previousCache : ScanCache) : bool :=
  let cachedPaths := (map_to_list previousCache).*1 in
  negb (Nat.eqb (length filePaths) (length cachedPaths))
  || existsb (fun p => negb (truthyAt previousCache p)) filePaths
  || existsb (fun p => negb (truthyAt currentStats p)) cachedPaths.

(** The persisted state and the environment of one run. [indexFile] and
    [cacheFile] are the contents of the two files, [None] when absent;
    [cacheFile] holds what [loadCache] would parse. *)
Record Disk := {
  indexFile : option MapFile;
  cacheFile : option ScanCache
}.

Record Environment := {
  statSync : string -> option Z;
  now : string;
  (** does [fs.writeFileSync(outFile, ...)] return? *)
  indexWriteOk : bool;
  (** what the index file holds after a write that threw *)
  indexAfterFailure : option MapFile;
  (** does [fs.writeFileSync(cacheFile, ...)] return? *)
  cacheWriteOk : bool;
  (** what the cache file holds after a write that threw *)
  cacheAfterFailure : option ScanCache
}.

Inductive Outcome : Type :=
| Skipped      (** [process.exit(0)] before the rebuild *)
| Saved        (** index and cache written *)
| Failed.      (** an exception left [main] *)

(** [loadCache()]: the empty object when the file cannot be read. *)
Definition loadCache (disk : Disk) : ScanCache :=
  match cacheFile disk with
  | Some cache => cache
  | None => ∅
  end.

(** The test that guards [process.exit(0)]. *)
Definition upToDate (disk : Disk) (filePaths : list string) (currentStats : ScanCache) : bool :=
  let previousCache := loadCache disk in
  negb (hasChanges filePaths currentStats previousCache)
  && negb (hasNewOrDeletedFiles filePaths currentStats previousCache)
  && bool_decide (is_Some (indexFile disk)).

(** The clean state in the words of the specification: the candidate
    set is identical in membership to the cached set, every candidate
    file's timestamp equals its cached timestamp, and a persisted index
    exists. *)
Definition spec_clean (disk : Disk) (filePaths : list string) (currentStats : ScanCache) : Prop :=
  (forall p, In p filePaths <-> is_Some (loadCache disk !! p))
  /\ (forall p, In p filePaths ->
                exists t, currentStats !! p = Some t /\ loadCache disk !! p = Some t)
  /\ is_Some (indexFile disk).

Section Main.

Variable resolveFromRoot : string -> string.
Variable resolveTemplate : string -> string -> string.
Variable env : Environment.

(** The index file a rebuild writes; [None] when the loops throw. *)
Definition builtIndex (sourceFiles : list SourceFile) : option MapFile :=
  match buildIndex resolveFromRoot resolveTemplate sourceFiles with
  | Some idx =>
      Some {| generatedAt := now env;
              mapDetailByFilePath := detail idx;
              mapFilePathsByClassName := byClassName idx |}
  | None => None
  end.

(** [main], from the source files left by the exclusion filter on. An
    exception of the loops leaves [main] before anything is written. *)
Definition main (sourceFiles : list SourceFile) (disk : Disk) : Outcome * Disk :=
  let filePaths := List.map getFilePath sourceFiles in
  let currentStats := getFileStats (statSync env) filePaths in
  if upToDate disk filePaths currentStats then (Skipped, disk)
  else
    match builtIndex sourceFiles with
    | None => (Failed, disk)
    | Some out =>
        if indexWriteOk env then
          let disk := {| indexFile := Some out; cacheFile := cacheFile disk |} in
          if cacheWriteOk env then
            (Saved, {| indexFile := indexFile disk; cacheFile := Some currentStats |})
          else
            (Failed, {| indexFile := indexFile disk; cacheFile := cacheAfterFailure env |})
        else
          (Failed, {| indexFile := indexAfterFailure env; cacheFile := cacheFile disk |})
    end.

End Main.

End CmpScan.

(** ** Sample data *)

Module Examples.
Import Browser FileOpener CmpScan.

(** The index of the witness: [Foo] in one file. *)
Definition fooRecord : CmpInfo :=
  {| className := "Foo"; filePath := "/app/foo.ts"; templateUrl := None |}.

Definition fooIndex : CmpMap :=
  {| detailByFilePath := {[ "/app/foo.ts" := fooRecord ]};
     filePathsByClassName := {[ "Foo" := ["/app/foo.ts"] ]} |}.

(** The double quote, as a string. *)
Definition dquote : string := String "034" "".

(** The clue [id="save-btn"]. *)
Definition saveButtonId : string := "id=" +:+ dquote +:+ "save-btn" +:+ dquote.

Definition saveTemplate : list string :=
  [ "<form>";
    "  <span>save</span>";
    "  <button " +:+ saveButtonId +:+ ">Save</button>";
    "  <a>cancel</a>";
    "</form>" ].

(** A file that declares two components. *)
Definition componentDecorator : Decorator :=
  {| decoratorName := "Component";
     firstArgument := Some (ObjectLiteralExpression None) |}.

Definition pairFile : SourceFile :=
  {| getFilePath := "/app/pair.ts";
     getClasses := [ {| getName := Some "First"; getDecorators := [componentDecorator] |};
                     {| getName := Some "Second"; getDecorators := [componentDecorator] |} ] |}.

Definition firstRecord : CmpInfo :=
  {| className := "First"; filePath := "/app/pair.ts"; templateUrl := None |}.

Definition secondRecord : CmpInfo :=
  {| className := "Second"; filePath := "/app/pair.ts"; templateUrl := None |}.

(** A clean state: one candidate, cached with its current timestamp, and
    a persisted index. *)
Definition cleanDisk : Disk :=
  {| indexFile := Some {| generatedAt := "2024-01-01T00:00:00.000Z";
                          mapDetailByFilePath := ∅; mapFilePathsByClassName := ∅ |};
     cacheFile := Some {[ "/app/a.ts" := 1700000000000%Z ]} |}.

Definition cleanStat (p : string) : option Z := Some 1700000000000%Z.

End Examples.

(** ** Path helpers of [src/node/cmp-scan.ts] *)

Module ScanPaths.

Definition DEFAULT_INCLUDE_GLOBS : list string :=
  [ "src/**/*.{ts,tsx}"; "projects/**/*.{ts,tsx}"; "apps/**/*.{ts,tsx}"; "libs/**/*.{ts,tsx}" ].

Definition DEFAULT_EXCLUDE_GLOBS : list string :=
  [ "**/node_modules/**"; "**/dist/**"; "**/.angular/**"; "**/coverage/**";
    "**/*.spec.ts"; "**/*.test.ts"; "**/*.e2e.ts" ].

(** [p.replace(/\\/g, '/')]. *)
Fixpoint toPosix (p : string) : string :=
  match p with
  | EmptyString => EmptyString
  | String c rest => String (if Ascii.eqb c "\" then "/"%char else c) (toPosix rest)
  end.

(** [s.replace(/\*\*/g, '')]: each pair of stars goes, left to right. *)
Fixpoint removeStarPairs (s : string) : string :=
  match s with
  | EmptyString => EmptyString
  | String c tl =>
      match tl with
      | String d rest =>
          if Ascii.eqb c "*" && Ascii.eqb d "*" then removeStarPairs rest
          else String c (removeStarPairs tl)
      | EmptyString => String c EmptyString
      end
  end.

(** [s.replace(/\*/g, '')]. *)
Fixpoint removeStars (s : string) : string :=
  match s with
  | EmptyString => EmptyString
  | String c rest => if Ascii.eqb c "*" then removeStars rest else String c (removeStars rest)
  end.

Definition globToNeedle (glob : string) : string :=
  removeStars (removeStarPairs (toPosix glob)).

Definition isExcluded (filePath : string) (excludeGlobs : list string) : bool :=
  let normalized := toPosix filePath in
  existsb (fun pattern =>
             let needle := globToNeedle pattern in
             if negb (Js.truthy needle) then false
             else Js.includes normalized needle) excludeGlobs.

(** [s.replace(/^\/+/, '')]. *)
Fixpoint stripLeadingSlashes (s : string) : string :=
  match s with
  | String c rest => if Ascii.eqb c "/" then stripLeadingSlashes rest else s
  | EmptyString => EmptyString
  end.

(** [s.replace(/\/+$/, '')]: a unit is kept when it is not a slash or
    when something is kept after it. *)
Fixpoint stripTrailingSlashes (s : string) : string :=
  match s with
  | EmptyString => EmptyString
  | String c rest =>
      match stripTrailingSlashes rest with
      | EmptyString => if Ascii.eqb c "/" then EmptyString else String c EmptyString
      | t => String c t
      end
  end.

Section Platform.

(** [path.isAbsolute] of the platform. *)
Variable isAbsolute : string -> bool.

Definition prefixWorkspaceRoot (glob workspaceRoot : string) : string :=
  if negb (Js.truthy workspaceRoot)
     || String.eqb workspaceRoot "." || String.eqb workspaceRoot "./"
  then glob
  else if isAbsolute glob then glob
  else
    let rootPosix := stripTrailingSlashes (toPosix workspaceRoot) in
    let globPosix := stripLeadingSlashes (toPosix glob) in
    if Js.startsWith globPosix (rootPosix +:+ "/") then globPosix
    else rootPosix +:+ "/" +:+ globPosix.

End Platform.

(** The source files [main] scans: those of the project that no exclude
    glob matches. *)
Definition scannedFiles (excludeGlobs : list string) (projectFiles : list CmpScan.SourceFile)
  : list CmpScan.SourceFile :=
  List.filter (fun sf => negb (isExcluded (CmpScan.getFilePath sf) excludeGlobs)) projectFiles.

End ScanPaths.

(** ** Editor detection in [src/node/file-opener.ts] *)

Module Editors.

(** [checkEditorCLI(editorName, cliCommand)] on the cache
    [editorCLICache]: [which] is the outcome of [which cliCommand] at the
    time of the call. The result and the cache after the call. The
    callers pass the names [cursor], [code] and [webstorm] only, so the
    read of the cache is one of own properties. *)
Definition checkEditorCLI (which : string -> bool) (editorCLICache : gmap string bool)
    (editorName cliCommand : string) : bool * gmap string bool :=
  match editorCLICache !! editorName with
  | Some known => (known, editorCLICache)
  | None =>
      let found := which cliCommand in
      (found, <[editorName := found]> editorCLICache)
  end.

(** One turn of the loop of [detectAvailableEditors]. *)
Definition detectStep (which : string -> bool) (acc : list string * gmap string bool)
    (editor : string) : list string * gmap string bool :=
  let '(available, cache) := acc in
  let '(found, cache) := checkEditorCLI which cache editor editor in
  (if found then available ++ [editor] else available, cache).

(** [detectAvailableEditors()]: the names of the editors whose CLI is
    found, and the cache it leaves. *)
Definition detectAvailableEditors (which : string -> bool) (editorCLICache : gmap string bool)
  : list string * gmap string bool :=
  fold_left (detectStep which) ["cursor"; "code"; "webstorm"] ([], editorCLICache).

(** [a || b] on strings, [a] possibly [undefined]. *)
Definition orElse (a : option string) (b : string) : string :=
  match a with
  | Some s => if Js.truthy s then s else b
  | None => b
  end.

(** [process.env.LAUNCH_EDITOR || cfg.editor || AVAILABLE_EDITORS[0]?.name || 'cursor']. *)
Definition DEFAULT_EDITOR (LAUNCH_EDITOR cfgEditor : option string) (AVAILABLE_EDITORS : list string)
  : string :=
  orElse LAUNCH_EDITOR (orElse cfgEditor (orElse (AVAILABLE_EDITORS !! 0) "cursor")).

(** [cfg.fallbackEditor || AVAILABLE_EDITORS[1]?.name || 'code']. *)
Definition FALLBACK_EDITOR (cfgFallbackEditor : option string) (AVAILABLE_EDITORS : list string)
  : string :=
  orElse cfgFallbackEditor (orElse (AVAILABLE_EDITORS !! 1) "code").

End Editors.

(** ** The scan watch of [src/node/file-opener.ts] *)

Module Watch.

(** The class [[*?[\]{]] of [globToBaseDir]. *)
Definition isWildcard : ascii -> bool := RegExp.isOneOf "*?[]{".

(** [glob.slice(0, glob.search(/[*?[\]{]/))]: what stands before the
    first wildcard; [None] when [search] gives -1. *)
Fixpoint beforeWildcard (glob : string) : option string :=
  match glob with
  | EmptyString => None
  | String c rest =>
      if isWildcard c then Some EmptyString
      else option_map (String c) (beforeWildcard rest)
  end.

(** [prefix.slice(0, -1)] when [prefix.endsWith('/')], else [None]. *)
Fixpoint withoutFinalSlash (prefix : string) : option string :=
  match prefix with
  | EmptyString => None
  | String c rest =>
      match rest with
      | EmptyString => if Ascii.eqb c "/" then Some EmptyString else None
      | String _ _ => option_map (String c) (withoutFinalSlash rest)
      end
  end.

Section Roots.

(** [path.dirname]. *)
Variable dirname : string -> string.

(** [path.resolve(root, workspaceRoot, base)], of [base]. *)
Variable resolve : string -> string.

(** [fs.existsSync(p) && fs.statSync(p).isDirectory()]. *)
Variable isDirectory : string -> bool.

Definition globToBaseDir (glob : string) : string :=
  match beforeWildcard glob with
  | None => glob
  | Some prefix =>
      match withoutFinalSlash prefix with
      | Some dir => dir
      | None => dirname prefix
      end
  end.

(** [getWatchRoots]: the set [roots], in insertion order. *)
Definition getWatchRoots (includeGlobs : list string) : list string :=
  fold_left (fun roots glob =>
               let base := globToBaseDir glob in
               let resolved := resolve base in
               if isDirectory resolved then CmpScan.dedupAppend roots resolved else roots)
            includeGlobs [].

End Roots.

(** *** The state of [startScanWatch]

    [timer] is the variable of that name, the id of the last timeout
    set; [pending] are the timeouts set and neither fired nor cleared,
    each with the reason it carries; [processes] counts the scan
    processes spawned and not yet closed; [started] lists the reasons of
    the scans spawned. *)
Record State := {
  scanRunning : bool;
  scanQueued : bool;
  timer : option nat;
  pending : list (nat * string);
  nextTimerId : nat;
  processes : nat;
  started : list string
}.

Definition runScan (reason : string) (st : State) : State :=
  if scanRunning st then
    {| scanRunning := scanRunning st; scanQueued := true; timer := timer st;
       pending := pending st; nextTimerId := nextTimerId st;
       processes := processes st; started := started st |}
  else
    {| scanRunning := true; scanQueued := scanQueued st; timer := timer st;
       pending := pending st; nextTimerId := nextTimerId st;
       processes := S (processes st); started := started st ++ [reason] |}.

(** [clearTimeout(id)]. *)
Definition clearTimeout (id : nat) (l : list (nat * string)) : list (nat * string) :=
  List.filter (fun t => negb (Nat.eqb (fst t) id)) l.

Definition scheduleScan (reason : string) (st : State) : State :=
  let pending :=
    match timer st with
    | Some id => clearTimeout id (pending st)
    | None => pending st
    end in
  {| scanRunning := scanRunning st; scanQueued := scanQueued st;
     timer := Some (nextTimerId st);
     pending := pending ++ [(nextTimerId st, reason)];
     nextTimerId := S (nextTimerId st);
     processes := processes st; started := started st |}.

(** The handler of [scanProcess.on('close', ...)]. *)
Definition onClose (st : State) : State :=
  let st' :=
    {| scanRunning := false; scanQueued := scanQueued st; timer := timer st;
       pending := pending st; nextTimerId := nextTimerId st;
       processes := pred (processes st); started := started st |} in
  if scanQueued st' then
    scheduleScan "queued"
      {| scanRunning := scanRunning st'; scanQueued := false; timer := timer st';
         pending := pending st'; nextTimerId := nextTimerId st';
         processes := processes st'; started := started st' |}
  else st'.

(** What the event loop delivers: a watcher callback with its detail, a
    timeout that fires, the close of a scan process, a tick of the polling
    interval. *)
Inductive Event : Type :=
| Changed (detail : string)
| TimerFired (id : nat)
| ScanClosed
| PollTick.

(** One event; [None] when the event cannot occur in the state (a timeout
    that is not pending, a close without a process). *)
Definition step (st : State) (ev : Event) : option State :=
  match ev with
  | Changed detail => Some (scheduleScan detail st)
  | TimerFired id =>
      match List.find (fun t => Nat.eqb (fst t) id) (pending st) with
      | Some (_, reason) =>
          Some (runScan reason
                  {| scanRunning := scanRunning st; scanQueued := scanQueued st;
                     timer := timer st; pending := clearTimeout id (pending st);
                     nextTimerId := nextTimerId st; processes := processes st;
                     started := started st |})
      | None => None
      end
  | ScanClosed =>
      match processes st with
      | 0 => None
      | S _ => Some (onClose st)
      end
  | PollTick => Some (runScan "poll" st)
  end.

Fixpoint run (st : State) (events : list Event) : option State :=
  match events with
  | [] => Some st
  | ev :: rest =>
      match step st ev with
      | Some st' => run st' rest
      | None => None
      end
  end.

(** The state when [startScanWatch] returns: [runScan('initial')] on the
    fresh variables. *)
Definition started_watch : State :=
  runScan "initial"
    {| scanRunning := false; scanQueued := false; timer := None; pending := [];
       nextTimerId := 0; processes := 0; started := [] |}.

(** The closes among the events. *)
Definition closes (events : list Event) : nat :=
  length (List.filter (fun ev => match ev with ScanClosed => true | _ => false end) events).

End Watch.

(** ** Map loading and clue extraction in [src/browser/index.ts] *)

Module Locator.
Import Browser.

(** The statements of [normalizeMap] that rebuild the derived map, over
    [Object.values(map.detailByFilePath)]; [None] when they throw. *)
Definition rebuild (values : list CmpInfo) : option (gmap string (list string)) :=
  Js.forEachOrThrow
    (fun rebuilt info => CmpScan.appendPath rebuilt (className info) (filePath info))
    values ∅.

(** [normalizeMap(map)], of the two fields of [map] as parsed
    ([filePathsByClassName] may be missing) and of [values], the
    enumeration [Object.values(map.detailByFilePath)]; [None] when the
    rebuild throws. *)
Definition normalizeMap (values : list CmpInfo) (detail : gmap string CmpInfo)
    (byClassName : option (gmap string (list string))) : option CmpMap :=
  let rebuilt :=
    match rebuild values with
    | Some rebuilt => Some {| detailByFilePath := detail; filePathsByClassName := rebuilt |}
    | None => None
    end in
  match byClassName with
  | Some given =>
      if Nat.eqb (size given) 0 then rebuilt
      else Some {| detailByFilePath := detail; filePathsByClassName := given |}
  | None => rebuilt
  end.

(** The double quote of the template literals. *)
Definition quote : string := String "034" "".

Record Attr := { attrName : string; attrValue : string }.

(** The parent of the clicked element: its tag name, and whether it is
    the element passed as [componentElement]. *)
Record Parent := { parentTagName : string; isComponentElement : bool }.

(** What [findTemplatePosition] reads of the clicked element.
    [textContent] is [None] when [null]. *)
Record Element := {
  elementId : string;
  classList : list string;
  tagName : string;
  attributes : list Attr;
  textContent : option string;
  parentElement : option Parent
}.

(** The filter on [classList]. *)
Definition keptClass (cls : string) : bool :=
  negb (Js.startsWith cls "ng-") && negb (Js.startsWith cls "_ng")
  && Nat.ltb 2 (String.length cls).

(** The callback of [attributes.forEach]. *)
Definition attrStep (searchTerms : list string) (attr : Attr) : list string :=
  let name := attrName attr in
  let value := attrValue attr in
  let searchTerms :=
    if Js.startsWith name "(" || Js.startsWith name "[" || Js.startsWith name "*"
    then searchTerms ++ [name] else searchTerms in
  if Js.startsWith name "data-" || Js.includes name "ng-" then searchTerms
  else if Js.truthy value && Nat.ltb 0 (String.length value) && Nat.ltb (String.length value) 50
       then searchTerms ++ [name +:+ "=" +:+ quote +:+ value +:+ quote]
       else searchTerms.

(** [findTemplatePosition(clickedElement, componentElement).searchTerms]. *)
Definition findTemplatePosition (clickedElement : Element) : list string :=
  let searchTerms := [] in
  let id := elementId clickedElement in
  let searchTerms :=
    if Js.truthy id
    then searchTerms ++ ["id=" +:+ quote +:+ id +:+ quote; "#" +:+ id]
    else searchTerms in
  let classes := List.filter keptClass (classList clickedElement) in
  let searchTerms :=
    if Nat.ltb 0 (length classes)
    then (searchTerms ++ ["class=" +:+ quote +:+ String.concat " " classes +:+ quote]) ++ classes
    else searchTerms in
  let tagName := Js.toLowerCase (tagName clickedElement) in
  let searchTerms := searchTerms ++ ["<" +:+ tagName] in
  let searchTerms := fold_left attrStep (attributes clickedElement) searchTerms in
  let searchTerms :=
    match textContent clickedElement with
    | Some content =>
        let text := Js.trim content in
        if Js.truthy text && Nat.ltb 3 (String.length text) && Nat.ltb (String.length text) 100
           && negb (Js.includes text (String FileOpener.LF ""))
        then searchTerms ++ [text] else searchTerms
    | None => searchTerms
    end in
  let searchTerms :=
    match parentElement clickedElement with
    | Some parent =>
        if negb (isComponentElement parent) then
          let parentTag := Js.toLowerCase (parentTagName parent) in
          searchTerms ++ [parentTag +:+ " " +:+ tagName;
                          "<" +:+ parentTag +:+ ".*<" +:+ tagName]
        else searchTerms
    | None => searchTerms
    end in
  searchTerms.

End Locator.

(** ** Notions for the ranker on arbitrary clues *)

Module Ranking.
Import FileOpener.

(** The pattern the ranker builds from a clue. *)
Definition patternOf (term : string) : string :=
  "\b" +:+ escapeReplace (Js.toLowerCase term) +:+ "\b".

Section Host.

Variable host : string -> string -> option bool.

(** The line holds the term and the [RegExp] constructor throws on the
    term's pattern. *)
Definition aborts (term line : string) : bool :=
  Js.includes (Js.toLowerCase line) (Js.toLowerCase term)
  && match RegExp.RegExp_test host (patternOf term) (Js.toLowerCase line) with
     | None => true
     | Some _ => false
     end.

(** What a term of weight [w] adds to the score of a line, when the
    constructor does not throw. *)
Definition increment (w : Z) (term line : string) : Q :=
  let lowerLine := Js.toLowerCase line in
  let lowerTerm := Js.toLowerCase term in
  if Js.includes lowerLine lowerTerm then
    (inject_Z w * 2
     + (match RegExp.RegExp_test host (patternOf term) lowerLine with
        | Some true => inject_Z w * 3
        | _ => 0
        end)
     + (if Js.startsWith (Js.trim lowerLine) lowerTerm then inject_Z w * (3 # 2) else 0))%Q
  else 0%Q.

(** The sum of the increments of the terms from position [i] on. *)
Fixpoint incrementsFrom (termCount i : nat) (terms : list string) (line : string) : Q :=
  match terms with
  | [] => 0%Q
  | term :: rest =>
      (increment (weightOf termCount i) term line
       + incrementsFrom termCount (S i) rest line)%Q
  end.

End Host.

(** Some clue occurs in the line, case-insensitively. *)
Definition holdsClue (terms : list string) (line : string) : bool :=
  existsb (fun term => Js.includes (Js.toLowerCase line) (Js.toLowerCase term)) terms.

End Ranking.

(** ** The HTTP server of [src/node/file-opener.ts] *)

Module Server.
Import FileOpener.

(** What the handler reads of [new URL(req.url, ...)]: the path, and
    the query parameters in order. A [req.url] that [new URL] rejects is
    not a request of this model. *)
Record Url := {
  pathname : string;
  searchParams : list (string * string)
}.

(** [url] is [None] when [req.url] is missing or empty. *)
Record IncomingMessage := {
  url : option Url;
  method : string
}.

(** [searchParams.get(name)]: the first value of that name, [None] for
    [null]. *)
Fixpoint get (params : list (string * string)) (name : string) : option string :=
  match params with
  | [] => None
  | (k, v) :: rest => if String.eqb k name then Some v else get rest name
  end.

(** What [res.end] is given: a text, the map file piped, or
    ['Search failed: '] followed by the message of the exception caught. *)
Inductive Body : Type :=
| Text (text : string)
| MapFileStream
| SearchFailed.

Record ServerResponse := {
  statusCode : nat;
  body : Body
}.

(** The handler answers, or leaves by an exception that nothing
    catches; in both cases after the [spawn] calls listed. *)
Inductive Outcome : Type :=
| Responded (res : ServerResponse) (calls : list SpawnCall)
| Uncaught (calls : list SpawnCall).

(** A line number in a template literal. *)
Definition decimal (n : nat) : string := DecimalString.NilZero.string_of_uint (Nat.to_uint n).

Section Handler.

Variable EDITOR_CMD : option string.
Variable DEFAULT_EDITOR : string.
Variable FALLBACK_EDITOR : string.
Variable checkEditorCLI : string -> bool.
Variable spawn : list SpawnCall -> SpawnCall -> bool.
Variable host : string -> string -> option bool.
Variable readFileSync : string -> option string.

(** [fs.existsSync(MAP_PATH)]. *)
Variable mapExists : bool.

(** [decodeURIComponent]: [None] when it throws a [URIError]. *)
Variable decodeURIComponent : string -> option string.

(** [JSON.parse]: [None] when it throws; [Some None] for a value that is
    not an array of strings, [Some (Some terms)] for an array of strings.
    On a value that is not an array of strings [findBestLineInFile] meets
    a [TypeError] inside its [try] block ([forEach] or [toLowerCase] is
    not a function) and returns 1. *)
Variable JSON_parse : string -> option (option (list string)).

Definition launch (fileWithPos : string) : Launch :=
  launchInEditor EDITOR_CMD FALLBACK_EDITOR checkEditorCLI spawn fileWithPos DEFAULT_EDITOR.

(** The route [/__open-in-editor]. *)
Definition openInEditor (url : Url) : Outcome :=
  let file := get (searchParams url) "file" in
  let line := Editors.orElse (get (searchParams url) "line") "1" in
  let col := Editors.orElse (get (searchParams url) "col") "1" in
  match file with
  | Some file =>
      if Js.truthy file then
        match decodeURIComponent file with
        | None => Uncaught []
        | Some decoded =>
            let fileWithPos := decoded +:+ ":" +:+ line +:+ ":" +:+ col in
            match launch fileWithPos with
            | Thrown calls => Uncaught calls
            | Returned ok calls =>
                if negb ok then
                  Responded
                    {| statusCode := 500;
                       body := Text "Failed to launch editor. Check PATH or set EDITOR_CMD." |}
                    calls
                else Responded {| statusCode := 200; body := Text "ok" |} calls
            end
        end
      else Responded {| statusCode := 400; body := Text "file is required" |} []
  | None => Responded {| statusCode := 400; body := Text "file is required" |} []
  end.

(** The search terms of the [try] block of the search route: [None]
    when [decodeURIComponent] or [JSON.parse] throws. *)
Definition parsedTerms (searchParam : string) : option (option (list string)) :=
  match decodeURIComponent searchParam with
  | None => None
  | Some text => JSON_parse text
  end.

(** [findBestLineInFile(decoded, searchTerms)] on the value parsed. *)
Definition bestLineOf (decoded : string) (searchTerms : option (list string)) : nat :=
  match searchTerms with
  | Some terms => findBestLineInFile host readFileSync decoded terms
  | None => 1
  end.

(** The route [/__open-in-editor-search]. *)
Definition openInEditorSearch (url : Url) : Outcome :=
  let file := get (searchParams url) "file" in
  let searchParam := get (searchParams url) "search" in
  match file with
  | Some file =>
      if Js.truthy file then
        match searchParam with
        | Some searchParam =>
            if Js.truthy searchParam then
              match decodeURIComponent file with
              | None => Uncaught []
              | Some decoded =>
                  match parsedTerms searchParam with
                  | None => Responded {| statusCode := 500; body := SearchFailed |} []
                  | Some searchTerms =>
                      let bestLine := bestLineOf decoded searchTerms in
                      let fileWithPos := decoded +:+ ":" +:+ decimal bestLine +:+ ":1" in
                      match launch fileWithPos with
                      | Thrown calls =>
                          Responded {| statusCode := 500; body := SearchFailed |} calls
                      | Returned ok calls =>
                          if negb ok then
                            Responded {| statusCode := 500;
                                         body := Text "Failed to launch editor" |} calls
                          else
                            Responded {| statusCode := 200;
                                         body := Text ("Opened at line " +:+ decimal bestLine) |}
                                      calls
                      end
                  end
              end
            else Responded {| statusCode := 400; body := Text "search terms required" |} []
        | None => Responded {| statusCode := 400; body := Text "search terms required" |} []
        end
      else Responded {| statusCode := 400; body := Text "file is required" |} []
  | None => Responded {| statusCode := 400; body := Text "file is required" |} []
  end.

(** The request listener of [http.createServer]. *)
Definition handle (req : IncomingMessage) : Outcome :=
  match url req with
  | None => Responded {| statusCode := 400; body := Text "Bad request" |} []
  | Some url =>
      if negb (String.eqb (method req) "GET")
      then Responded {| statusCode := 405; body := Text "Method not allowed" |} []
      else if String.eqb (pathname url) "/__cmp-map" then
        if negb mapExists
        then Responded {| statusCode := 404; body := Text "component-map.json not found" |} []
        else Responded {| statusCode := 200; body := MapFileStream |} []
      else if String.eqb (pathname url) "/__open-in-editor" then openInEditor url
      else if String.eqb (pathname url) "/__open-in-editor-search" then openInEditorSearch url
      else Responded {| statusCode := 404; body := Text "Not found" |} []
  end.

End Handler.

End Server.

(** ** Sample data of the resolution pipeline *)

Module Samples.
Import Browser CmpScan Locator.

(** A file that declares the component [Foo]. *)
Definition fooFile : SourceFile :=
  {| getFilePath := "/app/foo.ts";
     getClasses := [ {| getName := Some "Foo";
                        getDecorators := [Examples.componentDecorator] |} ] |}.

(** A button rendered by Angular, with a structural directive. *)
Definition saveButton : Element :=
  {| elementId := "save-btn";
     classList := ["btn"; "ng-star-inserted"; "btn-primary"; "ab"];
     tagName := "BUTTON";
     attributes := [ {| attrName := "id"; attrValue := "save-btn" |};
                     {| attrName := "*ngIf"; attrValue := "ready" |};
                     {| attrName := "data-x"; attrValue := "1" |} ];
     textContent := Some "  Save all  ";
     parentElement := Some {| parentTagName := "DIV"; isComponentElement := false |} |}.

(** The template the button comes from. *)
Definition saveButtonTemplate : list string :=
  [ "<div>";
    "  <button id=save-btn class=btn *ngIf=ready>Save all</button>";
    "</div>" ].

(** A cache that is clean for [fooFile], without an index file. *)
Definition cachedDisk : Disk :=
  {| indexFile := None; cacheFile := Some {[ "/app/foo.ts" := 1700000000000%Z ]} |}.

(** An index file cut short: it exists and holds no record. *)
Definition partialIndex : MapFile :=
  {| generatedAt := ""; mapDetailByFilePath := ∅; mapFilePathsByClassName := ∅ |}.

(** A cycle in which the write of the index throws and leaves
    [partialIndex] behind. *)
Definition failingWrite : Environment :=
  {| statSync := fun _ => Some 1700000000000%Z; now := "2024-01-02T00:00:00.000Z";
     indexWriteOk := false; indexAfterFailure := Some partialIndex;
     cacheWriteOk := true; cacheAfterFailure := None |}.

(** A cycle in which every write returns. *)
Definition healthy : Environment :=
  {| statSync := fun _ => Some 1700000000000%Z; now := "2024-01-03T00:00:00.000Z";
     indexWriteOk := true; indexAfterFailure := None;
     cacheWriteOk := true; cacheAfterFailure := None |}.



End Samples.

(** ** Properties of the resolver's selection *)

Module BrowserFacts.
Import Browser Examples.

Lemma fold_count {A} (p : A -> bool) (k : Z) (l : list A) (a : Z) :
  fold_left (fun s x => if p x then s + k else s)%Z l a = (a + k * count p l)%Z.
Proof.
  revert a. induction l as [|x l IH]; intros a; cbn [fold_left].
  - unfold count. cbn. lia.
  - rewrite IH. unfold count. cbn [List.filter].
    destruct (p x); cbn [length]; lia.
Qed.

Lemma adjacentPairs_count (filePath : string) (l : list string) (a : Z) :
  adjacentPairs filePath l a
  = (a + 20 * count (fun p => Js.includes filePath (fst p +:+ "/" +:+ snd p))
                    (adjacent l))%Z.
Proof.
  revert a. induction l as [|x l IH]; intros a.
  - unfold count. cbn. lia.
  - destruct l as [|y l].
    + unfold count. cbn. lia.
    + change (adjacentPairs filePath (x :: y :: l) a)
        with (adjacentPairs filePath (y :: l)
                (if Js.includes filePath (x +:+ "/" +:+ y) then a + 20 else a)%Z).
      rewrite IH. change (adjacent (x :: y :: l)) with ((x, y) :: adjacent (y :: l)).
      unfold count. cbn [List.filter fst snd].
      destruct (Js.includes filePath (x +:+ "/" +:+ y)); cbn [length]; lia.
Qed.

Lemma lastElement_In (l : list string) (s : string) :
  Js.lastElement l = Some s -> In s l.
Proof.
  unfold Js.lastElement. induction l as [|x l IH]; [discriminate|].
  destruct l as [|y l].
  - cbn. intros [= ->]. now left.
  - intros H. right. apply IH. exact H.
Qed.

Lemma lastElement_truthy (l : list string) (s : string) :
  Js.lastElement (Js.filterBoolean l) = Some s -> Js.truthy s = true.
Proof.
  intros H%lastElement_In. unfold Js.filterBoolean in H.
  apply filter_In in H. tauto.
Qed.

(** The score computed by the loops is the sum the specification writes. *)
Lemma calculatePathRelevance_spec (filePath currentUrl : string) :
  calculatePathRelevance filePath currentUrl = spec_relevance filePath currentUrl.
Proof.
  unfold calculatePathRelevance, spec_relevance, segments.
  change (List.filter (fun s => negb (String.eqb s ""))) with Js.filterBoolean.
  rewrite fold_count, adjacentPairs_count.
  destruct (Js.lastElement (Js.filterBoolean (Js.split "/" currentUrl))) as [s|] eqn:E.
  - rewrite (lastElement_truthy _ _ E). cbn [andb].
    destruct (Js.includes _ _); lia.
  - lia.
Qed.

Lemma spec_relevance_nonneg (filePath navigation : string) :
  (0 <= spec_relevance filePath navigation)%Z.
Proof.
  unfold spec_relevance, count.
  destruct (Js.lastElement _) as [s|]; [destruct (Js.includes _ _)|]; lia.
Qed.

Lemma selectStep_eq (url b x : string) (bs : Z) :
  selectStep url (b, bs) x
  = if (bs <? spec_relevance x url)%Z then (x, spec_relevance x url) else (b, bs).
Proof. unfold selectStep. now rewrite calculatePathRelevance_spec. Qed.

(** The selection loop keeps the first candidate of maximal score among
    those that beat the initial score. *)
Lemma select_fold (url : string) (l : list string) (b : string) (bs : Z) :
  let r := fold_left (selectStep url) l (b, bs) in
  (r = (b, bs) /\ forall c, In c l -> (spec_relevance c url <= bs)%Z)
  \/ (exists i, l !! i = Some (fst r)
               /\ snd r = spec_relevance (fst r) url
               /\ (bs < snd r)%Z
               /\ (forall j c, l !! j = Some c -> (spec_relevance c url <= snd r)%Z)
               /\ (forall j c, l !! j = Some c -> j < i ->
                               (spec_relevance c url < snd r)%Z)).
Proof.
  revert b bs. induction l as [|x l IH]; intros b bs; cbn zeta.
  - left. split; [reflexivity|]. intros c [].
  - cbn [fold_left]. rewrite selectStep_eq.
    destruct (Z.ltb_spec bs (spec_relevance x url)) as [Hlt|Hge].
    + specialize (IH x (spec_relevance x url)). cbn zeta in IH.
      destruct IH as [[-> Hall]|(i & Hi & Hs & Hb & Hmax & Hfirst)]; right.
      * exists 0. cbn [fst snd]. split_and!; [done|done|done| |].
        -- intros [|j] c; cbn; [intros [= <-]; lia|].
           intros Hc. apply Hall. eapply list_elem_of_In, list_elem_of_lookup_2, Hc.
        -- intros j c _ Hj. lia.
      * exists (S i). split_and!; [done|done|lia| |].
        -- intros [|j] c; cbn; [intros [= <-]; lia|]. apply Hmax.
        -- intros [|j] c; cbn; [intros [= <-] _; lia|].
           intros Hc Hj. apply (Hfirst j c Hc). lia.
    + specialize (IH b bs). cbn zeta in IH.
      destruct IH as [[-> Hall]|(i & Hi & Hs & Hb & Hmax & Hfirst)].
      * left. split; [reflexivity|]. intros c [<-|Hc]; [lia|]. now apply Hall.
      * right. exists (S i). split_and!; [done|done|done| |].
        -- intros [|j] c; cbn; [intros [= <-]; lia|]. apply Hmax.
        -- intros [|j] c; cbn; [intros [= <-] _; lia|].
           intros Hc Hj. apply (Hfirst j c Hc). lia.
Qed.

(** C1. Among two or more candidate file paths the resolver returns a
    candidate of the highest relevance score, the score being the sum of
    the specification (+10 per navigation segment that is a whole segment
    of the file path, +20 per adjacent pair of navigation segments whose
    joined form occurs in the file path, +30 when the last navigation
    segment occurs case-insensitively in the file path); every candidate
    stored before the returned one scores strictly less, so among the
    candidates of the highest score the first in stored order is returned.
    The result is a function of the candidates and the navigation path. *)
Theorem selectBestMatchingFile_highest_first
    (navigation : string) (candidates : list string) :
  2 <= length candidates ->
  (forall filePath,
      calculatePathRelevance filePath navigation = spec_relevance filePath navigation)
  /\ exists i best,
      selectBestMatchingFile navigation candidates = Some best
      /\ candidates !! i = Some best
      /\ (forall j c, candidates !! j = Some c ->
                      (spec_relevance c navigation <= spec_relevance best navigation)%Z)
      /\ (forall j c, candidates !! j = Some c -> j < i ->
                      (spec_relevance c navigation < spec_relevance best navigation)%Z).
Proof.
  intros Hlen. split; [intros; apply calculatePathRelevance_spec|].
  destruct candidates as [|c0 [|c1 l]]; cbn in Hlen; try lia.
  unfold selectBestMatchingFile.
  pose proof (select_fold navigation (c0 :: c1 :: l) c0 (-1)) as H. cbn zeta in H.
  destruct H as [[_ Hall]|(i & Hi & Hs & _ & Hmax & Hfirst)].
  - exfalso. specialize (Hall c0 (or_introl eq_refl)).
    pose proof (spec_relevance_nonneg c0 navigation). lia.
  - exists i, (fst (fold_left (selectStep navigation) (c0 :: c1 :: l) (c0, (-1)%Z))).
    rewrite <- Hs. repeat split; try done.
Qed.

Lemma selectBestMatchingFile_highest_first_witness :
  2 <= length ["a/widgets/foo.ts"; "b/dashboard/foo.ts"]
  /\ (spec_relevance "a/widgets/foo.ts" "/dashboard/settings" = 0
      /\ spec_relevance "b/dashboard/foo.ts" "/dashboard/settings" = 10
      /\ selectBestMatchingFile "/dashboard/settings"
           ["a/widgets/foo.ts"; "b/dashboard/foo.ts"] = Some "b/dashboard/foo.ts"
      /\ selectBestMatchingFile "/reports"
           ["a/widgets/foo.ts"; "b/dashboard/foo.ts"] = Some "a/widgets/foo.ts")%Z
  /\ exists i best,
      selectBestMatchingFile "/dashboard/settings"
        ["a/widgets/foo.ts"; "b/dashboard/foo.ts"] = Some best
      /\ ["a/widgets/foo.ts"; "b/dashboard/foo.ts"] !! i = Some best
      /\ (forall j c, ["a/widgets/foo.ts"; "b/dashboard/foo.ts"] !! j = Some c ->
            (spec_relevance c "/dashboard/settings"
             <= spec_relevance best "/dashboard/settings")%Z)
      /\ (forall j c, ["a/widgets/foo.ts"; "b/dashboard/foo.ts"] !! j = Some c -> j < i ->
            (spec_relevance c "/dashboard/settings"
             < spec_relevance best "/dashboard/settings")%Z).
Proof.
  split; [cbn; lia|]. split; [split_and!; reflexivity|].
  apply (selectBestMatchingFile_highest_first "/dashboard/settings"
           ["a/widgets/foo.ts"; "b/dashboard/foo.ts"]).
  cbn; lia.
Defined.



Lemma truthy_false (s : string) : Js.truthy s = false -> s = "".
Proof.
  unfold Js.truthy. destruct (String.eqb_spec s ""); [auto|discriminate].
Qed.

Lemma getClassNameCandidates_cases (className : string) :
  let stripped := stripLeadingUnderscores className in
  getClassNameCandidates className
  = if Js.truthy className then
      if Js.truthy stripped && negb (String.eqb stripped className)
      then [className; stripped] else [className]
    else [].
Proof.
  cbn zeta. unfold getClassNameCandidates, push.
  destruct (Js.truthy className) eqn:T; cbn.
  - destruct (Js.truthy (stripLeadingUnderscores className)); cbn; [|reflexivity].
    rewrite orb_false_r.
    now destruct (String.eqb (stripLeadingUnderscores className) className).
  - apply truthy_false in T. now subst.
Qed.








(** The index of the sample keeps the invariants of the data model. *)
Lemma fooIndex_invariant : index_invariant fooIndex.
Proof.
  split.
  - intros identifier paths p Hl Hin. cbn in Hl.
    apply lookup_singleton_Some in Hl as [_ <-]. destruct Hin as [<-|[]].
    cbn. rewrite lookup_singleton_eq. eauto.
  - reflexivity.
Qed.

End BrowserFacts.

(** ** Properties of the content search ranker and of the dispatcher *)

Module FileOpenerFacts.
Import FileOpener Examples.

Lemma split_length (sep : ascii) (s : string) : 1 <= length (Js.split sep s).
Proof.
  induction s as [|c s IH]; cbn [Js.split]; [cbn; lia|].
  destruct (Ascii.eqb c sep); [cbn; lia|].
  destruct (Js.split sep s); cbn in *; lia.
Qed.

Lemma bump_length (scores : list Q) (i : nat) (d : Q) :
  length (bump scores i d) = length scores.
Proof. unfold bump. destruct (scores !! i); [apply length_insert|reflexivity]. Qed.

Section RankerFacts.

Variable host : string -> string -> option bool.
Variable readFileSync : string -> option string.

Lemma forEachLine_length (weight : Z) (term : string) (lines : list string)
    (lineIndex : nat) (scores scores' : list Q) :
  forEachLine host weight term lines lineIndex scores = Some scores' ->
  length scores' = length scores.
Proof.
  revert lineIndex scores. induction lines as [|line lines IH]; intros i scores; cbn.
  - now intros [= <-].
  - destruct (Js.includes _ _); [|apply IH].
    destruct (RegExp.RegExp_test _ _ _) as [[|]|]; [| |discriminate].
    + destruct (Js.startsWith _ _); intros H%IH; rewrite H, ?bump_length; reflexivity.
    + destruct (Js.startsWith _ _); intros H%IH; rewrite H, ?bump_length; reflexivity.
Qed.

Lemma forEachTerm_length (termCount : nat) (terms : list string) (termIndex : nat)
    (lines : list string) (scores scores' : list Q) :
  forEachTerm host termCount terms termIndex lines scores = Some scores' ->
  length scores' = length scores.
Proof.
  revert termIndex scores. induction terms as [|term terms IH]; intros i scores; cbn.
  - now intros [= <-].
  - destruct (forEachLine _ _ _ _ _ _) as [scores1|] eqn:E; [|discriminate].
    intros H%IH. rewrite H. eapply forEachLine_length, E.
Qed.

(** The line kept by the final loop is the initial one or the number of
    a line visited. *)
Lemma bestLoop_range (scores : list Q) (index : nat) (best : nat * Q) :
  fst (bestLoop scores index best) = fst best
  \/ index < fst (bestLoop scores index best) <= index + length scores.
Proof.
  revert index best. induction scores as [|score scores IH]; intros index [bl bs].
  - now left.
  - cbn [bestLoop length]. destruct (IH (S index) (bestStep (bl, bs) index score)) as [H|H].
    + rewrite H. unfold bestStep. destruct (Qltb bs score); cbn [fst]; [right; lia|now left].
    + right. lia.
Qed.

Lemma rankLines_range (content : string) (searchTerms : list string) (line : nat) :
  rankLines host content searchTerms = Some line ->
  1 <= line <= length (Js.split LF content).
Proof.
  unfold rankLines. pose proof (split_length LF content) as Hlen.
  destruct (forEachTerm _ _ _ _ _ _) as [scores|] eqn:E; [|discriminate].
  apply forEachTerm_length in E. rewrite repeat_length in E.
  pose proof (bestLoop_range scores 0 (1, 0%Q)) as H.
  destruct (bestLoop scores 0 (1, 0%Q)) as [bestLine bestScore]. cbn [fst] in H.
  intros [= <-]. destruct (Qltb 0 bestScore); lia.
Qed.

End RankerFacts.

(** C9. When the file cannot be read the ranker returns line 1, whatever
    the clue list. *)
Theorem findBestLineInFile_unreadable
    (host : string -> string -> option bool) (readFileSync : string -> option string)
    (filePath : string) (searchTerms : list string) :
  readFileSync filePath = None ->
  findBestLineInFile host readFileSync filePath searchTerms = 1.
Proof. intros H. unfold findBestLineInFile. now rewrite H. Qed.

Lemma findBestLineInFile_unreadable_witness :
  findBestLineInFile (fun _ _ => None) (fun _ => None) "/app/missing.html" ["save"; "btn"] = 1.
Proof.
  apply (findBestLineInFile_unreadable (fun _ _ => None) (fun _ => None)
           "/app/missing.html" ["save"; "btn"]).
  reflexivity.
Defined.

(** C10. The ranker always returns a line number: on a file that can be
    read, a number from 1 to the number of lines of the file (an empty list
    of clues and an empty file included); on a read error, 1. *)
Theorem findBestLineInFile_in_range
    (host : string -> string -> option bool) (readFileSync : string -> option string)
    (filePath : string) (searchTerms : list string) :
  let n := findBestLineInFile host readFileSync filePath searchTerms in
  match readFileSync filePath with
  | Some content => 1 <= n <= length (Js.split LF content)
  | None => n = 1
  end.
Proof.
  cbn zeta. unfold findBestLineInFile.
  destruct (readFileSync filePath) as [content|]; [|reflexivity].
  destruct (rankLines host content searchTerms) as [line|] eqn:E.
  - eapply rankLines_range, E.
  - pose proof (split_length LF content). lia.
Qed.

Section DispatcherFacts.

Variable EDITOR_CMD : option string.
Variable FALLBACK_EDITOR : string.
Variable checkEditorCLI : string -> bool.
Variable spawn : list SpawnCall -> SpawnCall -> bool.
Variable fileWithPos : string.

Local Abbreviation launch := (launchInEditor EDITOR_CMD FALLBACK_EDITOR checkEditorCLI spawn fileWithPos).
Local Abbreviation dispatch := (spec_dispatch checkEditorCLI spawn fileWithPos).
Local Abbreviation call := (callOf checkEditorCLI fileWithPos).
Local Abbreviation overrideLog := (FileOpener.overrideLog EDITOR_CMD fileWithPos).

(** [tryRun] on an editor name that is not the name of a member of
    [Object.prototype]. *)
Lemma tryRun_callOf (log : list SpawnCall) (editor : string) :
  Js.inherited editor = false ->
  tryRun checkEditorCLI spawn fileWithPos log editor
  = match call (Editor editor) with
    | Some c => Returned (spawn log c) (log ++ [c])
    | None => Returned false log
    end.
Proof.
  intros Hplain. unfold tryRun, callOf, trySpawn.
  destruct (COMMAND_TEMPLATES checkEditorCLI editor) as [mk|].
  - now destruct (mk fileWithPos).
  - now rewrite Hplain.
Qed.

(** For such editor names the nested conditionals of [launchInEditor]
    run the chain of the specification. *)
Lemma launchInEditor_dispatch (preferred : string) :
  Js.inherited preferred = false -> Js.inherited FALLBACK_EDITOR = false ->
  launch preferred
  = Returned (fst (dispatch [] (spec_chain EDITOR_CMD FALLBACK_EDITOR preferred)))
             (snd (dispatch [] (spec_chain EDITOR_CMD FALLBACK_EDITOR preferred))).
Proof.
  intros Hpreferred Hfallback. unfold launchInEditor, spec_chain.
  assert (Htail : forall log,
    match tryRun checkEditorCLI spawn fileWithPos log preferred with
    | Thrown log0 => Thrown log0
    | Returned true log0 => Returned true log0
    | Returned false log0 =>
        if Js.truthy FALLBACK_EDITOR then
          match tryRun checkEditorCLI spawn fileWithPos log0 FALLBACK_EDITOR with
          | Thrown log1 => Thrown log1
          | Returned true log1 => Returned true log1
          | Returned false log1 => Returned false log1
          end
        else Returned false log0
    end
    = Returned
        (fst (dispatch log ([Editor preferred]
                            ++ (if Js.truthy FALLBACK_EDITOR
                                then [Editor FALLBACK_EDITOR] else []))))
        (snd (dispatch log ([Editor preferred]
                            ++ (if Js.truthy FALLBACK_EDITOR
                                then [Editor FALLBACK_EDITOR] else []))))).
  { intros log. rewrite (tryRun_callOf _ _ Hpreferred). cbn [app spec_dispatch].
    destruct (call (Editor preferred)) as [c|].
    - destruct (spawn log c); [reflexivity|].
      destruct (Js.truthy FALLBACK_EDITOR); [|reflexivity].
      rewrite (tryRun_callOf _ _ Hfallback). cbn [spec_dispatch].
      destruct (call (Editor FALLBACK_EDITOR)) as [c'|]; [|reflexivity].
      now destruct (spawn (log ++ [c]) c').
    - destruct (Js.truthy FALLBACK_EDITOR); [|reflexivity].
      rewrite (tryRun_callOf _ _ Hfallback). cbn [spec_dispatch].
      destruct (call (Editor FALLBACK_EDITOR)) as [c'|]; [|reflexivity].
      now destruct (spawn log c'). }
  destruct EDITOR_CMD as [editorCmd|]; [|apply Htail].
  destruct (Js.truthy editorCmd); [|apply Htail].
  unfold trySpawn. cbn [app spec_dispatch callOf].
  destruct (spawn [] (overrideCall editorCmd fileWithPos)); [reflexivity|apply Htail].
Qed.

(** A chain that reports failure has made at most one call per strategy,
    and each call failed. *)
Lemma dispatch_failure (chain : list Strategy) (log : list SpawnCall) :
  fst (dispatch log chain) = false ->
  exists calls,
    snd (dispatch log chain) = log ++ calls
    /\ length calls <= length chain
    /\ forall i c, calls !! i = Some c -> spawn (log ++ take i calls) c = false.
Proof.
  revert log. induction chain as [|s chain IH]; intros log; cbn [spec_dispatch].
  - intros _. exists []. rewrite app_nil_r. split_and!; [done|done|]. intros i c [=].
  - destruct (call s) as [c|].
    + destruct (spawn log c) eqn:Hs; [discriminate|].
      intros (calls & Hlog & Hlen & Hfail)%IH. exists (c :: calls).
      rewrite Hlog, <- app_assoc. split_and!; [done|cbn; lia|].
      intros [|i] c'; cbn.
      * intros [= <-]. now rewrite app_nil_r.
      * intros Hc.
        replace (log ++ c :: take i calls) with ((log ++ [c]) ++ take i calls)
          by now rewrite <- app_assoc.
        now apply Hfail.
    + intros (calls & Hlog & Hlen & Hfail)%IH. exists calls. split_and!; [done|cbn; lia|done].
Qed.

(** For editor names that are not names of members of
    [Object.prototype], the dispatcher runs the chain override, preferred
    editor, fallback editor in this order and stops at the first launch
    that succeeds. A configured override is called with the target
    appended to its arguments, and its success ends the chain. When the
    override is absent or its launch throws, the preferred editor is
    tried; when the preferred editor's launch throws, the fallback editor
    is launched once and decides the result. A reported failure comes
    after at most one call per strategy, all of which threw. *)
Lemma launchInEditor_chain (preferred : string) :
  Js.inherited preferred = false -> Js.inherited FALLBACK_EDITOR = false ->
  (forall editorCmd,
     EDITOR_CMD = Some editorCmd -> Js.truthy editorCmd = true ->
     let override :=
       {| cmd := hd "" (Js.split " " editorCmd);
          args := tl (Js.split " " editorCmd) ++ [fileWithPos] |} in
     spawn [] override = true -> launch preferred = Returned true [override])
  /\ (forall p,
        (forall c, In c overrideLog -> spawn [] c = false) ->
        call (Editor preferred) = Some p ->
        (spawn overrideLog p = true -> launch preferred = Returned true (overrideLog ++ [p]))
        /\ (spawn overrideLog p = false ->
            forall f,
              Js.truthy FALLBACK_EDITOR = true ->
              call (Editor FALLBACK_EDITOR) = Some f ->
              launch preferred
              = Returned (spawn (overrideLog ++ [p]) f) (overrideLog ++ [p; f])))
  /\ (forall log,
        launch preferred = Returned false log ->
        length log <= 3
        /\ forall i c, log !! i = Some c -> spawn (take i log) c = false).
Proof.
  intros Hpreferred Hfallback.
  rewrite (launchInEditor_dispatch preferred Hpreferred Hfallback). split_and!.
  - intros editorCmd HE Ht override Hs.
    unfold spec_chain. rewrite HE, Ht. cbn [app spec_dispatch callOf].
    fold override. change (overrideCall editorCmd fileWithPos) with override.
    now rewrite Hs.
  - intros p Ho Hp.
    assert (Hpre : forall rest,
      dispatch [] (match EDITOR_CMD with
                   | Some editorCmd => if Js.truthy editorCmd then [Override editorCmd] else []
                   | None => []
                   end ++ rest) = dispatch overrideLog rest).
    { intros rest. unfold overrideLog in *. destruct EDITOR_CMD as [editorCmd|]; [|reflexivity].
      destruct (Js.truthy editorCmd); [|reflexivity].
      cbn [app spec_dispatch callOf]. now rewrite Ho by now left. }
    unfold spec_chain. rewrite Hpre. cbn [app spec_dispatch]. rewrite Hp. split.
    + now intros ->.
    + intros -> f Ht Hf. rewrite Ht. cbn [spec_dispatch]. rewrite Hf.
      rewrite <- app_assoc. cbn [app]. now destruct (spawn _ f).
  - intros log [= Hfail Hlog].
    destruct (dispatch_failure _ [] Hfail) as (calls & Hcalls & Hlen & Hfailed).
    cbn [app] in Hcalls. rewrite Hcalls in Hlog. subst log. split.
    + etransitivity; [exact Hlen|]. unfold spec_chain.
      rewrite !length_app. cbn [length].
      destruct EDITOR_CMD as [e|]; [destruct (Js.truthy e)|];
        destruct (Js.truthy FALLBACK_EDITOR); cbn; lia.
    + intros i c Hc. now apply (Hfailed i c).
Qed.

End DispatcherFacts.

(** C6, on the code. The preferred editor is [valueOf], the fallback
    editor is [code], no override is configured. The table of templates
    has no template of that name, and the chain of the claim passes on to
    the fallback editor, which it launches once. In the code the read of
    the table finds the member [valueOf] of [Object.prototype], the guard
    [if (!mk)] lets it through, and the call [mk(fileWithPos)], which
    stands before the [try], throws: [launchInEditor] is left by the
    exception, the fallback editor is not tried and no failure is
    reported. *)
Theorem launchInEditor_throws_on_inherited_editor
    (spawn : list SpawnCall -> SpawnCall -> bool) (fileWithPos : string) :
  let fallback := {| cmd := "code"; args := ["--goto"; fileWithPos] |} in
  COMMAND_TEMPLATES (fun _ => true) "valueOf" = None
  /\ Js.inherited "valueOf" = true
  /\ spec_dispatch (fun _ => true) spawn fileWithPos [] (spec_chain None "code" "valueOf")
     = (spawn [] fallback, [fallback])
  /\ tryRun (fun _ => true) spawn fileWithPos [] "valueOf" = Thrown []
  /\ launchInEditor None "code" (fun _ => true) spawn fileWithPos "valueOf" = Thrown [].
Proof.
  cbn zeta. split_and!; try reflexivity.
  cbn. now destruct (spawn [] _).
Qed.

(** C2, on the code. The clue [*ngFor] occurs in line 2 only, so the
    ranking of the specification gives line 2. The ranker builds the
    pattern [\b*ngfor\b] from it, the [RegExp] constructor throws, and the
    ranker returns line 1. *)
Theorem findBestLineInFile_aborts_on_quantifier_clue
    (host : string -> string -> option bool) :
  let lines := ["<ul>"; "  <li *ngFor=x>"; "</ul>"] in
  let readFileSync := fun _ : string => Some (fileOf lines) in
  Js.split LF (fileOf lines) = lines
  /\ spec_lineScore ["*ngFor"] "  <li *ngFor=x>" = 2%Q
  /\ spec_bestLine lines ["*ngFor"] = 2
  /\ RegExp.RegExp_test host ("\b" +:+ escapeReplace "*ngfor" +:+ "\b") "  <li *ngfor=x>" = None
  /\ findBestLineInFile host readFileSync "/app/list.html" ["*ngFor"] = 1.
Proof. cbn zeta. split_and!; reflexivity. Qed.

(** C7, on the code. The [replace] call leaves [(] as it is, since its
    pattern asks for a backslash and []] after the special character.
    With the clue [foo(] the pattern is [\bfoo(\b], the constructor throws
    and the pass is aborted: line 1 is returned although only line 2
    holds the clue. With the clue [(click)] the pattern is [\b(click)\b],
    a group: the bonus goes to a line where the literal text [(click)] has
    no word boundary before it, and line 2 outranks line 1. *)
Theorem escapeReplace_leaves_special_characters
    (host : string -> string -> option bool) :
  let lines1 := ["bar"; "foo()"] in
  let lines2 := ["save"; "x (click)"] in
  (escapeReplace "foo(" = "foo("
   /\ RegExp.RegExp_test host ("\b" +:+ escapeReplace "foo(" +:+ "\b") "foo()" = None
   /\ Js.split LF (fileOf lines1) = lines1
   /\ findBestLineInFile host (fun _ => Some (fileOf lines1)) "/app/t.html" ["foo("] = 1
   /\ spec_bestLine lines1 ["foo("] = 2)
  /\ (escapeReplace "(click)" = "(click)"
      /\ RegExp.RegExp_test host ("\b" +:+ escapeReplace "(click)" +:+ "\b") "x (click)"
         = Some true
      /\ wholeWordMatch "x (click)" "(click)" = false
      /\ Js.split LF (fileOf lines2) = lines2
      /\ findBestLineInFile host (fun _ => Some (fileOf lines2)) "/app/t.html"
           ["(click)"; "save"] = 2
      /\ spec_bestLine lines2 ["(click)"; "save"] = 1).
Proof. cbn zeta. split_and!; reflexivity. Qed.

Ltac each_unit c := destruct c as [[] [] [] [] [] [] [] []].

Lemma lowerUnit_plain (c : ascii) :
  plainUnit c = true -> plainUnit (Js.lowerUnit c) = true.
Proof. each_unit c; intros H; solve [reflexivity | discriminate H]. Qed.

Lemma toLowerCase_plain (clue : string) :
  plainClue clue = true -> plainClue (Js.toLowerCase clue) = true.
Proof.
  unfold plainClue. induction clue as [|c clue IH]; cbn; [reflexivity|].
  rewrite !andb_true_iff. intros [Hc H]. split; [now apply lowerUnit_plain|now apply IH].
Qed.

Lemma plainUnit_not_backslash (c : ascii) : plainUnit c = true -> Ascii.eqb c "\" = false.
Proof. each_unit c; intros H; solve [reflexivity | discriminate H]. Qed.

(** A plain unit is read as a pattern character. *)
Lemma parse_plainUnit (c : ascii) (rest : string) (stack : list RegExp.frame)
    (cur : RegExp.frame) (q : RegExp.qstate) :
  plainUnit c = true ->
  RegExp.parse (String c rest) stack cur q
  = RegExp.parse rest stack (RegExp.addTerm cur (RegExp.Char c)) RegExp.Atom.
Proof. each_unit c; intros H; solve [reflexivity | discriminate H]. Qed.

Lemma escapeReplace_plain (clue : string) :
  plainClue clue = true -> escapeReplace clue = clue.
Proof.
  unfold plainClue. induction clue as [|c tl IH]; [reflexivity|].
  cbn [list_ascii_of_string forallb]. rewrite andb_true_iff. intros [_ Htl].
  specialize (IH Htl). cbn [escapeReplace].
  destruct tl as [|c1 [|c2 rest]]; [reflexivity|now rewrite IH|].
  cbn [list_ascii_of_string forallb] in Htl. apply andb_true_iff in Htl as [Hc1 _].
  rewrite (plainUnit_not_backslash c1 Hc1), andb_false_r. cbn [andb]. now rewrite IH.
Qed.

Lemma parse_plain (clue : string) (cur : RegExp.frame) (q : RegExp.qstate) :
  plainClue clue = true ->
  RegExp.parse (clue +:+ "\b") [] cur q
  = RegExp.Parsed
      (fold_left (fun acc a => RegExp.Alt a acc) (RegExp.alts cur)
         (fold_left (fun acc t => RegExp.Seq t acc) (RegExp.terms cur)
            (literal clue (RegExp.Seq RegExp.WordBoundary RegExp.Empty)))).
Proof.
  unfold plainClue. revert cur q. induction clue as [|c clue IH]; intros cur q.
  - intros _. reflexivity.
  - cbn [list_ascii_of_string forallb]. rewrite andb_true_iff. intros [Hc H].
    change (String c clue +:+ "\b") with (String c (clue +:+ "\b")).
    rewrite parse_plainUnit by exact Hc. now rewrite IH.
Qed.

(** For a plain clue the pattern built by the ranker is the whole-word
    pattern of the clue's literal text. *)
Lemma RegExp_test_plain (host : string -> string -> option bool) (clue line : string) :
  plainClue clue = true ->
  RegExp.RegExp_test host ("\b" +:+ escapeReplace clue +:+ "\b") line
  = Some (wholeWordMatch line clue).
Proof.
  intros H. rewrite escapeReplace_plain by exact H.
  unfold RegExp.RegExp_test, RegExp.compile.
  change (RegExp.parse ("\b" +:+ clue +:+ "\b") [] RegExp.emptyFrame RegExp.NoAtom)
    with (RegExp.parse (clue +:+ "\b") []
            (RegExp.addTerm RegExp.emptyFrame RegExp.WordBoundary) RegExp.NoAtom).
  rewrite parse_plain by exact H. reflexivity.
Qed.

(** *** Scores are sums *)

Lemma Qplus_0_r_eq (x : Q) : (x + 0)%Q = x.
Proof.
  destruct x as [n d]. unfold Qplus. cbn [Qnum Qden]. f_equal; [lia|apply Pos.mul_1_r].
Qed.

Lemma Qplus_0_l_eq (x : Q) : (0 + x)%Q = x.
Proof. destruct x as [n d]. unfold Qplus. cbn [Qnum Qden]. f_equal. lia. Qed.

Lemma Qplus_assoc_eq (x y z : Q) : (x + (y + z))%Q = (x + y + z)%Q.
Proof.
  destruct x as [a b], y as [c d], z as [e f]. unfold Qplus. cbn [Qnum Qden].
  f_equal; [rewrite !Pos2Z.inj_mul; ring|apply Pos.mul_assoc].
Qed.

Lemma bump_middle (pre rest : list Q) (x d : Q) :
  bump (pre ++ x :: rest) (length pre) d = pre ++ (x + d)%Q :: rest.
Proof.
  unfold bump. rewrite list_lookup_middle by reflexivity.
  rewrite insert_app_r_alt by lia. now rewrite Nat.sub_diag.
Qed.

Section PlainRanking.

Variable host : string -> string -> option bool.

(** One clue adds its score of the specification to every line. *)
Lemma forEachLine_plain (weight : Z) (term : string) (lines : list string)
    (g : string -> Q) (pre : list Q) :
  plainClue term = true ->
  forEachLine host weight term lines (length pre) (pre ++ List.map g lines)
  = Some (pre ++ List.map (fun line => (g line + spec_clueScore weight term line)%Q) lines).
Proof.
  intros Hplain. revert pre. induction lines as [|line lines IH]; intros pre; [reflexivity|].
  cbn [forEachLine List.map]. unfold spec_clueScore at 1.
  assert (Hnext : forall v,
    forEachLine host weight term lines (S (length pre)) (pre ++ v :: List.map g lines)
    = Some (pre ++ v :: List.map (fun l => (g l + spec_clueScore weight term l)%Q) lines)).
  { intros v. specialize (IH (pre ++ [v])).
    rewrite length_app, Nat.add_1_r, <- !app_assoc in IH. exact IH. }
  destruct (Js.includes _ _).
  - rewrite RegExp_test_plain by now apply toLowerCase_plain.
    rewrite bump_middle.
    destruct (wholeWordMatch _ _), (Js.startsWith _ _);
      rewrite ?bump_middle, Hnext; do 3 f_equal;
      rewrite ?Qplus_0_r_eq, ?Qplus_assoc_eq; reflexivity.
  - rewrite Hnext, Qplus_0_r_eq. reflexivity.
Qed.

Lemma forEachTerm_plain (termCount : nat) (terms : list string) (termIndex : nat)
    (lines : list string) (g : string -> Q) :
  forallb plainClue terms = true ->
  forEachTerm host termCount terms termIndex lines (List.map g lines)
  = Some (List.map (fun line =>
                      (g line + spec_lineScoreFrom termCount termIndex terms line)%Q) lines).
Proof.
  revert termIndex g. induction terms as [|term terms IH]; intros termIndex g.
  - intros _. cbn. f_equal. apply map_ext. intros line. now rewrite Qplus_0_r_eq.
  - cbn [forallb]. rewrite andb_true_iff. intros [Hterm Hterms].
    cbn [forEachTerm spec_lineScoreFrom].
    rewrite (forEachLine_plain _ term lines g [] Hterm). cbn [app].
    rewrite IH by exact Hterms. f_equal. apply map_ext. intros line.
    now rewrite Qplus_assoc_eq.
Qed.

Lemma rankLines_plain (content : string) (searchTerms : list string) :
  forallb plainClue searchTerms = true ->
  rankLines host content searchTerms
  = Some (spec_bestLine (Js.split LF content) searchTerms).
Proof.
  intros H. unfold rankLines, spec_bestLine.
  replace (repeat 0%Q (length (Js.split LF content)))
    with (List.map (fun _ : string => 0%Q) (Js.split LF content))
    by (induction (Js.split LF content); cbn; congruence).
  rewrite forEachTerm_plain by exact H.
  replace (List.map (fun line => (0 + spec_lineScoreFrom (length searchTerms) 0 searchTerms line)%Q)
             (Js.split LF content))
    with (List.map (spec_lineScore searchTerms) (Js.split LF content))
    by (apply map_ext; intros line; now rewrite Qplus_0_l_eq).
  now destruct (bestLoop _ 0 (1, 0%Q)).
Qed.

End PlainRanking.

Lemma Qltb_lt (a b : Q) : Qltb a b = true <-> (a < b)%Q.
Proof. unfold Qltb, Qlt. apply Z.ltb_lt. Qed.

Lemma Qltb_ge (a b : Q) : Qltb a b = false <-> (b <= a)%Q.
Proof. unfold Qltb, Qle. apply Z.ltb_ge. Qed.

(** The final loop keeps the first score that is maximal among those
    above the initial one. *)
Lemma bestLoop_first_max (scores : list Q) (index bl : nat) (bs : Q) :
  let r := bestLoop scores index (bl, bs) in
  (r = (bl, bs) /\ forall s, In s scores -> (s <= bs)%Q)
  \/ (exists i s,
        scores !! i = Some s /\ r = (index + i + 1, s) /\ (bs < s)%Q
        /\ (forall j t, scores !! j = Some t -> (t <= s)%Q)
        /\ (forall j t, scores !! j = Some t -> j < i -> (t < s)%Q)).
Proof.
  cbn zeta. revert index bl bs. induction scores as [|x scores IH]; intros index bl bs.
  - left. split; [reflexivity|]. intros s [].
  - cbn [bestLoop bestStep]. destruct (Qltb bs x) eqn:E.
    + apply Qltb_lt in E.
      destruct (IH (S index) (index + 1) x) as [[-> Hall]|(i & s & Hi & -> & Hb & Hmax & Hfirst)];
        right.
      * exists 0, x. split_and!; [done|f_equal; lia|done| |].
        -- intros [|j] t; cbn; [intros [= <-]; lra|].
           intros Ht. apply Hall. eapply list_elem_of_In, list_elem_of_lookup_2, Ht.
        -- intros j t _ Hj. lia.
      * exists (S i), s. split_and!; [done|f_equal; lia|lra| |].
        -- intros [|j] t; cbn; [intros [= <-]; lra|]. apply Hmax.
        -- intros [|j] t; cbn; [intros [= <-] _; lra|].
           intros Ht Hj. apply (Hfirst j t Ht). lia.
    + apply Qltb_ge in E.
      destruct (IH (S index) bl bs) as [[-> Hall]|(i & s & Hi & -> & Hb & Hmax & Hfirst)].
      * left. split; [reflexivity|]. intros s [<-|Hs]; [exact E|now apply Hall].
      * right. exists (S i), s. split_and!; [done|f_equal; lia|done| |].
        -- intros [|j] t; cbn; [intros [= <-]; lra|]. apply Hmax.
        -- intros [|j] t; cbn; [intros [= <-] _; lra|].
           intros Ht Hj. apply (Hfirst j t Ht). lia.
Qed.

(** X5. The line of the specification's ranking is the first line whose
    score is the maximum, when that maximum is above zero, and line 1 when
    no line scores above zero. *)
Theorem spec_bestLine_first_maximum (lines clues : list string) :
  let n := spec_bestLine lines clues in
  (n = 1 /\ forall line, In line lines -> (spec_lineScore clues line <= 0)%Q)
  \/ (exists line,
        lines !! (n - 1) = Some line /\ 1 <= n
        /\ (0 < spec_lineScore clues line)%Q
        /\ (forall j l, lines !! j = Some l ->
                        (spec_lineScore clues l <= spec_lineScore clues line)%Q)
        /\ (forall j l, lines !! j = Some l -> j < n - 1 ->
                        (spec_lineScore clues l < spec_lineScore clues line)%Q)).
Proof.
  cbn zeta. unfold spec_bestLine.
  destruct (bestLoop_first_max (List.map (spec_lineScore clues) lines) 0 1 0%Q)
    as [[-> Hall]|(i & s & Hi & -> & Hb & Hmax & Hfirst)].
  - left. split; [reflexivity|]. intros line Hin. apply Hall. now apply in_map.
  - right. apply Qltb_lt in Hb as Hb'. rewrite Hb'.
    change (List.map (spec_lineScore clues) lines) with (spec_lineScore clues <$> lines) in *.
    rewrite list_lookup_fmap in Hi.
    destruct (lines !! i) as [line|] eqn:Hline; [|discriminate]. injection Hi as <-.
    exists line. replace (0 + i + 1 - 1) with i by lia. split_and!; [done|lia|done| |].
    + intros j l Hl. apply (Hmax j). now rewrite list_lookup_fmap, Hl.
    + intros j l Hl Hj. apply (Hfirst j); [|exact Hj]. now rewrite list_lookup_fmap, Hl.
Qed.

(** X1. On clues without pattern syntax the ranker returns the line of the
    specification: weight [max(1, clueCount - i)], [weight * 2] for a
    case-insensitive occurrence, [weight * 3] more for a whole-word match,
    [weight * 1.5] more when the trimmed line starts with the clue; the
    first line of maximum score, line 1 if no line scores above zero. *)
Theorem findBestLineInFile_plain_clues
    (host : string -> string -> option bool) (readFileSync : string -> option string)
    (filePath content : string) (searchTerms : list string) :
  readFileSync filePath = Some content ->
  forallb plainClue searchTerms = true ->
  findBestLineInFile host readFileSync filePath searchTerms
  = spec_bestLine (Js.split LF content) searchTerms.
Proof.
  intros Hread Hplain. unfold findBestLineInFile.
  now rewrite Hread, rankLines_plain.
Qed.

Lemma findBestLineInFile_plain_clues_witness :
  forallb plainClue [saveButtonId; "save"] = true
  /\ List.map (spec_lineScore [saveButtonId; "save"]) saveTemplate
     = [0%Q; 5%Q; 9%Q; 0%Q; 0%Q]
  /\ findBestLineInFile (fun _ _ => None) (fun _ => Some (fileOf saveTemplate))
       "/app/form.html" [saveButtonId; "save"] = 3.
Proof.
  split; [reflexivity|]. split; [reflexivity|].
  rewrite (findBestLineInFile_plain_clues (fun _ _ => None)
             (fun _ => Some (fileOf saveTemplate)) "/app/form.html"
             (fileOf saveTemplate) [saveButtonId; "save"]); reflexivity.
Defined.

End FileOpenerFacts.

(** ** Properties of the scanner *)

Module CmpScanFacts.
Import Browser CmpScan Examples.

Lemma arrayIncludes_In (l : list string) (x : string) :
  Js.arrayIncludes l x = true <-> In x l.
Proof.
  unfold Js.arrayIncludes. rewrite existsb_exists. split.
  - intros (y & Hy & ->%String.eqb_eq). exact Hy.
  - intros H. exists x. split; [exact H|apply String.eqb_refl].
Qed.

Lemma arrayIncludes_app (l1 l2 : list string) (x : string) :
  Js.arrayIncludes (l1 ++ l2) x = Js.arrayIncludes l1 x || Js.arrayIncludes l2 x.
Proof. apply existsb_app. Qed.

Lemma firstSeen_ext (seen1 seen2 l : list string) :
  (forall y, Js.arrayIncludes seen1 y = Js.arrayIncludes seen2 y) ->
  firstSeen seen1 l = firstSeen seen2 l.
Proof.
  revert seen1 seen2. induction l as [|x l IH]; intros seen1 seen2 H; cbn [firstSeen];
    [reflexivity|].
  rewrite <- H. destruct (Js.arrayIncludes seen1 x); [now apply IH|].
  f_equal. apply IH. intros y. unfold Js.arrayIncludes in *. cbn [existsb]. now rewrite H.
Qed.

Lemma fold_dedupAppend (l acc : list string) :
  fold_left dedupAppend l acc = acc ++ firstSeen acc l.
Proof.
  revert acc. induction l as [|x l IH]; intros acc; cbn [fold_left firstSeen].
  - now rewrite app_nil_r.
  - unfold dedupAppend at 2. destruct (Js.arrayIncludes acc x) eqn:E; [apply IH|].
    rewrite IH, <- app_assoc. cbn [app]. do 2 f_equal.
    apply firstSeen_ext. intros y. rewrite arrayIncludes_app. cbn.
    now rewrite orb_false_r, orb_comm.
Qed.

Lemma firstSeen_In (seen l : list string) (p : string) :
  In p (firstSeen seen l) <-> In p l /\ Js.arrayIncludes seen p = false.
Proof.
  revert seen. induction l as [|x l IH]; intros seen; cbn [firstSeen In]; [tauto|].
  destruct (Js.arrayIncludes seen x) eqn:E.
  - rewrite IH. split; [tauto|]. intros [[<-|H] Hp]; [congruence|tauto].
  - cbn [In]. rewrite IH. cbn. destruct (String.eqb_spec p x) as [->|Hne].
    + cbn. tauto.
    + cbn. split; [intros [->|[? ?]]; [congruence|tauto]|].
      intros [[->|?] ?]; [congruence|tauto].
Qed.

Lemma firstSeen_NoDup (seen l : list string) : List.NoDup (firstSeen seen l).
Proof.
  revert seen. induction l as [|x l IH]; intros seen; cbn [firstSeen]; [constructor|].
  destruct (Js.arrayIncludes seen x); [apply IH|].
  constructor; [|apply IH]. rewrite firstSeen_In. cbn. rewrite String.eqb_refl. cbn.
  intros [_ [=]].
Qed.

Lemma find_app {A} (f : A -> bool) (l1 l2 : list A) :
  List.find f (l1 ++ l2)
  = match List.find f l1 with
    | Some x => Some x
    | None => List.find f l2
    end.
Proof. induction l1 as [|x l1 IH]; cbn; [reflexivity|]. now destruct (f x). Qed.

Lemma forEachOrThrow_app {S A} (body : S -> A -> option S) (l1 l2 : list A) (state : S) :
  Js.forEachOrThrow body (l1 ++ l2) state
  = match Js.forEachOrThrow body l1 state with
    | Some state' => Js.forEachOrThrow body l2 state'
    | None => None
    end.
Proof.
  revert state. induction l1 as [|x l1 IH]; intros state; [reflexivity|].
  cbn [app Js.forEachOrThrow]. destruct (body state x); [apply IH|reflexivity].
Qed.

(** The two statements throw exactly on an identifier that names a
    member of [Object.prototype] and that the dictionary does not hold. *)
Lemma appendPath_None (byClass : gmap string (list string)) (c p : string) :
  appendPath byClass c p = None <-> byClass !! c = None /\ Js.inherited c = true.
Proof.
  unfold appendPath, Js.getProperty. destruct (byClass !! c) as [paths|] eqn:E.
  - rewrite E. split; [discriminate|]. now intros [[=] _].
  - destruct (Js.inherited c) eqn:I.
    + rewrite E. now split.
    + rewrite lookup_insert_eq. split; [discriminate|]. now intros [_ [=]].
Qed.

(** When they do not throw, they keep every other identifier and
    de-duplicate under the identifier itself. *)
Lemma appendPath_lookup (byClass after : gmap string (list string)) (c p c' : string) :
  appendPath byClass c p = Some after ->
  after !! c'
  = if String.eqb c c' then Some (dedupAppend (default [] (byClass !! c)) p)
    else byClass !! c'.
Proof.
  unfold appendPath, Js.getProperty, dedupAppend.
  destruct (byClass !! c) as [paths|] eqn:E; cbn [default from_option id].
  - rewrite E. intros [= <-]. destruct (String.eqb_spec c c') as [<-|Hne].
    + destruct (Js.arrayIncludes paths p); [exact E|apply lookup_insert_eq].
    + destruct (Js.arrayIncludes paths p); [reflexivity|]. now rewrite lookup_insert_ne.
  - destruct (Js.inherited c).
    + rewrite E. discriminate.
    + rewrite lookup_insert_eq. intros [= <-]. cbn.
      destruct (String.eqb_spec c c') as [<-|Hne].
      * apply lookup_insert_eq.
      * rewrite !lookup_insert_ne by done. reflexivity.
Qed.

Lemma addComponent_Some (idx idx' : Index) (info : CmpInfo) :
  addComponent idx info = Some idx' ->
  detail idx' = <[filePath info := info]> (detail idx)
  /\ appendPath (byClassName idx) (className info) (filePath info) = Some (byClassName idx').
Proof.
  unfold addComponent. destruct (appendPath _ _ _) as [byClass|]; [|discriminate].
  intros [= <-]. split; reflexivity.
Qed.

Lemma detail_fold (found : list CmpInfo) (idx idx' : Index) (p : string) :
  Js.forEachOrThrow addComponent found idx = Some idx' ->
  detail idx' !! p
  = match lastWithPath p found with
    | Some info => Some info
    | None => detail idx !! p
    end.
Proof.
  revert idx. induction found as [|x found IH]; intros idx.
  - intros [= <-]. reflexivity.
  - cbn [Js.forEachOrThrow]. destruct (addComponent idx x) as [idx1|] eqn:A; [|discriminate].
    intros H. rewrite (IH idx1 H). unfold lastWithPath. cbn [rev]. rewrite find_app.
    destruct (List.find _ (rev found)); [reflexivity|]. cbn [List.find].
    apply addComponent_Some in A as [-> _].
    destruct (String.eqb_spec (filePath x) p) as [<-|Hne].
    + apply lookup_insert_eq.
    + now apply lookup_insert_ne.
Qed.

Lemma byClassName_fold (found : list CmpInfo) (idx idx' : Index) (c : string) :
  Js.forEachOrThrow addComponent found idx = Some idx' ->
  byClassName idx' !! c
  = match pathsOf c found with
    | [] => byClassName idx !! c
    | _ :: _ => Some (fold_left dedupAppend (pathsOf c found) (default [] (byClassName idx !! c)))
    end.
Proof.
  revert idx. induction found as [|x found IH]; intros idx.
  - intros [= <-]. reflexivity.
  - cbn [Js.forEachOrThrow]. destruct (addComponent idx x) as [idx1|] eqn:A; [|discriminate].
    intros H. rewrite (IH idx1 H). unfold pathsOf. cbn [List.filter].
    apply addComponent_Some in A as [_ A].
    rewrite !(appendPath_lookup _ _ _ _ c A).
    destruct (String.eqb_spec (className x) c) as [<-|Hne];
      cbn [List.map fold_left default from_option id].
    + now destruct (List.map filePath _).
    + reflexivity.
Qed.

(** The loop throws exactly when a component found is named like a
    member of [Object.prototype], the dictionary holding no such name. *)
Lemma forEach_addComponent_throws (found : list CmpInfo) (idx : Index) :
  (forall c, is_Some (byClassName idx !! c) -> Js.inherited c = false) ->
  Js.forEachOrThrow addComponent found idx = None
  <-> existsb (fun info => Js.inherited (className info)) found = true.
Proof.
  revert idx. induction found as [|x found IH]; intros idx Hown; [easy|].
  cbn [Js.forEachOrThrow existsb]. rewrite orb_true_iff.
  destruct (addComponent idx x) as [idx1|] eqn:A.
  - assert (Hplain : Js.inherited (className x) = false).
    { destruct (Js.inherited (className x)) eqn:I; [|reflexivity]. exfalso.
      apply addComponent_Some in A as [_ A].
      destruct (byClassName idx !! className x) as [paths|] eqn:E.
      - specialize (Hown (className x)). rewrite E in Hown.
        specialize (Hown (ltac:(eauto))). congruence.
      - assert (appendPath (byClassName idx) (className x) (filePath x) = None)
          by now apply appendPath_None.
        congruence. }
    rewrite IH.
    + rewrite Hplain. split; [now right|]. now intros [|].
    + intros c [paths Hc]. apply addComponent_Some in A as [_ A].
      rewrite (appendPath_lookup _ _ _ _ c A) in Hc.
      destruct (String.eqb_spec (className x) c) as [<-|_]; [exact Hplain|].
      apply Hown. eauto.
  - split; [|reflexivity]. intros _. left.
    unfold addComponent in A.
    destruct (appendPath _ _ _) eqn:P; [discriminate|]. now apply appendPath_None in P.
Qed.

Section BuildFacts.

Variable resolveFromRoot : string -> string.
Variable resolveTemplate : string -> string -> string.

Local Abbreviation component := (componentOf resolveFromRoot resolveTemplate).
Local Abbreviation found := (components resolveFromRoot resolveTemplate).
Local Abbreviation build := (buildIndex resolveFromRoot resolveTemplate).

Lemma scanFile_components (idx : Index) (sf : SourceFile) :
  scanFile resolveFromRoot resolveTemplate idx sf
  = Js.forEachOrThrow addComponent (omap (component (getFilePath sf)) (getClasses sf)) idx.
Proof.
  unfold scanFile. generalize (getFilePath sf) as path. intros path.
  revert idx. induction (getClasses sf) as [|cls classes IH]; intros idx; [reflexivity|].
  cbn [Js.forEachOrThrow]. unfold scanClass at 1.
  change (omap (component path) (cls :: classes))
    with (match component path cls with
          | Some info => info :: omap (component path) classes
          | None => omap (component path) classes
          end).
  destruct (component path cls) as [info|]; [|apply IH].
  cbn [Js.forEachOrThrow]. destruct (addComponent idx info); [apply IH|reflexivity].
Qed.

Lemma buildIndex_components (sourceFiles : list SourceFile) :
  build sourceFiles = Js.forEachOrThrow addComponent (found sourceFiles) emptyIndex.
Proof.
  unfold buildIndex, components. generalize emptyIndex as idx.
  induction sourceFiles as [|sf sourceFiles IH]; intros idx; [reflexivity|].
  cbn [Js.forEachOrThrow flat_map]. rewrite forEachOrThrow_app, scanFile_components.
  destruct (Js.forEachOrThrow addComponent _ idx); [apply IH|reflexivity].
Qed.

(** The scan is left by a [TypeError] exactly when a component is named
    like a member of [Object.prototype]. *)
Lemma buildIndex_throws (sourceFiles : list SourceFile) :
  build sourceFiles = None
  <-> existsb (fun info => Js.inherited (className info)) (found sourceFiles) = true.
Proof.
  rewrite buildIndex_components. apply forEach_addComponent_throws.
  intros c [paths Hc]. cbn in Hc. now rewrite lookup_empty in Hc.
Qed.

(** Every component found has a non-empty identifier. *)
Lemma components_named (sourceFiles : list SourceFile) (info : CmpInfo) :
  In info (found sourceFiles) -> className info <> "".
Proof.
  unfold components. rewrite in_flat_map. intros (sf & _ & Hin).
  apply list_elem_of_In, list_elem_of_omap in Hin as (cls & _ & Hc).
  unfold componentOf in Hc.
  destruct (List.find _ _) as [comp|]; [|discriminate].
  destruct (firstArgument comp) as [[t|]|]; try discriminate.
  destruct (getName cls) as [name|]; [|discriminate].
  destruct (Js.truthy name) eqn:T; [|discriminate].
  injection Hc as <-. cbn. intros ->. discriminate.
Qed.

Lemma buildIndex_detail (sourceFiles : list SourceFile) (idx : Index) (p : string) :
  build sourceFiles = Some idx ->
  detail idx !! p = lastWithPath p (found sourceFiles).
Proof.
  rewrite buildIndex_components. intros H. rewrite (detail_fold _ _ _ p H).
  now destruct (lastWithPath p _).
Qed.

Lemma buildIndex_byClassName (sourceFiles : list SourceFile) (idx : Index) (c : string) :
  build sourceFiles = Some idx ->
  byClassName idx !! c = entryOf (firstSeen [] (pathsOf c (found sourceFiles))).
Proof.
  rewrite buildIndex_components. intros H. rewrite (byClassName_fold _ _ _ c H).
  destruct (pathsOf c (found sourceFiles)) as [|p ps] eqn:E; [reflexivity|].
  rewrite fold_dedupAppend. reflexivity.
Qed.

Lemma pathsOf_In (c p : string) (all : list CmpInfo) :
  In p (pathsOf c all) <->
  exists info, In info all /\ className info = c /\ filePath info = p.
Proof.
  unfold pathsOf. rewrite in_map_iff. split.
  - intros (info & <- & [Hin Hcl%String.eqb_eq]%filter_In). eauto.
  - intros (info & Hin & Hc & Hp). exists info. split; [exact Hp|].
    apply filter_In. split; [exact Hin|now apply String.eqb_eq].
Qed.

Lemma lastWithPath_is_Some (p : string) (all : list CmpInfo) (info : CmpInfo) :
  In info all -> filePath info = p -> is_Some (lastWithPath p all).
Proof.
  intros Hin Hp. unfold lastWithPath. destruct (List.find _ _) eqn:F; [eauto|].
  apply in_rev in Hin. apply (find_none _ _ F info) in Hin.
  apply String.eqb_neq in Hin. contradiction.
Qed.

Lemma entryOf_Some (l paths : list string) : entryOf l = Some paths -> l = paths /\ l <> [].
Proof. destruct l; [discriminate|]. now intros [= <-]. Qed.

(** X4. Every index the scanner builds, that is whenever its loops are
    not left by an exception, keeps the invariants the resolver relies
    on: every file path listed under an identifier has a record, and no
    identifier is empty. *)
Theorem buildIndex_index_invariant (sourceFiles : list SourceFile) (idx : Index) :
  build sourceFiles = Some idx ->
  index_invariant {| detailByFilePath := detail idx;
                     filePathsByClassName := byClassName idx |}.
Proof.
  intros Hbuilt. split; cbn [detailByFilePath filePathsByClassName].
  - intros c paths p. rewrite (buildIndex_byClassName _ _ c Hbuilt).
    intros [<- _]%entryOf_Some.
    rewrite firstSeen_In. intros [(info & Hin & _ & Hp)%pathsOf_In _].
    rewrite (buildIndex_detail _ _ p Hbuilt). eapply lastWithPath_is_Some; eauto.
  - unfold candidatesOf. cbn [filePathsByClassName].
    rewrite (buildIndex_byClassName _ _ "" Hbuilt).
    destruct (firstSeen [] _) as [|p ps] eqn:E; [reflexivity|]. exfalso.
    assert (Hp : In p (firstSeen [] (pathsOf "" (found sourceFiles))))
      by (rewrite E; now left).
    apply firstSeen_In in Hp as [(info & Hin & Hc & _)%pathsOf_In _].
    now apply (components_named sourceFiles info).
Qed.

End BuildFacts.

Lemma buildIndex_index_invariant_witness :
  buildIndex id (fun _ t => t) [Samples.fooFile]
  = Some {| detail := {[ "/app/foo.ts" := fooRecord ]};
            byClassName := {[ "Foo" := ["/app/foo.ts"] ]} |}
  /\ index_invariant fooIndex.
Proof.
  assert (H : buildIndex id (fun _ t => t) [Samples.fooFile]
              = Some {| detail := {[ "/app/foo.ts" := fooRecord ]};
                        byClassName := {[ "Foo" := ["/app/foo.ts"] ]} |})
    by (vm_compute; reflexivity).
  split; [exact H|].
  exact (buildIndex_index_invariant id (fun _ t => t) [Samples.fooFile] _ H).
Defined.

(** C5, on the code. A file that declares the components [First] and
    [Second]: both are found and the file is listed under both
    identifiers, but [detailByFilePath] has one entry for the file, which
    the second component overwrites. No key leads to the record of
    [First], and the resolver, asked for [First], returns the record of
    [Second]. *)
Theorem buildIndex_overwrites_first_component :
  components id (fun _ t => t) [pairFile] = [firstRecord; secondRecord]
  /\ exists idx,
       buildIndex id (fun _ t => t) [pairFile] = Some idx
       /\ detail idx = {[ "/app/pair.ts" := secondRecord ]}
       /\ byClassName idx !! "First" = Some ["/app/pair.ts"]
       /\ byClassName idx !! "Second" = Some ["/app/pair.ts"]
       /\ (forall key, detail idx !! key <> Some firstRecord)
       /\ getComponentInfoByClassName
            (Some {| detailByFilePath := detail idx; filePathsByClassName := byClassName idx |})
            "/" "First"
          = Found secondRecord.
Proof.
  split; [reflexivity|].
  exists {| detail := {[ "/app/pair.ts" := secondRecord ]};
            byClassName := <["Second" := ["/app/pair.ts"]]> {[ "First" := ["/app/pair.ts"] ]} |}.
  split_and!; try (vm_compute; reflexivity).
  intros key. cbn [detail]. intros [_ [=]]%lookup_singleton_Some.
Qed.

(** *** Change detection *)

Lemma getFileStats_fold (statSync : string -> option Z) (filePaths : list string)
    (stats : ScanCache) (p : string) :
  fold_left (fun stats filePath =>
               match statSync filePath with
               | Some mtimeMs => <[filePath := mtimeMs]> stats
               | None => stats
               end) filePaths stats !! p
  = match (if Js.arrayIncludes filePaths p then statSync p else None) with
    | Some t => Some t
    | None => stats !! p
    end.
Proof.
  revert stats. induction filePaths as [|x l IH]; intros stats; [reflexivity|].
  cbn [fold_left]. rewrite IH. unfold Js.arrayIncludes. cbn [existsb].
  fold (Js.arrayIncludes l p).
  assert (Hstep : statSync p = None ->
                  match statSync x with
                  | Some mtimeMs => <[x := mtimeMs]> stats
                  | None => stats
                  end !! p = stats !! p).
  { intros Hp. destruct (String.eqb_spec p x) as [->|Hne].
    - now rewrite Hp.
    - destruct (statSync x); [now apply lookup_insert_ne|reflexivity]. }
  destruct (Js.arrayIncludes l p) eqn:E.
  - rewrite orb_true_r. destruct (statSync p); [reflexivity|now apply Hstep].
  - rewrite orb_false_r. destruct (String.eqb_spec p x) as [->|Hne].
    + destruct (statSync x); [apply lookup_insert_eq|reflexivity].
    + destruct (statSync x); [now apply lookup_insert_ne|reflexivity].
Qed.

(** The current statistics hold the timestamp of every candidate whose
    [statSync] succeeds, and nothing else. *)
Lemma getFileStats_lookup (statSync : string -> option Z) (filePaths : list string)
    (p : string) :
  getFileStats statSync filePaths !! p
  = if Js.arrayIncludes filePaths p then statSync p else None.
Proof.
  unfold getFileStats. rewrite getFileStats_fold.
  destruct (if Js.arrayIncludes filePaths p then statSync p else None); [reflexivity|].
  apply lookup_empty.
Qed.

Lemma truthyAt_true (cache : ScanCache) (p : string) :
  truthyAt cache p = true <-> exists t, cache !! p = Some t /\ t <> 0%Z.
Proof.
  unfold truthyAt. destruct (cache !! p) as [t|].
  - rewrite negb_true_iff, Z.eqb_neq. split; [eauto|]. now intros (t' & [= <-] & H).
  - split; [discriminate|]. now intros (t & [=] & _).
Qed.

Lemma differAt_false (a b : ScanCache) (p : string) :
  differAt a b p = false <-> a !! p = b !! p.
Proof.
  unfold differAt. destruct (a !! p) as [x|], (b !! p) as [y|]; try easy.
  rewrite negb_false_iff, Z.eqb_eq. split; congruence.
Qed.

Lemma existsb_false {A} (f : A -> bool) (l : list A) :
  existsb f l = false <-> forall x, In x l -> f x = false.
Proof.
  rewrite <- not_true_iff_false, existsb_exists. split.
  - intros H x Hx. destruct (f x) eqn:E; [|reflexivity]. exfalso. eauto.
  - intros H (x & Hx & Hf). rewrite (H x Hx) in Hf. discriminate.
Qed.

Lemma cachedPaths_In (cache : ScanCache) (p : string) :
  In p (map_to_list cache).*1 <-> is_Some (cache !! p).
Proof.
  rewrite <- list_elem_of_In, list_elem_of_fmap. split.
  - intros ([k t] & -> & H%elem_of_map_to_list). cbn. eauto.
  - intros [t H]. exists (p, t). split; [reflexivity|now apply elem_of_map_to_list].
Qed.

(** What the guard of [process.exit(0)] tests, one conjunct per loop. *)
Lemma upToDate_true (disk : Disk) (filePaths : list string) (currentStats : ScanCache) :
  upToDate disk filePaths currentStats = true
  <-> (forall p, In p filePaths ->
                 truthyAt (loadCache disk) p = true
                 /\ loadCache disk !! p = currentStats !! p)
      /\ length filePaths = length (map_to_list (loadCache disk)).*1
      /\ (forall p, is_Some (loadCache disk !! p) -> truthyAt currentStats p = true)
      /\ is_Some (indexFile disk).
Proof.
  unfold upToDate, hasChanges, hasNewOrDeletedFiles.
  rewrite !andb_true_iff, !negb_true_iff, !orb_false_iff, !negb_false_iff.
  rewrite !existsb_false, Nat.eqb_eq, bool_decide_eq_true.
  split.
  - intros [[H1 [[H2 H3] H4]] H5]. split_and!; [|done| |done].
    + intros p Hp. specialize (H1 p Hp). apply orb_false_iff in H1 as [Ht Hd].
      rewrite negb_false_iff in Ht. now apply differAt_false in Hd.
    + intros p Hp%cachedPaths_In. specialize (H4 p Hp). now rewrite negb_false_iff in H4.
  - intros (H1 & H2 & H3 & H4). split_and!; [| | | |done]; try done.
    + intros p Hp. destruct (H1 p Hp) as [Ht Hd]. rewrite Ht. cbn.
      now apply differAt_false.
    + intros p Hp. destruct (H1 p Hp) as [Ht _]. now rewrite Ht.
    + intros p Hp%cachedPaths_In. now rewrite H3.
Qed.

(** X2. Whenever the scan short-circuits, the state is clean in the sense of
    the specification. *)
Theorem upToDate_sound (statSync : string -> option Z) (disk : Disk) (filePaths : list string) :
  upToDate disk filePaths (getFileStats statSync filePaths) = true ->
  spec_clean disk filePaths (getFileStats statSync filePaths).
Proof.
  intros (H1 & _ & H3 & H4)%upToDate_true. split_and!; [| |done].
  - intros p. split.
    + intros Hp. destruct (H1 p Hp) as [(t & Ht & _)%truthyAt_true _]. eauto.
    + intros Hp. apply H3, truthyAt_true in Hp as (t & Ht & _).
      rewrite getFileStats_lookup in Ht.
      destruct (Js.arrayIncludes filePaths p) eqn:E; [|discriminate].
      now apply arrayIncludes_In.
  - intros p Hp. destruct (H1 p Hp) as [(t & Ht & _)%truthyAt_true Heq].
    exists t. split; [now rewrite <- Heq|exact Ht].
Qed.

(** X3. On a clean state whose candidates are distinct and whose cached
    timestamps are not 0, the scan short-circuits. *)
Theorem upToDate_complete (disk : Disk) (filePaths : list string) (currentStats : ScanCache) :
  List.NoDup filePaths ->
  (forall p, loadCache disk !! p <> Some 0%Z) ->
  spec_clean disk filePaths currentStats ->
  upToDate disk filePaths currentStats = true.
Proof.
  intros Hnd Hnz (Hmem & Hts & Hidx). apply upToDate_true. split_and!; [| | |done].
  - intros p Hp. destruct (Hts p Hp) as (t & Hc & Hprev). split; [|congruence].
    apply truthyAt_true. exists t. split; [exact Hprev|]. intros ->. now apply (Hnz p).
  - apply Permutation_length, NoDup_Permutation.
    + now apply NoDup_ListNoDup.
    + apply NoDup_fst_map_to_list.
    + intros p. rewrite !list_elem_of_In, cachedPaths_In. apply Hmem.
  - intros p Hp%Hmem. destruct (Hts p Hp) as (t & Hc & Hprev).
    apply truthyAt_true. exists t. split; [exact Hc|]. intros ->. now apply (Hnz p).
Qed.

Lemma upToDate_sound_witness :
  upToDate cleanDisk ["/app/a.ts"] (getFileStats cleanStat ["/app/a.ts"]) = true
  /\ spec_clean cleanDisk ["/app/a.ts"] (getFileStats cleanStat ["/app/a.ts"]).
Proof.
  split; [reflexivity|].
  apply (upToDate_sound cleanStat cleanDisk ["/app/a.ts"]). reflexivity.
Defined.

Lemma cleanDisk_clean :
  spec_clean cleanDisk ["/app/a.ts"] (getFileStats cleanStat ["/app/a.ts"]).
Proof.
  split_and!.
  - intros p. cbn [loadCache cleanDisk cacheFile In]. split.
    + intros [<-|[]]. rewrite lookup_singleton_eq. eauto.
    + intros [t [-> _]%lookup_singleton_Some]. now left.
  - intros p [<-|[]]. exists 1700000000000%Z.
    split; [reflexivity|apply lookup_singleton_eq].
  - cbn. eauto.
Qed.

Lemma upToDate_complete_witness :
  List.NoDup ["/app/a.ts"]
  /\ upToDate cleanDisk ["/app/a.ts"] (getFileStats cleanStat ["/app/a.ts"]) = true.
Proof.
  assert (Hnd : List.NoDup ["/app/a.ts"]) by (constructor; [intros []|constructor]).
  split; [exact Hnd|].
  apply (upToDate_complete cleanDisk ["/app/a.ts"] (getFileStats cleanStat ["/app/a.ts"]) Hnd).
  - intros p. cbn [loadCache cleanDisk cacheFile].
    intros [_ [=]]%lookup_singleton_Some.
  - exact cleanDisk_clean.
Defined.

Section MainFacts.

Variable resolveFromRoot : string -> string.
Variable resolveTemplate : string -> string -> string.

Local Abbreviation run := (main resolveFromRoot resolveTemplate).
Local Abbreviation built := (builtIndex resolveFromRoot resolveTemplate).

(** The index a rebuild writes is the index of the components found. *)
Lemma builtIndex_spec_indexOf (env : Environment) (sourceFiles : list SourceFile)
    (out : MapFile) :
  built env sourceFiles = Some out ->
  spec_indexOf (components resolveFromRoot resolveTemplate sourceFiles) out
  /\ generatedAt out = now env.
Proof.
  unfold builtIndex.
  destruct (buildIndex resolveFromRoot resolveTemplate sourceFiles) as [idx|] eqn:B;
    [|discriminate].
  intros [= <-]. cbn. split; [|reflexivity]. split.
  - intros p. apply (buildIndex_detail _ _ _ _ p B).
  - intros c. apply (buildIndex_byClassName _ _ _ _ c B).
Qed.

(** C8. In a build cycle the cache is written only after the index file
    was written: when the write of the index throws, the cache file keeps
    its content, and a cache file that changed means that the index of
    the current candidate set was written in that cycle. When the cycle
    succeeds, the index file holds the index of the current candidate set
    and the cache file the current timestamps; it succeeds when a rebuild
    is due, the scan is not left by an exception and both writes return.
    A scan that short-circuits writes nothing. A cache that is clean for
    the candidate set goes with the index of that set after the cycle, if
    it did before and a failed write of the index left the index file as
    it was. *)
Theorem main_commits_cache_after_index
    (env : Environment) (sourceFiles : list SourceFile) (disk : Disk) :
  let filePaths := List.map getFilePath sourceFiles in
  let currentStats := getFileStats (statSync env) filePaths in
  let all := components resolveFromRoot resolveTemplate sourceFiles in
  let outcome := fst (run env sourceFiles disk) in
  let disk' := snd (run env sourceFiles disk) in
  let current := fun d : Disk => exists index, indexFile d = Some index /\ spec_indexOf all index in
  (indexWriteOk env = false -> cacheFile disk' = cacheFile disk)
  /\ (cacheFile disk' <> cacheFile disk -> indexWriteOk env = true /\ current disk')
  /\ (outcome = Saved ->
      current disk'
      /\ (exists index, indexFile disk' = Some index /\ generatedAt index = now env)
      /\ cacheFile disk' = Some currentStats)
  /\ (upToDate disk filePaths currentStats = false ->
      is_Some (buildIndex resolveFromRoot resolveTemplate sourceFiles) ->
      indexWriteOk env = true -> cacheWriteOk env = true -> outcome = Saved)
  /\ (upToDate disk filePaths currentStats = true -> outcome = Skipped /\ disk' = disk)
  /\ ((indexWriteOk env = false -> indexAfterFailure env = indexFile disk) ->
      (upToDate disk filePaths currentStats = true -> current disk) ->
      upToDate disk' filePaths currentStats = true -> current disk').
Proof.
  cbn zeta. unfold main.
  destruct (upToDate disk _ _) eqn:U; cbn [fst snd].
  { split_and!; try done. intros _ H _. now apply H. }
  destruct (built env sourceFiles) as [out|] eqn:B; cbn [fst snd].
  2:{ split_and!; try done.
      - unfold builtIndex in B. intros _ [idx Hidx]. now rewrite Hidx in B.
      - intros _ _ U'. congruence. }
  destruct (builtIndex_spec_indexOf env sourceFiles out B) as [Hout Hnow].
  destruct (indexWriteOk env), (cacheWriteOk env); cbn [fst snd indexFile cacheFile];
    split_and!; try done; eauto 6.
  - intros _. split_and!; eauto.
  - intros Hsame _ U'. destruct disk as [index cache].
    cbn [indexFile cacheFile] in *. rewrite (Hsame eq_refl) in U'. congruence.
  - intros Hsame _ U'. destruct disk as [index cache].
    cbn [indexFile cacheFile] in *. rewrite (Hsame eq_refl) in U'. congruence.
Qed.

(** C3, on the code. One candidate file whose modification time is 0,
    cached with the same time, and a persisted index: the state is clean
    in the sense of the specification, yet the guard reads the cached 0
    as an absent entry and [main] rebuilds and rewrites index and cache. *)
Theorem main_rebuilds_on_zero_timestamp :
  let env := {| statSync := fun _ => Some 0%Z; now := "2024-01-02T00:00:00.000Z";
                indexWriteOk := true; indexAfterFailure := None;
                cacheWriteOk := true; cacheAfterFailure := None |} in
  let old := {| generatedAt := "2024-01-01T00:00:00.000Z";
                mapDetailByFilePath := ∅; mapFilePathsByClassName := ∅ |} in
  let disk := {| indexFile := Some old; cacheFile := Some {[ "/app/a.ts" := 0%Z ]} |} in
  let sourceFiles := [ {| getFilePath := "/app/a.ts"; getClasses := [] |} ] in
  let currentStats := getFileStats (statSync env) ["/app/a.ts"] in
  spec_clean disk ["/app/a.ts"] currentStats
  /\ truthyAt (loadCache disk) "/app/a.ts" = false
  /\ upToDate disk ["/app/a.ts"] currentStats = false
  /\ fst (run env sourceFiles disk) = Saved
  /\ indexFile (snd (run env sourceFiles disk))
     = Some {| generatedAt := "2024-01-02T00:00:00.000Z";
               mapDetailByFilePath := ∅; mapFilePathsByClassName := ∅ |}.
Proof.
  cbn zeta. split_and!; try reflexivity.
  split_and!.
  - intros p. cbn [loadCache cacheFile In]. split.
    + intros [<-|[]]. rewrite lookup_singleton_eq. eauto.
    + intros [t [-> _]%lookup_singleton_Some]. now left.
  - intros p [<-|[]]. exists 0%Z. split; [reflexivity|apply lookup_singleton_eq].
  - cbn. eauto.
Qed.

End MainFacts.

Lemma main_commits_cache_after_index_witness :
  fst (main id (fun _ t => t) Samples.healthy [Samples.fooFile] Samples.cachedDisk) = Saved
  /\ exists index,
       indexFile (snd (main id (fun _ t => t) Samples.healthy [Samples.fooFile]
                         Samples.cachedDisk)) = Some index
       /\ spec_indexOf (components id (fun _ t => t) [Samples.fooFile]) index.
Proof.
  split; [reflexivity|].
  exact (proj1 (proj1 (proj2 (proj2
           (main_commits_cache_after_index id (fun _ t => t) Samples.healthy
              [Samples.fooFile] Samples.cachedDisk))) eq_refl)).
Defined.

(** The claim as stated fails when the write of the index throws and
    leaves a partial file. The index file was missing and the cache was
    clean; the cycle fails and leaves the cache as it was, as claimed; but
    the cache is clean beside an index file that is not the index of the
    candidate set, which holds the record of [Foo], and the next scan
    short-circuits on it. *)
Lemma main_partial_index_counterexample :
  main id (fun _ t => t) Samples.failingWrite [Samples.fooFile] Samples.cachedDisk
  = (Failed, {| indexFile := Some Samples.partialIndex;
                cacheFile := cacheFile Samples.cachedDisk |})
  /\ spec_clean {| indexFile := Some Samples.partialIndex;
                   cacheFile := cacheFile Samples.cachedDisk |}
       ["/app/foo.ts"] (getFileStats (statSync Samples.healthy) ["/app/foo.ts"])
  /\ mapDetailByFilePath Samples.partialIndex !! "/app/foo.ts" = None
  /\ lastWithPath "/app/foo.ts" (components id (fun _ t => t) [Samples.fooFile])
     = Some fooRecord
  /\ main id (fun _ t => t) Samples.healthy [Samples.fooFile]
       {| indexFile := Some Samples.partialIndex; cacheFile := cacheFile Samples.cachedDisk |}
     = (Skipped, {| indexFile := Some Samples.partialIndex;
                    cacheFile := cacheFile Samples.cachedDisk |}).
Proof.
  split_and!; try reflexivity.
  split_and!.
  - intros p. cbn [loadCache cacheFile Samples.cachedDisk In]. split.
    + intros [<-|[]]. rewrite lookup_singleton_eq. eauto.
    + intros [t [-> _]%lookup_singleton_Some]. now left.
  - intros p [<-|[]]. exists 1700000000000%Z. split; [reflexivity|apply lookup_singleton_eq].
  - cbn. eauto.
Qed.

End CmpScanFacts.

(** ** Properties of the path helpers of the scanner *)

Module ScanPathsFacts.
Import ScanPaths.

Lemma startsWith_unit (s : string) (c : ascii) :
  Js.startsWith s (String c "")
  = match s with
    | String b _ => Ascii.eqb c b
    | EmptyString => false
    end.
Proof. destruct s as [|b s]; cbn; [reflexivity|]. destruct s; apply andb_true_r. Qed.

(** [s.includes(c)] for a one-unit [c] asks whether [c] is a unit of [s]. *)
Lemma includes_unit (s : string) (c : ascii) :
  Js.includes s (String c "") = existsb (Ascii.eqb c) (list_ascii_of_string s).
Proof.
  induction s as [|b s IH]; [reflexivity|].
  cbn [Js.includes list_ascii_of_string existsb]. rewrite IH, startsWith_unit. reflexivity.
Qed.

Lemma startsWith_app (a b c : string) :
  Js.startsWith (a +:+ b) (a +:+ c) = Js.startsWith b c.
Proof.
  induction a as [|x a IH]; [reflexivity|].
  change (Js.startsWith (String x (a +:+ b)) (String x (a +:+ c)) = Js.startsWith b c).
  cbn [Js.startsWith]. now rewrite Ascii.eqb_refl, IH.
Qed.

Lemma startsWith_nil (s : string) : Js.startsWith s "" = true.
Proof. now destruct s. Qed.

Lemma append_nil_r (s : string) : s +:+ "" = s.
Proof.
  induction s as [|c s IH]; [reflexivity|].
  change (String c (s +:+ "") = String c s). now rewrite IH.
Qed.

Lemma startsWith_prefix (a b : string) : Js.startsWith (a +:+ b) a = true.
Proof.
  rewrite <- (append_nil_r a) at 2. rewrite startsWith_app. apply startsWith_nil.
Qed.

Lemma removeStars_pairs_step (s : string) :
  removeStars (removeStarPairs s) = removeStars s
  /\ forall c, removeStars (removeStarPairs (String c s)) = removeStars (String c s).
Proof.
  induction s as [|d rest [IH1 IH2]].
  - split; [reflexivity|]. intros c. reflexivity.
  - split; [apply IH2|]. intros c.
    change (removeStarPairs (String c (String d rest)))
      with (if Ascii.eqb c "*" && Ascii.eqb d "*" then removeStarPairs rest
            else String c (removeStarPairs (String d rest))).
    destruct (Ascii.eqb c "*") eqn:Ec, (Ascii.eqb d "*") eqn:Ed; cbn [andb removeStars];
      rewrite ?Ec, ?Ed, ?IH1, ?IH2; cbn [removeStars]; rewrite ?Ed; reflexivity.
Qed.

Lemma removeStars_no_star (s : string) : Js.includes (removeStars s) "*" = false.
Proof.
  rewrite includes_unit. induction s as [|c s IH]; [reflexivity|].
  cbn [removeStars]. destruct (Ascii.eqb c "*") eqn:E; [exact IH|].
  cbn [list_ascii_of_string existsb]. rewrite IH, Ascii.eqb_sym, E. reflexivity.
Qed.

Lemma toPosix_no_backslash (s : string) : Js.includes (toPosix s) "\" = false.
Proof.
  rewrite includes_unit. induction s as [|c s IH]; [reflexivity|].
  cbn [toPosix list_ascii_of_string existsb]. rewrite IH, orb_false_r.
  destruct (Ascii.eqb c "\") eqn:E; [reflexivity|]. now rewrite Ascii.eqb_sym.
Qed.

Lemma removeStars_no_backslash (s : string) :
  Js.includes s "\" = false -> Js.includes (removeStars s) "\" = false.
Proof.
  rewrite !includes_unit. induction s as [|c s IH]; [reflexivity|].
  cbn [removeStars list_ascii_of_string existsb]. rewrite orb_false_iff. intros [Hc Hs].
  destruct (Ascii.eqb c "*"); [now apply IH|].
  cbn [list_ascii_of_string existsb]. now rewrite Hc, IH.
Qed.

(** X6. The needle of an exclude glob is the glob in POSIX form with every
    star removed: the two [replace] passes leave no star, and no
    backslash. *)
Theorem globToNeedle_removes_every_star (glob : string) :
  globToNeedle glob = removeStars (toPosix glob)
  /\ Js.includes (globToNeedle glob) "*" = false
  /\ Js.includes (globToNeedle glob) "\" = false.
Proof.
  assert (H : globToNeedle glob = removeStars (toPosix glob))
    by apply (proj1 (removeStars_pairs_step (toPosix glob))).
  rewrite H. split_and!; [reflexivity|apply removeStars_no_star|].
  apply removeStars_no_backslash, toPosix_no_backslash.
Qed.

(** X7. Exclusion is a substring test on needles: a file is left out
    exactly when its path, in POSIX form, contains the needle of one of
    the globs, the globs made of stars only being ignored. With the
    default exclude globs the needles are [/node_modules/], [/dist/],
    [/.angular/], [/coverage/], [/.spec.ts], [/.test.ts], [/.e2e.ts]: the
    last three ask for a file name that begins with the dot. *)
Theorem isExcluded_by_needles (filePath : string) (excludeGlobs : list string) :
  isExcluded filePath excludeGlobs
  = existsb (Js.includes (toPosix filePath))
      (List.filter Js.truthy (List.map (fun glob => removeStars (toPosix glob)) excludeGlobs))
  /\ isExcluded filePath DEFAULT_EXCLUDE_GLOBS
     = existsb (Js.includes (toPosix filePath))
         [ "/node_modules/"; "/dist/"; "/.angular/"; "/coverage/";
           "/.spec.ts"; "/.test.ts"; "/.e2e.ts" ].
Proof.
  assert (Hgeneral : forall globs,
    isExcluded filePath globs
    = existsb (Js.includes (toPosix filePath))
        (List.filter Js.truthy (List.map (fun glob => removeStars (toPosix glob)) globs))).
  { unfold isExcluded. induction globs as [|glob globs IH]; [reflexivity|].
    cbn [existsb List.map List.filter]. rewrite IH. unfold globToNeedle.
    rewrite (proj1 (removeStars_pairs_step (toPosix glob))).
    now destruct (Js.truthy (removeStars (toPosix glob))). }
  split; [apply Hgeneral|]. rewrite Hgeneral. reflexivity.
Qed.

Lemma toPosix_idempotent (s : string) : toPosix (toPosix s) = toPosix s.
Proof.
  induction s as [|c s IH]; [reflexivity|]. cbn [toPosix]. rewrite IH.
  destruct (Ascii.eqb c "\") eqn:E; [reflexivity|]. now rewrite E.
Qed.

Lemma toPosix_app (a b : string) : toPosix (a +:+ b) = toPosix a +:+ toPosix b.
Proof.
  induction a as [|c a IH]; [reflexivity|].
  change (toPosix (String c (a +:+ b)) = String (if Ascii.eqb c "\" then "/"%char else c)
                                              (toPosix a +:+ toPosix b)).
  cbn [toPosix]. now rewrite IH.
Qed.

Lemma toPosix_stripLeadingSlashes (s : string) :
  toPosix (stripLeadingSlashes (toPosix s)) = stripLeadingSlashes (toPosix s).
Proof.
  induction s as [|c s IH]; [reflexivity|]. cbn [toPosix stripLeadingSlashes].
  destruct (Ascii.eqb (if Ascii.eqb c "\" then "/"%char else c) "/"); [exact IH|].
  change (toPosix (toPosix (String c s)) = toPosix (String c s)). apply toPosix_idempotent.
Qed.

Lemma toPosix_stripTrailingSlashes (s : string) :
  toPosix (stripTrailingSlashes (toPosix s)) = stripTrailingSlashes (toPosix s).
Proof.
  induction s as [|c s IH]; [reflexivity|]. cbn [toPosix stripTrailingSlashes].
  set (c' := if Ascii.eqb c "\" then "/"%char else c).
  assert (Hc' : (if Ascii.eqb c' "\" then "/"%char else c') = c').
  { subst c'. destruct (Ascii.eqb c "\") eqn:E; [reflexivity|]. now rewrite E. }
  destruct (stripTrailingSlashes (toPosix s)) as [|d t].
  - destruct (Ascii.eqb c' "/"); [reflexivity|]. cbn [toPosix]. now rewrite Hc'.
  - cbn [toPosix] in *. now rewrite Hc', IH.
Qed.

Lemma stripLeadingSlashes_id (s : string) :
  Js.startsWith s "/" = false -> stripLeadingSlashes s = s.
Proof.
  rewrite startsWith_unit. destruct s as [|c s]; [reflexivity|].
  cbn [stripLeadingSlashes]. rewrite Ascii.eqb_sym. now intros ->.
Qed.

Section PlatformFacts.

Variable isAbsolute : string -> bool.

(** On every platform a path that begins with a slash is absolute. *)
Hypothesis slash_isAbsolute : forall s, Js.startsWith s "/" = true -> isAbsolute s = true.

(** X8. A glob that is relative and a workspace root other than the
    current directory give a glob in POSIX form under the root, and
    prefixing is idempotent: a glob already under the root is not prefixed
    again. *)
Theorem prefixWorkspaceRoot_idempotent (glob workspaceRoot : string) :
  let prefixed := prefixWorkspaceRoot isAbsolute glob workspaceRoot in
  prefixWorkspaceRoot isAbsolute prefixed workspaceRoot = prefixed
  /\ (Js.truthy workspaceRoot = true -> workspaceRoot <> "." -> workspaceRoot <> "./" ->
      isAbsolute glob = false ->
      toPosix prefixed = prefixed
      /\ Js.startsWith prefixed (stripTrailingSlashes (toPosix workspaceRoot) +:+ "/") = true).
Proof.
  cbn zeta. unfold prefixWorkspaceRoot.
  destruct (negb (Js.truthy workspaceRoot) || String.eqb workspaceRoot "."
            || String.eqb workspaceRoot "./") eqn:Etrivial.
  { split; [reflexivity|]. intros Ht H1 H2.
    rewrite Ht in Etrivial. cbn in Etrivial.
    apply orb_true_iff in Etrivial as [E%String.eqb_eq|E%String.eqb_eq]; contradiction. }
  destruct (isAbsolute glob) eqn:Eabs.
  { rewrite ?Eabs. split; [reflexivity|]. intros; discriminate. }
  set (rp := stripTrailingSlashes (toPosix workspaceRoot)).
  set (gp := stripLeadingSlashes (toPosix glob)).
  set (R := if Js.startsWith gp (rp +:+ "/") then gp else rp +:+ "/" +:+ gp).
  assert (Hposix : toPosix R = R).
  { subst R. destruct (Js.startsWith gp (rp +:+ "/")).
    - apply toPosix_stripLeadingSlashes.
    - rewrite !toPosix_app. subst rp gp.
      now rewrite toPosix_stripTrailingSlashes, toPosix_stripLeadingSlashes. }
  assert (Hunder : Js.startsWith R (rp +:+ "/") = true).
  { subst R. destruct (Js.startsWith gp (rp +:+ "/")) eqn:E; [exact E|].
    rewrite startsWith_app. apply (startsWith_prefix "/" gp). }
  split; [|now intros].
  destruct (isAbsolute R) eqn:EabsR; [reflexivity|].
  assert (Hrel : Js.startsWith R "/" = false).
  { destruct (Js.startsWith R "/") eqn:E; [|reflexivity].
    apply slash_isAbsolute in E. congruence. }
  rewrite Hposix, (stripLeadingSlashes_id R Hrel). fold rp. now rewrite Hunder.
Qed.

End PlatformFacts.

Lemma prefixWorkspaceRoot_idempotent_witness :
  prefixWorkspaceRoot (fun s => Js.startsWith s "/") "src/**/*.ts" "apps\web/"
  = "apps/web/src/**/*.ts"
  /\ prefixWorkspaceRoot (fun s => Js.startsWith s "/") "apps/web/src/**/*.ts" "apps\web/"
     = "apps/web/src/**/*.ts".
Proof.
  split; [reflexivity|].
  exact (proj1 (prefixWorkspaceRoot_idempotent (fun s => Js.startsWith s "/")
                  (fun s H => H) "src/**/*.ts" "apps\web/")).
Defined.

End ScanPathsFacts.

(** ** Properties of the editor detection and of the command templates *)

Module EditorsFacts.
Import Editors.

(** The CLI check is memoised per editor name: after a first call,
    every later call for that name gives the first answer and leaves the
    cache alone, whatever [which] would say by then and whatever command is
    asked for. *)
Lemma checkEditorCLI_memoised (which which' : string -> bool) (cache : gmap string bool)
    (editorName cliCommand cliCommand' : string) :
  checkEditorCLI which' (snd (checkEditorCLI which cache editorName cliCommand))
                 editorName cliCommand'
  = checkEditorCLI which cache editorName cliCommand.
Proof.
  unfold checkEditorCLI. destruct (cache !! editorName) as [known|] eqn:E; cbn [snd].
  - now rewrite E.
  - now rewrite lookup_insert_eq.
Qed.

(** X9. Detection at load time, on the empty cache: the editors found
    are those of [cursor], [code], [webstorm] whose CLI is on the path, in
    that order, and the answers are frozen: the check a command template
    makes later gives the answer of load time. *)
Theorem detectAvailableEditors_freezes (which which' : string -> bool) :
  let '(available, cache) := detectAvailableEditors which ∅ in
  available = List.filter which ["cursor"; "code"; "webstorm"]
  /\ Forall (fun editor => checkEditorCLI which' cache editor editor = (which editor, cache))
            ["cursor"; "code"; "webstorm"].
Proof.
  unfold detectAvailableEditors, detectStep, checkEditorCLI. cbn [fold_left List.filter].
  destruct (which "cursor") eqn:E1, (which "code") eqn:E2, (which "webstorm") eqn:E3;
    (split; [reflexivity|]);
    repeat (apply List.Forall_cons; [rewrite ?E1, ?E2, ?E3; reflexivity|]);
    apply List.Forall_nil.
Qed.

Lemma orElse_truthy (a : option string) (b : string) :
  Js.truthy b = true -> Js.truthy (orElse a b) = true.
Proof.
  intros Hb. destruct a as [s|]; cbn; [|exact Hb]. now destruct (Js.truthy s) eqn:E.
Qed.

(** The two module constants are never empty, whatever the
    environment, the configuration and the detection give: the guard on
    [FALLBACK_EDITOR] in [launchInEditor] never skips the fallback. *)
Lemma editor_constants_truthy (LAUNCH_EDITOR cfgEditor cfgFallbackEditor : option string)
    (AVAILABLE_EDITORS : list string) :
  Js.truthy (DEFAULT_EDITOR LAUNCH_EDITOR cfgEditor AVAILABLE_EDITORS) = true
  /\ Js.truthy (FALLBACK_EDITOR cfgFallbackEditor AVAILABLE_EDITORS) = true.
Proof.
  split; unfold DEFAULT_EDITOR, FALLBACK_EDITOR; repeat apply orElse_truthy; reflexivity.
Qed.

(** X10. With nothing configured, both constants name editors that have
    a command template, and the fallback is the default editor itself
    exactly when the only CLI found is that of [code]. *)
Theorem unconfigured_editors (which check : string -> bool) :
  let available := fst (detectAvailableEditors which ∅) in
  let default := DEFAULT_EDITOR None None available in
  let fallback := FALLBACK_EDITOR None available in
  is_Some (FileOpener.COMMAND_TEMPLATES check default)
  /\ is_Some (FileOpener.COMMAND_TEMPLATES check fallback)
  /\ String.eqb default fallback
     = negb (which "cursor") && which "code" && negb (which "webstorm").
Proof.
  unfold detectAvailableEditors, detectStep, checkEditorCLI. cbn [fold_left].
  destruct (which "cursor") eqn:E1, (which "code") eqn:E2, (which "webstorm") eqn:E3;
    cbn; split_and!; eauto.
Qed.

End EditorsFacts.

Module TemplateFacts.
Import FileOpener.

Lemma split_without_separator (sep : ascii) (s : string) :
  Js.includes s (String sep "") = false -> Js.split sep s = [s].
Proof.
  rewrite ScanPathsFacts.includes_unit. induction s as [|c s IH]; [reflexivity|].
  cbn [list_ascii_of_string existsb Js.split]. rewrite orb_false_iff. intros [Hc Hs].
  rewrite Ascii.eqb_sym, Hc, (IH Hs). reflexivity.
Qed.

Lemma split_at_separator (sep : ascii) (a b : string) :
  Js.includes a (String sep "") = false ->
  Js.split sep (a +:+ String sep b) = a :: Js.split sep b.
Proof.
  rewrite ScanPathsFacts.includes_unit. induction a as [|c a IH].
  - intros _. change (Js.split sep (String sep b) = "" :: Js.split sep b).
    cbn [Js.split]. now rewrite Ascii.eqb_refl.
  - cbn [list_ascii_of_string existsb]. rewrite orb_false_iff. intros [Hc Ha].
    change (Js.split sep (String c (a +:+ String sep b)) = String c a :: Js.split sep b).
    cbn [Js.split]. rewrite Ascii.eqb_sym, Hc, (IH Ha). reflexivity.
Qed.

(** X11. On a target [file:line:col] whose three parts hold no colon,
    with [line] and [col] not empty, an editor's template gives, with the
    CLI, the whole target after [--goto] (for [webstorm]: the file, then
    [--line] and [--column]), and without the CLI an [open -a] on the file
    alone, the position dropped. *)
Theorem COMMAND_TEMPLATES_on_position (checkEditorCLI : string -> bool)
    (file line col editor : string) (mk : string -> string * list string) :
  Js.includes file ":" = false -> Js.includes line ":" = false ->
  Js.includes col ":" = false ->
  Js.truthy line = true -> Js.truthy col = true ->
  COMMAND_TEMPLATES checkEditorCLI editor = Some mk ->
  let target := file +:+ ":" +:+ line +:+ ":" +:+ col in
  if checkEditorCLI editor then
    mk target
    = (editor, if String.eqb editor "webstorm"
               then [file; "--line"; line; "--column"; col]
               else ["--goto"; target])
  else exists appName, mk target = ("open", ["-a"; appName; file]).
Proof.
  intros Hfile Hline Hcol Tline Tcol Hmk target.
  assert (Hsplit : Js.split ":" target = [file; line; col]).
  { change target with (file +:+ String ":" (line +:+ String ":" col)).
    rewrite (split_at_separator ":" file _ Hfile).
    rewrite (split_at_separator ":" line _ Hline).
    now rewrite (split_without_separator ":" col Hcol). }
  unfold COMMAND_TEMPLATES in Hmk.
  destruct (String.eqb_spec editor "cursor") as [->|N1].
  { injection Hmk as <-. unfold macOpen. rewrite Hsplit. cbn [hd].
    destruct (checkEditorCLI "cursor"); eauto. }
  destruct (String.eqb_spec editor "code") as [->|N2].
  { injection Hmk as <-. unfold macOpen. rewrite Hsplit. cbn [hd].
    destruct (checkEditorCLI "code"); eauto. }
  destruct (String.eqb_spec editor "webstorm") as [->|N3]; [|discriminate].
  injection Hmk as <-. unfold macOpen. rewrite Hsplit. cbn [hd].
  destruct (checkEditorCLI "webstorm"); [|eauto].
  cbn. now rewrite Tline, Tcol.
Qed.

Lemma COMMAND_TEMPLATES_on_position_witness :
  exists mk, COMMAND_TEMPLATES (fun _ => true) "webstorm" = Some mk
  /\ mk "/app/src/foo.component.html:12:1"
     = ("webstorm", ["/app/src/foo.component.html"; "--line"; "12"; "--column"; "1"]).
Proof.
  eexists. split; [reflexivity|].
  exact (COMMAND_TEMPLATES_on_position (fun _ => true) "/app/src/foo.component.html" "12" "1"
           "webstorm" _ eq_refl eq_refl eq_refl eq_refl eq_refl eq_refl).
Defined.

End TemplateFacts.

(** ** Properties of the scan watch *)

Module WatchFacts.
Import Watch.

Lemma beforeWildcard_none (glob : string) :
  existsb isWildcard (list_ascii_of_string glob) = false -> beforeWildcard glob = None.
Proof.
  induction glob as [|c glob IH]; [reflexivity|].
  cbn [list_ascii_of_string existsb beforeWildcard]. rewrite orb_false_iff.
  intros [-> H]. now rewrite (IH H).
Qed.

Lemma beforeWildcard_app (dir rest : string) (w : ascii) :
  existsb isWildcard (list_ascii_of_string dir) = false -> isWildcard w = true ->
  beforeWildcard (dir +:+ String w rest) = Some dir.
Proof.
  intros Hdir Hw. induction dir as [|c dir IH].
  - change (beforeWildcard (String w rest) = Some ""). cbn [beforeWildcard]. now rewrite Hw.
  - cbn [list_ascii_of_string existsb] in Hdir. apply orb_false_iff in Hdir as [Hc Hdir].
    change (beforeWildcard (String c (dir +:+ String w rest)) = Some (String c dir)).
    cbn [beforeWildcard]. now rewrite Hc, (IH Hdir).
Qed.

Lemma withoutFinalSlash_app (dir : string) : withoutFinalSlash (dir +:+ "/") = Some dir.
Proof.
  induction dir as [|c dir IH]; [reflexivity|].
  change (withoutFinalSlash (String c (dir +:+ "/")) = Some (String c dir)).
  cbn [withoutFinalSlash]. rewrite IH. now destruct dir.
Qed.

Lemma append_assoc (a b c : string) : (a +:+ b) +:+ c = a +:+ (b +:+ c).
Proof.
  induction a as [|x a IH]; [reflexivity|].
  change (String x ((a +:+ b) +:+ c) = String x (a +:+ (b +:+ c))). now rewrite IH.
Qed.

(** X12. The base directory of a glob: a glob without wildcard is its
    own base, and a glob [dir/w...] whose first wildcard [w] follows a
    slash has the base [dir], whatever [path.dirname] does. *)
Theorem globToBaseDir_directory_prefix (dirname : string -> string) (dir rest : string)
    (w : ascii) :
  existsb isWildcard (list_ascii_of_string dir) = false ->
  globToBaseDir dirname dir = dir
  /\ (isWildcard w = true -> globToBaseDir dirname (dir +:+ "/" +:+ String w rest) = dir).
Proof.
  intros Hdir. unfold globToBaseDir. split.
  - now rewrite (beforeWildcard_none dir Hdir).
  - intros Hw. rewrite <- append_assoc, beforeWildcard_app; [| |exact Hw].
    + now rewrite withoutFinalSlash_app.
    + clear -Hdir. induction dir as [|c dir IH]; [reflexivity|].
      cbn [list_ascii_of_string existsb] in Hdir. apply orb_false_iff in Hdir as [Hc H].
      change (existsb isWildcard (c :: list_ascii_of_string (dir +:+ "/")) = false).
      cbn [existsb]. now rewrite Hc, (IH H).
Qed.

Lemma globToBaseDir_directory_prefix_witness :
  globToBaseDir (fun _ => ".") "src/app" = "src/app"
  /\ globToBaseDir (fun _ => ".") "src/app/**/*.{ts,tsx}" = "src/app".
Proof.
  split.
  - exact (proj1 (globToBaseDir_directory_prefix (fun _ => ".") "src/app" "" "*" eq_refl)).
  - exact (proj2 (globToBaseDir_directory_prefix (fun _ => ".") "src/app" "*/*.{ts,tsx}" "*"
                    eq_refl) eq_refl).
Defined.

Section RootsFacts.

Variable dirname : string -> string.
Variable resolve : string -> string.
Variable isDirectory : string -> bool.

Local Abbreviation baseOf := (fun glob => resolve (globToBaseDir dirname glob)).

Lemma getWatchRoots_firstSeen (includeGlobs : list string) :
  getWatchRoots dirname resolve isDirectory includeGlobs
  = CmpScan.firstSeen [] (List.filter isDirectory (List.map baseOf includeGlobs)).
Proof.
  unfold getWatchRoots.
  rewrite <- (app_nil_l (CmpScan.firstSeen _ _)), <- CmpScanFacts.fold_dedupAppend.
  generalize (@nil string) as roots.
  induction includeGlobs as [|glob globs IH]; intros roots; [reflexivity|].
  cbn [fold_left List.map List.filter]. rewrite IH.
  now destruct (isDirectory (resolve (globToBaseDir dirname glob))).
Qed.

(** X13. The watch roots are the resolved base directories of the
    include globs that exist as directories, each one once. *)
Theorem getWatchRoots_distinct_directories (includeGlobs : list string) :
  let roots := getWatchRoots dirname resolve isDirectory includeGlobs in
  List.NoDup roots
  /\ forall r, In r roots <->
               isDirectory r = true /\ exists glob, In glob includeGlobs /\ r = baseOf glob.
Proof.
  cbn zeta. rewrite getWatchRoots_firstSeen. split; [apply CmpScanFacts.firstSeen_NoDup|].
  intros r. rewrite CmpScanFacts.firstSeen_In, filter_In, in_map_iff. cbn.
  split.
  - intros [[(glob & <- & Hin) Hdir] _]. eauto.
  - intros [Hdir (glob & Hin & ->)]. eauto.
Qed.

End RootsFacts.

(** The state is consistent after [k] closes: the flag [scanRunning]
    counts the scan processes, a scan is queued only while one runs, the
    only timeout that can be pending is the one [timer] holds, and every
    scan started has closed or is running. *)
Local Abbreviation consistent st k :=
  (processes st = (if scanRunning st then 1 else 0)
   /\ (scanQueued st = true -> scanRunning st = true)
   /\ (pending st = [] \/ exists id reason, pending st = [(id, reason)] /\ timer st = Some id)
   /\ length (started st) = k + processes st).

Lemma clearTimeout_single (id : nat) (reason : string) :
  clearTimeout id [(id, reason)] = [].
Proof. unfold clearTimeout. cbn. now rewrite Nat.eqb_refl. Qed.

Lemma scheduleScan_pending (reason : string) (st : State) :
  (pending st = [] \/ exists id r, pending st = [(id, r)] /\ timer st = Some id) ->
  pending (scheduleScan reason st) = [(nextTimerId st, reason)].
Proof.
  unfold scheduleScan. cbn [pending].
  intros [E|(id & r & E & T)]; rewrite E.
  - now destruct (timer st).
  - now rewrite T, clearTimeout_single.
Qed.

Lemma scheduleScan_consistent (reason : string) (st : State) (k : nat) :
  consistent st k -> consistent (scheduleScan reason st) k.
Proof.
  intros (Hp & Hq & Ht & Hs). split_and!; [exact Hp|exact Hq| |exact Hs].
  right. exists (nextTimerId st), reason. split; [|reflexivity].
  now apply scheduleScan_pending.
Qed.

Lemma runScan_consistent (reason : string) (st : State) (k : nat) :
  consistent st k -> consistent (runScan reason st) k.
Proof.
  intros (Hp & Hq & Ht & Hs). unfold runScan.
  destruct (scanRunning st) eqn:R; cbn [processes scanRunning scanQueued pending timer started].
  - rewrite ?R. split_and!; auto.
  - split_and!; auto; rewrite ?length_app; cbn; lia.
Qed.

Lemma step_consistent (st st' : State) (ev : Event) (k : nat) :
  consistent st k -> step st ev = Some st' ->
  consistent st' (k + match ev with ScanClosed => 1 | _ => 0 end).
Proof.
  intros Hc Hstep. destruct ev as [detail|id| |]; cbn [step] in Hstep.
  - injection Hstep as <-. rewrite Nat.add_0_r. now apply scheduleScan_consistent.
  - destruct (List.find _ (pending st)) as [[? reason]|] eqn:F; [|discriminate].
    injection Hstep as <-. rewrite Nat.add_0_r. apply runScan_consistent.
    destruct Hc as (Hp & Hq & Ht & Hs). cbn. split_and!; auto.
    destruct Ht as [E|(id' & r & E & T)]; rewrite E in *; [now left|].
    cbn in F. unfold clearTimeout. cbn. destruct (Nat.eqb id' id); [now left|discriminate].
  - destruct (processes st) as [|n] eqn:P; [discriminate|]. injection Hstep as <-.
    destruct Hc as (Hp & Hq & Ht & Hs).
    assert (n = 0) as -> by (destruct (scanRunning st); lia).
    unfold onClose. cbn [scanQueued].
    destruct (scanQueued st) eqn:Q.
    + apply scheduleScan_consistent. cbn. rewrite P.
      split_and!; auto; first [discriminate|cbn; lia].
    + cbn. rewrite P. split_and!; auto; first [discriminate|cbn; lia].
  - injection Hstep as <-. rewrite Nat.add_0_r. now apply runScan_consistent.
Qed.

Lemma closes_cons (ev : Event) (events : list Event) :
  closes (ev :: events) = match ev with ScanClosed => 1 | _ => 0 end + closes events.
Proof. unfold closes. cbn [List.filter]. now destruct ev. Qed.

Lemma run_consistent (events : list Event) (st st' : State) (k : nat) :
  consistent st k -> run st events = Some st' -> consistent st' (k + closes events).
Proof.
  revert st k. induction events as [|ev events IH]; intros st k Hc Hrun.
  - injection Hrun as <-. unfold closes. cbn. now rewrite Nat.add_0_r.
  - cbn [run] in Hrun. destruct (step st ev) as [st1|] eqn:S1; [|discriminate].
    rewrite closes_cons, Nat.add_assoc.
    exact (IH st1 _ (step_consistent st st1 ev k Hc S1) Hrun).
Qed.

Lemma started_watch_consistent : consistent started_watch 0.
Proof. cbn. split_and!; auto. Qed.

Lemma run_app (st : State) (events1 events2 : list Event) :
  run st (events1 ++ events2)
  = match run st events1 with
    | Some st1 => run st1 events2
    | None => None
    end.
Proof.
  revert st. induction events1 as [|ev events1 IH]; intros st; [reflexivity|].
  cbn [app run]. destruct (step st ev); [apply IH|reflexivity].
Qed.

(** X14. Single flight. In every state the watch reaches, at most one
    scan process is alive, and [scanRunning] says whether one is; a scan
    is queued only while one runs; at most one timeout is pending, the one
    [timer] holds; and the scans started are the scans closed plus the
    running one. *)
Theorem watch_single_flight (events : list Event) (st : State) :
  run started_watch events = Some st ->
  processes st = (if scanRunning st then 1 else 0)
  /\ (scanQueued st = true -> scanRunning st = true)
  /\ (pending st = [] \/ exists id reason, pending st = [(id, reason)] /\ timer st = Some id)
  /\ length (started st) = closes events + processes st.
Proof. exact (run_consistent events started_watch st 0 started_watch_consistent). Qed.

Lemma watch_single_flight_witness :
  exists st,
    run started_watch [Changed "change:a.ts"; Changed "change:b.ts"; TimerFired 1; ScanClosed;
                       TimerFired 2; Changed "rename:c.ts"] = Some st
    /\ processes st = 1 /\ length (started st) = 2.
Proof.
  eexists. split; [reflexivity|].
  pose proof (watch_single_flight
                [Changed "change:a.ts"; Changed "change:b.ts"; TimerFired 1; ScanClosed;
                 TimerFired 2; Changed "rename:c.ts"] _ eq_refl) as (H1 & _ & _ & H2).
  split; [exact H1|exact H2].
Defined.

Lemma run_changes (details : list string) (d : string) (st : State) (k : nat) :
  consistent st k ->
  exists st', run st (List.map Changed (details ++ [d])) = Some st'
              /\ (exists id, pending st' = [(id, d)]) /\ started st' = started st
              /\ scanRunning st' = scanRunning st /\ scanQueued st' = scanQueued st.
Proof.
  revert st. induction details as [|x details IH]; intros st Hc.
  - exists (scheduleScan d st). split; [reflexivity|]. split_and!; try reflexivity.
    exists (nextTimerId st). apply scheduleScan_pending. tauto.
  - destruct (IH (scheduleScan x st) (scheduleScan_consistent x st k Hc))
      as (st' & Hrun & Hp & Hs & Hr & Hq).
    exists st'. split; [exact Hrun|]. split_and!; assumption.
Qed.

(** X15. Debounce. A burst of change notifications, whatever the state
    of the watch, starts no scan by itself and leaves exactly one timeout
    pending, with the detail of the last notification as its reason. *)
Theorem watch_burst_coalesces (events : list Event) (details : list string) (d : string)
    (st : State) :
  run started_watch events = Some st ->
  exists st',
    run started_watch (events ++ List.map Changed (details ++ [d])) = Some st'
    /\ (exists id, pending st' = [(id, d)])
    /\ started st' = started st
    /\ scanRunning st' = scanRunning st /\ scanQueued st' = scanQueued st.
Proof.
  intros Hrun. rewrite run_app, Hrun.
  exact (run_changes details d st _
           (run_consistent events started_watch st 0 started_watch_consistent Hrun)).
Qed.

Lemma watch_burst_coalesces_witness :
  exists st',
    run started_watch ([ScanClosed]
                       ++ List.map Changed (["change:a.ts"; "change:b.ts"] ++ ["rename:c.ts"]))
    = Some st'
    /\ (exists id, pending st' = [(id, "rename:c.ts")])
    /\ started st' = ["initial"]
    /\ scanRunning st' = false /\ scanQueued st' = false.
Proof.
  exact (watch_burst_coalesces [ScanClosed] ["change:a.ts"; "change:b.ts"] "rename:c.ts" _
           eq_refl).
Defined.



End WatchFacts.

(** ** Properties of the ranker on arbitrary clues *)

Module RankingFacts.
Import FileOpener Ranking.

Lemma repeat_map {A} (lines : list A) :
  repeat 0%Q (length lines) = List.map (fun _ => 0%Q) lines.
Proof. induction lines as [|x lines IH]; cbn; congruence. Qed.

Section HostFacts.

Variable host : string -> string -> option bool.

(** One clue either leaves the [try] block on some line, or adds its
    increment to every line. *)
Lemma forEachLine_increment (weight : Z) (term : string) (lines : list string)
    (g : string -> Q) (pre : list Q) :
  forEachLine host weight term lines (length pre) (pre ++ List.map g lines)
  = if existsb (aborts host term) lines then None
    else Some (pre ++ List.map (fun line => (g line + increment host weight term line)%Q) lines).
Proof.
  revert pre. induction lines as [|line lines IH]; intros pre; [reflexivity|].
  cbn [forEachLine List.map existsb]. unfold aborts at 1, increment at 1, patternOf.
  assert (Hnext : forall v,
    forEachLine host weight term lines (S (length pre)) (pre ++ v :: List.map g lines)
    = if existsb (aborts host term) lines then None
      else Some (pre ++ v :: List.map
                               (fun l => (g l + increment host weight term l)%Q) lines)).
  { intros v. specialize (IH (pre ++ [v])).
    rewrite length_app, Nat.add_1_r, <- !app_assoc in IH. exact IH. }
  destruct (Js.includes _ _); cbn [andb orb].
  - destruct (RegExp.RegExp_test host _ _) as [[|]|]; cbn [orb]; [| |reflexivity];
      rewrite FileOpenerFacts.bump_middle;
      destruct (Js.startsWith _ _);
      rewrite ?FileOpenerFacts.bump_middle, Hnext;
      destruct (existsb _ lines); try reflexivity; do 3 f_equal;
      rewrite ?FileOpenerFacts.Qplus_0_r_eq, ?FileOpenerFacts.Qplus_assoc_eq; reflexivity.
  - rewrite Hnext, FileOpenerFacts.Qplus_0_r_eq. reflexivity.
Qed.

Lemma forEachTerm_increments (termCount : nat) (terms : list string) (termIndex : nat)
    (lines : list string) (g : string -> Q) :
  forEachTerm host termCount terms termIndex lines (List.map g lines)
  = if existsb (fun term => existsb (aborts host term) lines) terms then None
    else Some (List.map (fun line =>
                           (g line + incrementsFrom host termCount termIndex terms line)%Q)
                        lines).
Proof.
  revert termIndex g. induction terms as [|term terms IH]; intros termIndex g.
  - cbn. f_equal. apply map_ext. intros line. now rewrite FileOpenerFacts.Qplus_0_r_eq.
  - cbn [forEachTerm incrementsFrom existsb].
    rewrite (forEachLine_increment _ term lines g []). cbn [app].
    destruct (existsb (aborts host term) lines); cbn [orb]; [reflexivity|].
    rewrite IH. destruct (existsb _ terms); [reflexivity|].
    f_equal. apply map_ext. intros line. now rewrite FileOpenerFacts.Qplus_assoc_eq.
Qed.

Lemma rankLines_increments (content : string) (searchTerms : list string) :
  rankLines host content searchTerms
  = let lines := Js.split LF content in
    if existsb (fun term => existsb (aborts host term) lines) searchTerms then None
    else
      let '(bestLine, bestScore) :=
        bestLoop (List.map (incrementsFrom host (length searchTerms) 0 searchTerms) lines)
                 0 (1, 0%Q) in
      Some (if Qltb 0 bestScore then bestLine else 1).
Proof.
  cbn zeta. unfold rankLines. rewrite repeat_map, forEachTerm_increments.
  destruct (existsb _ searchTerms); [reflexivity|].
  replace (List.map (fun line => (0 + incrementsFrom host (length searchTerms) 0 searchTerms
                                          line)%Q) (Js.split LF content))
    with (List.map (incrementsFrom host (length searchTerms) 0 searchTerms)
            (Js.split LF content))
    by (apply map_ext; intros line; now rewrite FileOpenerFacts.Qplus_0_l_eq).
  reflexivity.
Qed.

Lemma incrementsFrom_without_clue (termCount i : nat) (terms : list string) (line : string) :
  holdsClue terms line = false -> incrementsFrom host termCount i terms line = 0%Q.
Proof.
  unfold holdsClue. revert i. induction terms as [|term terms IH]; intros i; [reflexivity|].
  cbn [existsb incrementsFrom]. rewrite orb_false_iff. intros [Hterm Hterms].
  unfold increment. now rewrite Hterm, (IH _ Hterms).
Qed.

Lemma rankLines_aborts (content term line : string) (searchTerms : list string) :
  In term searchTerms -> In line (Js.split LF content) -> aborts host term line = true ->
  rankLines host content searchTerms = None.
Proof.
  intros Hterm Hline Habort. rewrite rankLines_increments. cbn zeta.
  replace (existsb _ searchTerms) with true; [reflexivity|].
  symmetry. apply existsb_exists. exists term. split; [exact Hterm|].
  apply existsb_exists. exists line. split; [exact Hline|exact Habort].
Qed.

Section FileFacts.

Variable readFileSync : string -> option string.

(** X17. The ranker in closed form, for every clue list and every host.
    If some clue occurs in some line and the [RegExp] constructor throws on
    its pattern, the result is line 1. Otherwise the score of a line is the
    sum over the clues of their increments, and the result is the first
    line of maximum score, or line 1 when no line scores above zero. *)
Theorem findBestLineInFile_sums_increments
    (filePath content : string) (searchTerms : list string) :
  readFileSync filePath = Some content ->
  let lines := Js.split LF content in
  findBestLineInFile host readFileSync filePath searchTerms
  = if existsb (fun term => existsb (aborts host term) lines) searchTerms then 1
    else
      let '(bestLine, bestScore) :=
        bestLoop (List.map (incrementsFrom host (length searchTerms) 0 searchTerms) lines)
                 0 (1, 0%Q) in
      if Qltb 0 bestScore then bestLine else 1.
Proof.
  intros Hread. cbn zeta. unfold findBestLineInFile.
  rewrite Hread, rankLines_increments. cbn zeta.
  destruct (existsb _ searchTerms); [reflexivity|]. now destruct (bestLoop _ 0 (1, 0%Q)).
Qed.

(** X18. One rejected pattern spoils the whole ranking: when a clue
    occurs in a line and the [RegExp] constructor throws on the clue's
    pattern, the result is line 1, whatever the other clues and lines. *)
Theorem findBestLineInFile_aborts (filePath content term line : string)
    (searchTerms : list string) :
  readFileSync filePath = Some content ->
  In term searchTerms -> In line (Js.split LF content) ->
  aborts host term line = true ->
  findBestLineInFile host readFileSync filePath searchTerms = 1.
Proof.
  intros Hread Hterm Hline Habort. unfold findBestLineInFile.
  now rewrite Hread, (rankLines_aborts content term line searchTerms).
Qed.

(** X19. A line other than line 1 is returned only if it holds a clue:
    the line returned then contains, case-insensitively, one of the
    search terms. In particular an empty clue list gives line 1. *)
Theorem findBestLineInFile_winner_holds_clue (filePath content : string)
    (searchTerms : list string) :
  readFileSync filePath = Some content ->
  let n := findBestLineInFile host readFileSync filePath searchTerms in
  n <> 1 ->
  exists line, Js.split LF content !! (n - 1) = Some line
               /\ holdsClue searchTerms line = true.
Proof.
  intros Hread. cbn zeta. unfold findBestLineInFile.
  rewrite Hread, rankLines_increments. cbn zeta.
  destruct (existsb _ searchTerms); [congruence|].
  set (score := incrementsFrom host (length searchTerms) 0 searchTerms).
  destruct (FileOpenerFacts.bestLoop_first_max
              (List.map score (Js.split LF content)) 0 1 0%Q)
    as [[-> _]|(i & s & Hi & -> & Hb & _)].
  - change (Qltb 0 0) with false. cbn iota. intros H. now contradiction H.
  - apply FileOpenerFacts.Qltb_lt in Hb as Hb'. rewrite Hb'. intros _.
    change (List.map score (Js.split LF content)) with (score <$> Js.split LF content) in Hi.
    rewrite list_lookup_fmap in Hi.
    destruct (Js.split LF content !! i) as [line|] eqn:Hline; [|discriminate].
    injection Hi as <-. exists line. replace (0 + i + 1 - 1) with i by lia.
    split; [exact Hline|].
    destruct (holdsClue searchTerms line) eqn:Hholds; [reflexivity|].
    subst score. cbn beta in Hb.
    rewrite (incrementsFrom_without_clue _ _ _ _ Hholds) in Hb. lra.
Qed.

End FileFacts.

End HostFacts.

Lemma lowerUnit_backslash (a : ascii) :
  Ascii.eqb "\" (Js.lowerUnit a) = Ascii.eqb "\" a.
Proof. FileOpenerFacts.each_unit a; reflexivity. Qed.

Lemma lowerUnit_bracket (a : ascii) :
  Ascii.eqb "]" (Js.lowerUnit a) = Ascii.eqb "]" a.
Proof. FileOpenerFacts.each_unit a; reflexivity. Qed.

Lemma startsWith_toLowerCase_escape (rest : string) :
  Js.startsWith (Js.toLowerCase rest) "\]" = Js.startsWith rest "\]".
Proof.
  destruct rest as [|a [|b rest]]; [reflexivity| |].
  - cbn [Js.toLowerCase Js.startsWith]. now rewrite lowerUnit_backslash.
  - cbn [Js.toLowerCase Js.startsWith].
    now rewrite !ScanPathsFacts.startsWith_nil, lowerUnit_backslash, lowerUnit_bracket.
Qed.

Lemma escapeReplace_head (c : ascii) (tl : string) :
  Js.startsWith tl "\]" = false -> escapeReplace (String c tl) = String c (escapeReplace tl).
Proof.
  destruct tl as [|c1 [|c2 rest]]; [reflexivity|reflexivity|].
  cbn [Js.startsWith escapeReplace]. rewrite ScanPathsFacts.startsWith_nil, andb_true_r.
  rewrite (Ascii.eqb_sym "\" c1), (Ascii.eqb_sym "]" c2). intros H.
  now rewrite <- andb_assoc, H, andb_false_r.
Qed.

(** A clue that begins with a quantifier gives a pattern that begins
    with [\b] and the quantifier: there is nothing to repeat. *)
Lemma leading_quantifier_rejected (host : string -> string -> option bool)
    (c : ascii) (rest line : string) :
  RegExp.isOneOf "*+?" c = true -> Js.startsWith rest "\]" = false ->
  RegExp.RegExp_test host (patternOf (String c rest)) line = None.
Proof.
  intros Hq Hrest. unfold RegExp.RegExp_test, RegExp.compile, patternOf.
  cbn [Js.toLowerCase].
  rewrite escapeReplace_head by (now rewrite startsWith_toLowerCase_escape).
  FileOpenerFacts.each_unit c; try discriminate Hq; reflexivity.
Qed.

(** X20. A clue that begins with [*], [+] or [?] (and is not followed
    by a backslash and []]) makes the ranker return line 1 as soon as one
    line of the file contains it. *)
Theorem findBestLineInFile_leading_quantifier
    (host : string -> string -> option bool) (readFileSync : string -> option string)
    (filePath content line rest : string) (c : ascii) (searchTerms : list string) :
  readFileSync filePath = Some content ->
  In (String c rest) searchTerms -> In line (Js.split LF content) ->
  RegExp.isOneOf "*+?" c = true -> Js.startsWith rest "\]" = false ->
  Js.includes (Js.toLowerCase line) (Js.toLowerCase (String c rest)) = true ->
  findBestLineInFile host readFileSync filePath searchTerms = 1.
Proof.
  intros Hread Hterm Hline Hq Hrest Hincl. unfold findBestLineInFile.
  rewrite Hread, (rankLines_aborts host content (String c rest) line searchTerms);
    [reflexivity|exact Hterm|exact Hline|].
  unfold aborts. rewrite Hincl. cbn [andb].
  now rewrite (leading_quantifier_rejected host c rest _ Hq Hrest).
Qed.

Lemma findBestLineInFile_sums_increments_witness :
  findBestLineInFile (fun _ _ => None) (fun _ => Some (fileOf ["save"; "x (click)"]))
    "/app/t.html" ["(click)"; "save"] = 2.
Proof.
  rewrite (findBestLineInFile_sums_increments (fun _ _ => None)
             (fun _ => Some (fileOf ["save"; "x (click)"])) "/app/t.html"
             (fileOf ["save"; "x (click)"]) ["(click)"; "save"] eq_refl).
  reflexivity.
Defined.

Lemma findBestLineInFile_aborts_witness :
  aborts (fun _ _ => Some true) "save)" "  <a>(save)</a>" = true
  /\ findBestLineInFile (fun _ _ => Some true)
       (fun _ => Some (fileOf ["<form>"; "  <a>(save)</a>"; "</form>"]))
       "/app/t.html" ["form"; "save)"] = 1.
Proof.
  split; [reflexivity|].
  apply (findBestLineInFile_aborts (fun _ _ => Some true)
           (fun _ => Some (fileOf ["<form>"; "  <a>(save)</a>"; "</form>"]))
           "/app/t.html" (fileOf ["<form>"; "  <a>(save)</a>"; "</form>"])
           "save)" "  <a>(save)</a>" ["form"; "save)"]).
  - reflexivity.
  - right. left. reflexivity.
  - right. left. reflexivity.
  - reflexivity.
Defined.

Lemma findBestLineInFile_winner_holds_clue_witness :
  exists line,
    Js.split LF (fileOf ["save"; "x (click)"]) !! 1 = Some line
    /\ holdsClue ["(click)"; "save"] line = true.
Proof.
  apply (findBestLineInFile_winner_holds_clue (fun _ _ => None)
           (fun _ => Some (fileOf ["save"; "x (click)"])) "/app/t.html"
           (fileOf ["save"; "x (click)"]) ["(click)"; "save"] eq_refl).
  discriminate.
Defined.

Lemma findBestLineInFile_leading_quantifier_witness :
  findBestLineInFile (fun _ _ => Some true)
    (fun _ => Some (fileOf ["<ul>"; "  <li *ngFor=x>"; "</ul>"]))
    "/app/list.html" ["<li"; "*ngFor"] = 1.
Proof.
  apply (findBestLineInFile_leading_quantifier (fun _ _ => Some true)
           (fun _ => Some (fileOf ["<ul>"; "  <li *ngFor=x>"; "</ul>"]))
           "/app/list.html" (fileOf ["<ul>"; "  <li *ngFor=x>"; "</ul>"])
           "  <li *ngFor=x>" "ngFor" "*" ["<li"; "*ngFor"]).
  - reflexivity.
  - right. left. reflexivity.
  - right. left. reflexivity.
  - reflexivity.
  - reflexivity.
  - reflexivity.
Defined.

End RankingFacts.

(** ** Properties of the map loading and of the clue extraction *)

Module LocatorFacts.
Import Browser CmpScan Locator.

Lemma rebuild_fold (values : list CmpInfo) (idx : Index) :
  Js.forEachOrThrow
    (fun rebuilt info => appendPath rebuilt (className info) (filePath info))
    values (byClassName idx)
  = option_map byClassName (Js.forEachOrThrow addComponent values idx).
Proof.
  revert idx. induction values as [|info values IH]; intros idx; [reflexivity|].
  cbn [Js.forEachOrThrow]. unfold addComponent at 1.
  destruct (appendPath (byClassName idx) (className info) (filePath info)) as [byClass|];
    [|reflexivity].
  apply (IH {| detail := <[filePath info := info]> (detail idx); byClassName := byClass |}).
Qed.

Lemma rebuild_Some (values : list CmpInfo) (rebuilt : gmap string (list string)) :
  rebuild values = Some rebuilt ->
  exists idx, Js.forEachOrThrow addComponent values emptyIndex = Some idx
              /\ byClassName idx = rebuilt.
Proof.
  unfold rebuild. change (∅ : gmap string (list string)) with (byClassName emptyIndex).
  rewrite rebuild_fold.
  destruct (Js.forEachOrThrow addComponent values emptyIndex) as [idx|]; [|discriminate].
  intros [= <-]. eauto.
Qed.

(** The rebuild throws exactly when a record is named like a member of
    [Object.prototype]. *)
Lemma rebuild_throws (values : list CmpInfo) :
  rebuild values = None
  <-> existsb (fun info => Js.inherited (className info)) values = true.
Proof.
  unfold rebuild. change (∅ : gmap string (list string)) with (byClassName emptyIndex).
  rewrite rebuild_fold, <- (CmpScanFacts.forEach_addComponent_throws values emptyIndex).
  - now destruct (Js.forEachOrThrow addComponent values emptyIndex).
  - intros c [paths Hc]. cbn in Hc. now rewrite lookup_empty in Hc.
Qed.

Lemma rebuild_paths (values : list CmpInfo) (rebuilt : gmap string (list string))
    (c : string) (paths : list string) :
  rebuild values = Some rebuilt -> rebuilt !! c = Some paths ->
  List.NoDup paths /\ paths <> []
  /\ forall p, In p paths <->
               exists info, In info values /\ className info = c /\ filePath info = p.
Proof.
  intros (idx & Hidx & <-)%rebuild_Some.
  rewrite (CmpScanFacts.byClassName_fold _ _ _ c Hidx). cbn [emptyIndex byClassName].
  rewrite lookup_empty. cbn [default from_option id].
  destruct (pathsOf c values) as [|p0 ps] eqn:E; [discriminate|].
  rewrite CmpScanFacts.fold_dedupAppend. cbn [app]. intros Hpaths.
  assert (paths = firstSeen [] (pathsOf c values)) as -> by (rewrite E; congruence).
  split_and!; [apply CmpScanFacts.firstSeen_NoDup| |].
  - rewrite E. cbn. discriminate.
  - intros p. rewrite CmpScanFacts.firstSeen_In, CmpScanFacts.pathsOf_In. cbn. tauto.
Qed.

(** X21. A map loaded without its derived dictionary, or with an empty
    one, gets it rebuilt from the records. The rebuild throws exactly
    when a record is named like a member of [Object.prototype]. When it
    does not, [detailByFilePath] is unchanged and each identifier that
    gets an entry lists, once each, the file paths of the records that
    carry it; and when every record is stored under its own file path and
    has an identifier, the map returned keeps the invariants of the
    index. *)
Theorem normalizeMap_rebuilds_index (values : list CmpInfo) (detail : gmap string CmpInfo)
    (given : option (gmap string (list string))) :
  from_option (fun m => size m) 0 given = 0 ->
  (normalizeMap values detail given = None
   <-> existsb (fun info => Js.inherited (className info)) values = true)
  /\ forall map,
       normalizeMap values detail given = Some map ->
       detailByFilePath map = detail
       /\ (forall identifier paths,
             filePathsByClassName map !! identifier = Some paths ->
             List.NoDup paths
             /\ forall p, In p paths <->
                          exists info, In info values /\ className info = identifier
                                       /\ filePath info = p)
       /\ ((forall info, In info values ->
                         is_Some (detail !! filePath info) /\ className info <> "") ->
           index_invariant map).
Proof.
  intros Hgiven.
  assert (Hnorm : normalizeMap values detail given
                  = match rebuild values with
                    | Some rebuilt =>
                        Some {| detailByFilePath := detail; filePathsByClassName := rebuilt |}
                    | None => None
                    end).
  { unfold normalizeMap. destruct given as [m|]; [|reflexivity].
    cbn in Hgiven. now rewrite Hgiven. }
  rewrite Hnorm. split.
  - rewrite <- rebuild_throws. now destruct (rebuild values).
  - intros map. destruct (rebuild values) as [rebuilt|] eqn:R; [|discriminate].
    intros [= <-]. cbn [detailByFilePath filePathsByClassName]. split_and!; [reflexivity| |].
    + intros identifier paths Hl.
      destruct (rebuild_paths values rebuilt identifier paths R Hl) as (Hnd & _ & Hp).
      now split.
    + intros Hvalues. split.
      * cbn [detailByFilePath filePathsByClassName]. intros identifier paths p Hl Hin.
        destruct (rebuild_paths values rebuilt identifier paths R Hl) as (_ & _ & Hp).
        apply Hp in Hin as (info & Hi & _ & <-). now apply Hvalues.
      * unfold candidatesOf. cbn [filePathsByClassName].
        destruct (rebuilt !! "") as [[|p ps]|] eqn:E; try reflexivity.
        destruct (rebuild_paths values rebuilt "" (p :: ps) R E) as (_ & _ & Hp).
        destruct (proj1 (Hp p) (or_introl eq_refl)) as (info & Hi & Hc & _).
        now destruct (Hvalues info Hi).
Qed.

Lemma normalizeMap_rebuilds_index_witness :
  normalizeMap [Examples.fooRecord] {[ "/app/foo.ts" := Examples.fooRecord ]} None
  = Some Examples.fooIndex
  /\ index_invariant Examples.fooIndex.
Proof.
  assert (H : normalizeMap [Examples.fooRecord] {[ "/app/foo.ts" := Examples.fooRecord ]} None
              = Some Examples.fooIndex) by reflexivity.
  split; [exact H|].
  apply (proj2 (proj2 (proj2 (normalizeMap_rebuilds_index [Examples.fooRecord]
                                {[ "/app/foo.ts" := Examples.fooRecord ]} None eq_refl)
                         Examples.fooIndex H))).
  intros info [<-|[]]. split; [|discriminate]. cbn. rewrite lookup_singleton_eq. eauto.
Defined.

Section ScannerOutput.

Variable resolveFromRoot : string -> string.
Variable resolveTemplate : string -> string -> string.

Local Abbreviation found := (components resolveFromRoot resolveTemplate).
Local Abbreviation build := (buildIndex resolveFromRoot resolveTemplate).

Lemma byClassName_empty (sourceFiles : list SourceFile) (idx : Index) :
  build sourceFiles = Some idx ->
  size (byClassName idx) = 0 -> found sourceFiles = [].
Proof.
  intros Hbuilt Hsize%map_size_empty_inv.
  destruct (found sourceFiles) as [|info rest] eqn:E; [reflexivity|]. exfalso.
  pose proof (CmpScanFacts.buildIndex_byClassName resolveFromRoot resolveTemplate
                sourceFiles idx (className info) Hbuilt) as H.
  rewrite Hsize, lookup_empty, E in H.
  assert (Hin : In (filePath info) (firstSeen [] (pathsOf (className info) (info :: rest)))).
  { apply CmpScanFacts.firstSeen_In. split; [|reflexivity].
    apply CmpScanFacts.pathsOf_In. exists info. split_and!; [now left|reflexivity|reflexivity]. }
  destruct (firstSeen [] (pathsOf (className info) (info :: rest))); [destruct Hin|].
  discriminate H.
Qed.

(** X22. On every index the scanner builds, that is whenever its loops
    are not left by an exception, [normalizeMap] changes nothing: the
    derived dictionary is kept when it has an entry, and when it has none
    there is no record to rebuild it from. *)
Theorem normalizeMap_keeps_scanner_output (sourceFiles : list SourceFile)
    (values : list CmpInfo) (idx : Index) :
  build sourceFiles = Some idx ->
  (forall info, In info values -> exists p, detail idx !! p = Some info) ->
  normalizeMap values (detail idx) (Some (byClassName idx))
  = Some {| detailByFilePath := detail idx; filePathsByClassName := byClassName idx |}.
Proof.
  intros Hbuilt Hvalues. unfold normalizeMap.
  destruct (Nat.eqb_spec (size (byClassName idx)) 0) as [Hsize|_]; [|reflexivity].
  pose proof (byClassName_empty sourceFiles idx Hbuilt Hsize) as Hfound.
  assert (Hnil : values = []).
  { destruct values as [|info rest]; [reflexivity|]. exfalso.
    destruct (Hvalues info (or_introl eq_refl)) as [p Hp].
    rewrite (CmpScanFacts.buildIndex_detail _ _ _ _ p Hbuilt), Hfound in Hp.
    discriminate Hp. }
  rewrite Hnil. cbn. do 2 f_equal. now apply map_size_empty_inv in Hsize as ->.
Qed.

Lemma NoDup_map_injective {A B} (f : A -> B) (l : list A) (a b : A) :
  List.NoDup (List.map f l) -> In a l -> In b l -> f a = f b -> a = b.
Proof.
  induction l as [|x l IH]; [intros _ []|].
  cbn [List.map]. intros Hnd Ha Hb Hf. apply List.NoDup_cons_iff in Hnd as [Hx Hnd].
  destruct Ha as [<-|Ha], Hb as [<-|Hb]; [reflexivity| | |now apply IH].
  - exfalso. apply Hx. rewrite Hf. now apply in_map.
  - exfalso. apply Hx. rewrite <- Hf. now apply in_map.
Qed.

(** X23. The rebuild agrees with the scanner. On every tree the scan
    completes on, when no file declares two components, the components
    found are the records of the index, and the dictionary [normalizeMap]
    rebuilds from them, in scan order, is the one the scanner derived. *)
Theorem normalizeMap_rebuild_agrees_with_scanner (sourceFiles : list SourceFile)
    (idx : Index) :
  build sourceFiles = Some idx ->
  List.NoDup (List.map filePath (found sourceFiles)) ->
  (forall info, In info (found sourceFiles) <-> exists p, detail idx !! p = Some info)
  /\ normalizeMap (found sourceFiles) (detail idx) None
     = Some {| detailByFilePath := detail idx; filePathsByClassName := byClassName idx |}.
Proof.
  intros Hbuilt Hnd. split.
  - intros info. split.
    + intros Hin. exists (filePath info).
      rewrite (CmpScanFacts.buildIndex_detail _ _ _ _ (filePath info) Hbuilt).
      unfold lastWithPath.
      destruct (List.find _ (rev (found sourceFiles))) as [other|] eqn:F.
      * apply find_some in F as [Hother Heq%String.eqb_eq]. apply in_rev in Hother.
        f_equal. now apply (NoDup_map_injective filePath (found sourceFiles)).
      * apply in_rev in Hin. apply (find_none _ _ F) in Hin.
        now rewrite String.eqb_refl in Hin.
    + intros [p Hp]. rewrite (CmpScanFacts.buildIndex_detail _ _ _ _ p Hbuilt) in Hp.
      apply find_some in Hp as [Hin _]. now apply in_rev in Hin.
  - unfold normalizeMap, rebuild.
    change (∅ : gmap string (list string)) with (byClassName emptyIndex).
    rewrite rebuild_fold, <- CmpScanFacts.buildIndex_components, Hbuilt. reflexivity.
Qed.

End ScannerOutput.

Lemma normalizeMap_keeps_scanner_output_witness :
  normalizeMap [Examples.fooRecord] {[ "/app/foo.ts" := Examples.fooRecord ]}
    (Some {[ "Foo" := ["/app/foo.ts"] ]})
  = Some Examples.fooIndex.
Proof.
  assert (H : buildIndex id (fun _ t => t) [Samples.fooFile]
              = Some {| detail := {[ "/app/foo.ts" := Examples.fooRecord ]};
                        byClassName := {[ "Foo" := ["/app/foo.ts"] ]} |})
    by (vm_compute; reflexivity).
  apply (normalizeMap_keeps_scanner_output id (fun _ t => t) [Samples.fooFile]
           [Examples.fooRecord] _ H).
  intros info [<-|[]]. exists "/app/foo.ts". cbn. apply lookup_singleton_eq.
Defined.

Lemma normalizeMap_rebuild_agrees_with_scanner_witness :
  normalizeMap (components id (fun _ t => t) [Samples.fooFile])
    {[ "/app/foo.ts" := Examples.fooRecord ]} None
  = Some Examples.fooIndex.
Proof.
  assert (H : buildIndex id (fun _ t => t) [Samples.fooFile]
              = Some {| detail := {[ "/app/foo.ts" := Examples.fooRecord ]};
                        byClassName := {[ "Foo" := ["/app/foo.ts"] ]} |})
    by (vm_compute; reflexivity).
  refine (proj2 (normalizeMap_rebuild_agrees_with_scanner id (fun _ t => t)
                   [Samples.fooFile] _ H _)).
  cbn. repeat constructor. intros [].
Defined.

(** *** The clues *)

Ltac case_if :=
  match goal with
  | |- context [if ?b then _ else _] => destruct b eqn:?
  end.

Lemma attrStep_app (searchTerms : list string) (attr : Attr) :
  attrStep searchTerms attr = searchTerms ++ attrStep [] attr.
Proof.
  unfold attrStep. repeat case_if; cbn [app]; rewrite <- ?app_assoc, ?app_nil_r; reflexivity.
Qed.

Lemma fold_attrStep (attributes : list Attr) (searchTerms : list string) :
  fold_left attrStep attributes searchTerms
  = searchTerms ++ flat_map (attrStep []) attributes.
Proof.
  revert searchTerms. induction attributes as [|attr attributes IH]; intros searchTerms.
  - cbn. now rewrite app_nil_r.
  - cbn [fold_left flat_map]. now rewrite IH, attrStep_app, <- app_assoc.
Qed.

Lemma truthy_length (s : string) (n : nat) :
  Nat.ltb n (String.length s) = true -> Js.truthy s = true.
Proof. destruct s; [|reflexivity]. cbn. destruct n; discriminate. Qed.

Lemma truthy_startsWith (s : string) (c : ascii) :
  Js.startsWith s (String c "") = true -> Js.truthy s = true.
Proof. now destruct s. Qed.

Lemma truthy_append (a : string) (c : ascii) (b : string) :
  Js.truthy (a +:+ String c b) = true.
Proof. now destruct a. Qed.

Lemma attrStep_truthy (attr : Attr) :
  Forall (fun term => Js.truthy term = true) (attrStep [] attr).
Proof.
  unfold attrStep.
  destruct (Js.startsWith (attrName attr) "(") eqn:E1;
    [|destruct (Js.startsWith (attrName attr) "[") eqn:E2;
      [|destruct (Js.startsWith (attrName attr) "*") eqn:E3]];
    cbn [orb app]; repeat case_if; cbn [app];
    repeat (apply List.Forall_cons || apply List.Forall_nil);
    first [apply (truthy_append (attrName attr) "=")
          |eapply truthy_startsWith; eassumption].
Qed.

(** X24. The clues of a clicked element: the opening of its tag,
    lower-cased, is always among them, so the list is never empty; and no
    clue is the empty string, which every line would contain. *)
Theorem findTemplatePosition_clues (clickedElement : Element) :
  let searchTerms := findTemplatePosition clickedElement in
  In ("<" +:+ Js.toLowerCase (tagName clickedElement)) searchTerms
  /\ Forall (fun term => Js.truthy term = true) searchTerms.
Proof.
  cbn zeta. unfold findTemplatePosition. cbn zeta. rewrite fold_attrStep.
  set (classes := List.filter keptClass (classList clickedElement)).
  assert (Hclasses : Forall (fun term => Js.truthy term = true) classes).
  { apply List.Forall_forall. intros cls [_ Hk]%filter_In. unfold keptClass in Hk.
    apply andb_true_iff in Hk as [_ Hlen]. exact (truthy_length cls 2 Hlen). }
  assert (Hattrs : Forall (fun term => Js.truthy term = true)
                          (flat_map (attrStep []) (attributes clickedElement))).
  { apply List.Forall_flat_map, List.Forall_forall. intros attr _. apply attrStep_truthy. }
  split.
  - destruct (textContent clickedElement) as [content|];
      [destruct (_ && _ && _ && _)|];
      (destruct (parentElement clickedElement) as [parent|];
       [destruct (negb (isComponentElement parent))|]);
      rewrite ?in_app_iff; cbn [In]; tauto.
  - destruct (textContent clickedElement) as [content|];
      [destruct (Js.truthy (Js.trim content)) eqn:Htext; cbn [andb]|];
      try destruct (_ && _ && _);
      (destruct (parentElement clickedElement) as [parent|];
       [destruct (negb (isComponentElement parent))|]);
      destruct (Js.truthy (elementId clickedElement)), (Nat.ltb 0 (length classes));
      cbn [app];
      repeat first [apply List.Forall_app; split
                   |apply List.Forall_cons
                   |apply List.Forall_nil
                   |assumption
                   |reflexivity
                   |apply (truthy_append (Js.toLowerCase (parentTagName parent)) " ")].
Qed.

Lemma attribute_name_is_clue (clickedElement : Element) (attr : Attr) :
  In attr (attributes clickedElement) ->
  Js.startsWith (attrName attr) "(" || Js.startsWith (attrName attr) "["
  || Js.startsWith (attrName attr) "*" = true ->
  In (attrName attr) (findTemplatePosition clickedElement).
Proof.
  intros Hattr Hname. unfold findTemplatePosition. cbn zeta. rewrite fold_attrStep.
  assert (Hin : In (attrName attr) (flat_map (attrStep []) (attributes clickedElement))).
  { apply in_flat_map. exists attr. split; [exact Hattr|].
    unfold attrStep. rewrite Hname. repeat case_if; cbn; auto. }
  destruct (textContent clickedElement) as [content|];
    [destruct (_ && _ && _ && _)|];
    (destruct (parentElement clickedElement) as [parent|];
     [destruct (negb (isComponentElement parent))|]);
    rewrite ?in_app_iff; tauto.
Qed.

(** X25. Clicking an element that carries a structural directive such
    as [*ngIf] defeats the search: the attribute name is a clue, its
    pattern is rejected, and as soon as a line of the file contains the
    name the ranker returns line 1. *)
Theorem structural_directive_defeats_search
    (host : string -> string -> option bool) (readFileSync : string -> option string)
    (filePath content line rest : string) (clickedElement : Element) (attr : Attr) :
  readFileSync filePath = Some content ->
  In attr (attributes clickedElement) ->
  attrName attr = String "*" rest -> Js.startsWith rest "\]" = false ->
  In line (Js.split FileOpener.LF content) ->
  Js.includes (Js.toLowerCase line) (Js.toLowerCase (attrName attr)) = true ->
  FileOpener.findBestLineInFile host readFileSync filePath
    (findTemplatePosition clickedElement) = 1.
Proof.
  intros Hread Hattr Hname Hrest Hline Hincl. unfold FileOpener.findBestLineInFile.
  rewrite Hread, (RankingFacts.rankLines_aborts host content (attrName attr) line);
    [reflexivity| |exact Hline|].
  - apply attribute_name_is_clue; [exact Hattr|].
    rewrite Hname, !ScanPathsFacts.startsWith_unit. reflexivity.
  - unfold Ranking.aborts. rewrite Hincl, Hname. cbn [andb].
    now rewrite (RankingFacts.leading_quantifier_rejected host "*" rest _ eq_refl Hrest).
Qed.

Lemma structural_directive_defeats_search_witness :
  FileOpener.findBestLineInFile (fun _ _ => Some true)
    (fun _ => Some (FileOpener.fileOf Samples.saveButtonTemplate))
    "/app/form.component.html" (findTemplatePosition Samples.saveButton) = 1.
Proof.
  apply (structural_directive_defeats_search (fun _ _ => Some true)
           (fun _ => Some (FileOpener.fileOf Samples.saveButtonTemplate))
           "/app/form.component.html" (FileOpener.fileOf Samples.saveButtonTemplate)
           "  <button id=save-btn class=btn *ngIf=ready>Save all</button>" "ngIf"
           Samples.saveButton {| attrName := "*ngIf"; attrValue := "ready" |}).
  - reflexivity.
  - right. left. reflexivity.
  - reflexivity.
  - reflexivity.
  - right. left. reflexivity.
  - reflexivity.
Defined.

End LocatorFacts.

(** ** Further properties of the resolver *)

Module ResolverFacts.
Import Browser.

Lemma stripLeadingUnderscores_head (s : string) :
  Js.startsWith (stripLeadingUnderscores s) "_" = false.
Proof.
  induction s as [|c s IH]; [reflexivity|]. cbn [stripLeadingUnderscores].
  destruct (Ascii.eqb c "_") eqn:E; [exact IH|].
  rewrite ScanPathsFacts.startsWith_unit. now rewrite Ascii.eqb_sym.
Qed.

(** X26. The identifiers the resolver tries: at most two, without
    repetition and never empty; the identifier as given comes first, and
    the only other one is the identifier without its leading underscores,
    which has no leading underscore left. An empty identifier gives
    nothing to try. *)
Theorem getClassNameCandidates_shape (className : string) :
  let candidates := getClassNameCandidates className in
  let stripped := stripLeadingUnderscores className in
  List.NoDup candidates
  /\ length candidates <= 2
  /\ Forall (fun c => Js.truthy c = true) candidates
  /\ (forall c, In c candidates -> c = className \/ c = stripped)
  /\ hd_error candidates = (if Js.truthy className then Some className else None)
  /\ Js.startsWith stripped "_" = false
  /\ stripLeadingUnderscores stripped = stripped.
Proof.
  cbn zeta. rewrite BrowserFacts.getClassNameCandidates_cases. cbn zeta.
  pose proof (stripLeadingUnderscores_head className) as Hhead.
  assert (Hidem : stripLeadingUnderscores (stripLeadingUnderscores className)
                  = stripLeadingUnderscores className).
  { destruct (stripLeadingUnderscores className) as [|c s]; [reflexivity|].
    rewrite ScanPathsFacts.startsWith_unit in Hhead. cbn [stripLeadingUnderscores].
    now rewrite Ascii.eqb_sym, Hhead. }
  assert (Hcases :
    (if Js.truthy className then
       if Js.truthy (stripLeadingUnderscores className)
          && negb (String.eqb (stripLeadingUnderscores className) className)
       then [className; stripLeadingUnderscores className] else [className]
     else [])
    = (if Js.truthy className then
         className :: (if Js.truthy (stripLeadingUnderscores className)
                          && negb (String.eqb (stripLeadingUnderscores className) className)
                       then [stripLeadingUnderscores className] else [])
       else [])).
  { destruct (Js.truthy className); [|reflexivity].
    now destruct (Js.truthy (stripLeadingUnderscores className) && _). }
  rewrite Hcases. clear Hcases.
  destruct (Js.truthy className) eqn:T;
    [|split_and!; [apply List.NoDup_nil|cbn; lia|apply List.Forall_nil|intros c []
                  |reflexivity|exact Hhead|exact Hidem]].
  destruct (Js.truthy (stripLeadingUnderscores className)
            && negb (String.eqb (stripLeadingUnderscores className) className)) eqn:Second.
  - apply andb_true_iff in Second as [T' E]. apply negb_true_iff in E.
    apply String.eqb_neq in E.
    split_and!; [|cbn; lia| | |reflexivity|exact Hhead|exact Hidem].
    + apply List.NoDup_cons; [|apply List.NoDup_cons; [intros []|apply List.NoDup_nil]].
      intros [H|[]]. now apply E.
    + repeat apply List.Forall_cons; [exact T|exact T'|apply List.Forall_nil].
    + intros c [<-|[<-|[]]]; auto.
  - split_and!; [|cbn; lia| | |reflexivity|exact Hhead|exact Hidem].
    + apply List.NoDup_cons; [intros []|apply List.NoDup_nil].
    + apply List.Forall_cons; [exact T|apply List.Forall_nil].
    + intros c [<-|[]]. now left.
Qed.






Lemma select_fold_constant (url : string) (l : list string) (b : string) (bs : Z) :
  (forall c, In c l -> (calculatePathRelevance c url <= bs)%Z) ->
  fold_left (selectStep url) l (b, bs) = (b, bs).
Proof.
  induction l as [|x l IH]; intros Hall; [reflexivity|].
  cbn [fold_left selectStep].
  destruct (Z.ltb_spec bs (calculatePathRelevance x url)) as [Hlt|_].
  - specialize (Hall x (or_introl eq_refl)). lia.
  - apply IH. intros c Hc. apply Hall. now right.
Qed.

Lemma calculatePathRelevance_nonneg (filePath currentUrl : string) :
  (0 <= calculatePathRelevance filePath currentUrl)%Z.
Proof.
  rewrite BrowserFacts.calculatePathRelevance_spec. apply BrowserFacts.spec_relevance_nonneg.
Qed.

(** X28. Candidates that the navigation path does not tell apart: when
    no candidate scores above the first one, the first stored path is
    selected. On a navigation path without segments, such as [/], every
    file path scores 0, so the first stored path is always selected. *)
Theorem selectBestMatchingFile_first_on_ties
    (currentUrl first : string) (others : list string) :
  (forall c, In c others ->
             (calculatePathRelevance c currentUrl <= calculatePathRelevance first currentUrl)%Z) ->
  selectBestMatchingFile currentUrl (first :: others) = Some first.
Proof.
  intros Hall. destruct others as [|second others]; [reflexivity|].
  unfold selectBestMatchingFile.
  change (fold_left (selectStep currentUrl) (first :: second :: others) (first, (-1)%Z))
    with (fold_left (selectStep currentUrl) (second :: others)
            (selectStep currentUrl (first, (-1)%Z) first)).
  unfold selectStep at 2.
  pose proof (calculatePathRelevance_nonneg first currentUrl) as Hpos.
  destruct (Z.ltb_spec (-1) (calculatePathRelevance first currentUrl)) as [_|Hle]; [|lia].
  now rewrite select_fold_constant.
Qed.

Lemma calculatePathRelevance_without_segments (filePath currentUrl : string) :
  Js.filterBoolean (Js.split "/" currentUrl) = [] ->
  calculatePathRelevance filePath currentUrl = 0%Z.
Proof. intros H. unfold calculatePathRelevance. now rewrite H. Qed.

Lemma selectBestMatchingFile_first_on_ties_witness :
  selectBestMatchingFile "/" ["/app/a/foo.ts"; "/app/b/foo.ts"; "/app/c/foo.ts"]
  = Some "/app/a/foo.ts".
Proof.
  apply (selectBestMatchingFile_first_on_ties "/" "/app/a/foo.ts"
           ["/app/b/foo.ts"; "/app/c/foo.ts"]).
  intros c _.
  rewrite (calculatePathRelevance_without_segments c "/" eq_refl),
    (calculatePathRelevance_without_segments "/app/a/foo.ts" "/" eq_refl).
  lia.
Defined.

Lemma count_le {A} (p : A -> bool) (l : list A) : (0 <= count p l <= Z.of_nat (length l))%Z.
Proof. unfold count. pose proof (filter_length_le p l). lia. Qed.

Lemma adjacent_length (l : list string) : length (adjacent l) = length l - 1.
Proof.
  induction l as [|a l IH]; [reflexivity|]. destruct l as [|b l]; [reflexivity|].
  change (adjacent (a :: b :: l)) with ((a, b) :: adjacent (b :: l)).
  cbn [length] in *. lia.
Qed.

(** The relevance score depends on the depth of the navigation
    path only through a bound: with [n] navigation segments it lies
    between 0 and [30 * n + 10], and it is 0 when there is no segment. *)
Lemma calculatePathRelevance_bounds (filePath currentUrl : string) :
  let n := Z.of_nat (length (Js.filterBoolean (Js.split "/" currentUrl))) in
  (0 <= calculatePathRelevance filePath currentUrl <= 30 * n + 10)%Z
  /\ (n = 0%Z -> calculatePathRelevance filePath currentUrl = 0%Z).
Proof.
  cbn zeta. split.
  - rewrite BrowserFacts.calculatePathRelevance_spec. unfold spec_relevance, segments.
    change (List.filter (fun s => negb (String.eqb s ""))) with Js.filterBoolean.
    set (nav := Js.filterBoolean (Js.split "/" currentUrl)).
    pose proof (count_le (Js.arrayIncludes (Js.filterBoolean (Js.split "/" filePath))) nav).
    pose proof (count_le (fun p => Js.includes filePath (fst p +:+ "/" +:+ snd p))
                  (adjacent nav)) as Hadj.
    rewrite adjacent_length in Hadj. clearbody nav.
    destruct (Js.lastElement nav) as [s|] eqn:E; [|lia].
    apply BrowserFacts.lastElement_In in E.
    destruct nav as [|x nav]; [destruct E|]. cbn [length] in *.
    destruct (Js.includes _ _); lia.
  - intros Hn. apply calculatePathRelevance_without_segments.
    destruct (Js.filterBoolean _); [reflexivity|discriminate].
Qed.

End ResolverFacts.

(** ** Properties of the HTTP server *)

Module ServerFacts.
Import FileOpener Server.

Section HandlerFacts.

Variable EDITOR_CMD : option string.
Variable DEFAULT_EDITOR : string.
Variable FALLBACK_EDITOR : string.
Variable checkEditorCLI : string -> bool.
Variable spawn : list SpawnCall -> SpawnCall -> bool.
Variable host : string -> string -> option bool.
Variable readFileSync : string -> option string.
Variable mapExists : bool.
Variable decodeURIComponent : string -> option string.
Variable JSON_parse : string -> option (option (list string)).

Local Abbreviation launched := (launch EDITOR_CMD DEFAULT_EDITOR FALLBACK_EDITOR checkEditorCLI spawn).
Local Abbreviation served :=
  (handle EDITOR_CMD DEFAULT_EDITOR FALLBACK_EDITOR checkEditorCLI spawn host readFileSync
          mapExists decodeURIComponent JSON_parse).
Local Abbreviation bestLine := (bestLineOf host readFileSync).

(** The calls of a log all threw. *)
Local Abbreviation allThrew :=
  (fun log : list SpawnCall =>
     forall i c, log !! i = Some c -> spawn (take i log) c = false).

Lemma allThrew_snoc (log : list SpawnCall) (call : SpawnCall) :
  allThrew log -> spawn log call = false -> allThrew (log ++ [call]).
Proof.
  intros Hlog Hcall i c Hi.
  destruct (Nat.lt_ge_cases i (length log)) as [Hlt|Hge].
  - rewrite lookup_app_l in Hi by exact Hlt.
    rewrite take_app_le by lia. now apply Hlog.
  - rewrite lookup_app_r in Hi by exact Hge.
    destruct (i - length log) as [|k] eqn:Ek; [|now destruct k].
    cbn in Hi. injection Hi as <-.
    assert (i = length log) as -> by lia.
    now rewrite take_app_length.
Qed.

(** What one [tryRun] adds to the log, for every editor name. *)
Lemma tryRun_outcome (fileWithPos : string) (log : list SpawnCall) (editor : string) :
  match tryRun checkEditorCLI spawn fileWithPos log editor with
  | Returned true log' => exists call, log' = log ++ [call] /\ spawn log call = true
  | Returned false log' =>
      log' = log \/ exists call, log' = log ++ [call] /\ spawn log call = false
  | Thrown log' => log' = log
  end.
Proof.
  unfold tryRun. destruct (COMMAND_TEMPLATES checkEditorCLI editor) as [mk|].
  - destruct (mk fileWithPos) as [cmd args]. unfold trySpawn.
    destruct (spawn log _) eqn:S; eauto.
  - destruct (Js.inherited editor); [|now left].
    destruct (callMember editor fileWithPos) as [[|c [|d s]]|]; cbn; try (now left).
    + unfold trySpawn. destruct (spawn log _) eqn:S; eauto.
    + reflexivity.
Qed.

(** A launch that returns [true] ends on a [spawn] that returned; any
    other launch, also one that throws, made only calls that threw. *)
Lemma launch_outcome (fileWithPos : string) :
  match launched fileWithPos with
  | Returned true calls =>
      exists before call, calls = before ++ [call] /\ spawn before call = true
  | Returned false calls => allThrew calls
  | Thrown calls => allThrew calls
  end.
Proof.
  unfold launch, launchInEditor.
  assert (Hnil : allThrew (@nil SpawnCall)) by (intros i c; discriminate).
  assert (Htail : forall log, allThrew log ->
    match
      match tryRun checkEditorCLI spawn fileWithPos log DEFAULT_EDITOR with
      | Thrown log0 => Thrown log0
      | Returned true log0 => Returned true log0
      | Returned false log0 =>
          if Js.truthy FALLBACK_EDITOR then
            match tryRun checkEditorCLI spawn fileWithPos log0 FALLBACK_EDITOR with
            | Thrown log1 => Thrown log1
            | Returned true log1 => Returned true log1
            | Returned false log1 => Returned false log1
            end
          else Returned false log0
      end
    with
    | Returned true calls =>
        exists before call, calls = before ++ [call] /\ spawn before call = true
    | Returned false calls => allThrew calls
    | Thrown calls => allThrew calls
    end).
  { intros log Hlog.
    pose proof (tryRun_outcome fileWithPos log DEFAULT_EDITOR) as H1.
    destruct (tryRun checkEditorCLI spawn fileWithPos log DEFAULT_EDITOR)
      as [[|] log0|log0].
    - destruct H1 as (call & -> & Hs). eauto.
    - assert (Hlog0 : allThrew log0).
      { destruct H1 as [->|(call & -> & Hs)]; [exact Hlog|now apply allThrew_snoc]. }
      destruct (Js.truthy FALLBACK_EDITOR); [|exact Hlog0].
      pose proof (tryRun_outcome fileWithPos log0 FALLBACK_EDITOR) as H2.
      destruct (tryRun checkEditorCLI spawn fileWithPos log0 FALLBACK_EDITOR)
        as [[|] log1|log1].
      + destruct H2 as (call & -> & Hs). eauto.
      + destruct H2 as [->|(call & -> & Hs)]; [exact Hlog0|now apply allThrew_snoc].
      + now subst log1.
    - now subst log0. }
  destruct EDITOR_CMD as [editorCmd|]; [|now apply Htail].
  destruct (Js.truthy editorCmd); [|now apply Htail].
  unfold trySpawn. destruct (spawn [] (overrideCall editorCmd fileWithPos)) eqn:S.
  - exists [], (overrideCall editorCmd fileWithPos). now split.
  - apply Htail. change [overrideCall editorCmd fileWithPos]
      with ([] ++ [overrideCall editorCmd fileWithPos]).
    now apply allThrew_snoc.
Qed.

(** X29. The search route contains its failures. A [GET] on
    [/__open-in-editor-search] whose file parameter decodes is always
    answered, with 200, 400 or 500: search terms that do not decode or
    parse, a file that cannot be read, a pattern the [RegExp] constructor
    rejects, an editor that cannot be launched and an editor name on which
    [launchInEditor] throws all end in an answer. The answer is 200 only
    after a launch that returned [true], on the decoded file at column 1
    and at the line the ranker gives, which the answer names. *)
Theorem search_route_contains_failures (u : Url) :
  pathname u = "/__open-in-editor-search" ->
  (forall file, get (searchParams u) "file" = Some file ->
                is_Some (decodeURIComponent file)) ->
  exists res calls,
    served {| url := Some u; method := "GET" |} = Responded res calls
    /\ (statusCode res = 200 \/ statusCode res = 400 \/ statusCode res = 500)
    /\ (statusCode res = 200 ->
        exists file decoded searchParam searchTerms,
          get (searchParams u) "file" = Some file
          /\ decodeURIComponent file = Some decoded
          /\ get (searchParams u) "search" = Some searchParam
          /\ parsedTerms decodeURIComponent JSON_parse searchParam = Some searchTerms
          /\ body res = Text ("Opened at line " +:+ decimal (bestLine decoded searchTerms))
          /\ launched (decoded +:+ ":" +:+ decimal (bestLine decoded searchTerms) +:+ ":1")
             = Returned true calls).
Proof.
  intros Hpath Hdecodes. unfold handle. cbn [url method]. rewrite Hpath.
  cbn [String.eqb Ascii.eqb Bool.eqb negb]. unfold openInEditorSearch.
  destruct (get (searchParams u) "file") as [file|] eqn:Hfile;
    [|eexists _, _; split; [reflexivity|]; cbn; split; [auto|discriminate]].
  destruct (Js.truthy file);
    [|eexists _, _; split; [reflexivity|]; cbn; split; [auto|discriminate]].
  destruct (get (searchParams u) "search") as [searchParam|] eqn:Hsearch;
    [|eexists _, _; split; [reflexivity|]; cbn; split; [auto|discriminate]].
  destruct (Js.truthy searchParam);
    [|eexists _, _; split; [reflexivity|]; cbn; split; [auto|discriminate]].
  destruct (Hdecodes file eq_refl) as [decoded Hdecoded]. rewrite Hdecoded.
  destruct (parsedTerms decodeURIComponent JSON_parse searchParam) as [searchTerms|] eqn:Hterms;
    [|eexists _, _; split; [reflexivity|]; cbn; split; [auto|discriminate]].
  destruct (launched _) as [[|] calls|calls] eqn:L; cbn [negb];
    eexists _, _; (split; [reflexivity|]); cbn [statusCode body];
    (split; [auto|]); try discriminate.
  intros _. exists file, decoded, searchParam, searchTerms. split_and!; auto.
Qed.

(** X30. What the answer says about the editor. Only a [GET] on one of
    the two editor routes spawns anything. An answer 200 other than the
    map file follows a [spawn] that succeeded, the last one made; any
    other answer follows only [spawn] calls that failed. *)
Theorem handle_status_reflects_launch (req : IncomingMessage) (res : ServerResponse)
    (calls : list SpawnCall) :
  served req = Responded res calls ->
  (calls <> [] ->
   method req = "GET"
   /\ exists u, url req = Some u
                /\ (pathname u = "/__open-in-editor"
                    \/ pathname u = "/__open-in-editor-search"))
  /\ (statusCode res = 200 ->
      body res = MapFileStream
      \/ exists before call, calls = before ++ [call] /\ spawn before call = true)
  /\ (statusCode res <> 200 ->
      forall i c, calls !! i = Some c -> spawn (take i calls) c = false).
Proof.
  unfold handle. destruct (url req) as [u|] eqn:Hurl.
  2:{ intros [= <- <-]. split_and!; [congruence|discriminate|intros _ i c; discriminate]. }
  destruct (String.eqb_spec (method req) "GET") as [Hget|_]; cbn [negb].
  2:{ intros [= <- <-]. split_and!; [congruence|discriminate|intros _ i c; discriminate]. }
  destruct (String.eqb_spec (pathname u) "/__cmp-map") as [_|_].
  { destruct mapExists; cbn [negb]; intros [= <- <-];
      (split_and!; [congruence| |intros _ i c; discriminate]); [now left|discriminate]. }
  pose proof launch_outcome as Hroute.
  destruct (String.eqb_spec (pathname u) "/__open-in-editor") as [Hp|_].
  { unfold openInEditor.
    destruct (get (searchParams u) "file") as [file|];
      [destruct (Js.truthy file); [destruct (decodeURIComponent file) as [decoded|]|]|];
      try discriminate;
      try (intros [= <- <-];
           split_and!; [congruence|discriminate|intros _ i c; discriminate]).
    match goal with |- context [launched ?t] => specialize (Hroute t) end.
    destruct (launched _) as [[|] calls0|calls0]; cbn [negb]; [| |discriminate];
      intros [= <- <-]; cbn [statusCode body].
    - split_and!; [eauto|intros _; now right|congruence].
    - split_and!; [eauto|discriminate|intros _; exact Hroute]. }
  destruct (String.eqb_spec (pathname u) "/__open-in-editor-search") as [Hp|_].
  { unfold openInEditorSearch.
    destruct (get (searchParams u) "file") as [file|];
      [destruct (Js.truthy file);
       [destruct (get (searchParams u) "search") as [searchParam|];
        [destruct (Js.truthy searchParam);
         [destruct (decodeURIComponent file) as [decoded|];
          [destruct (parsedTerms _ _ searchParam) as [searchTerms|]|]|]|]|]|];
      try discriminate;
      try (intros [= <- <-];
           split_and!; [congruence|discriminate|intros _ i c; discriminate]).
    match goal with |- context [launched ?t] => specialize (Hroute t) end.
    destruct (launched _) as [[|] calls0|calls0]; cbn [negb];
      intros [= <- <-]; cbn [statusCode body].
    - split_and!; [eauto|intros _; now right|congruence].
    - split_and!; [eauto|discriminate|intros _; exact Hroute].
    - split_and!; [eauto|discriminate|intros _; exact Hroute]. }
  intros [= <- <-]. split_and!; [congruence|discriminate|intros _ i c; discriminate].
Qed.

End HandlerFacts.

Lemma search_route_contains_failures_witness :
  exists res calls,
    handle None "valueOf" "code" (fun _ => true) (fun _ _ => true) (fun _ _ => None)
      (fun _ => Some (fileOf ["save"; "x (click)"])) true (fun s => Some s)
      (fun _ => Some (Some ["(click)"; "save"]))
      {| url := Some {| pathname := "/__open-in-editor-search";
                        searchParams := [("file", "/app/t.html"); ("search", "terms")] |};
         method := "GET" |}
    = Responded res calls
    /\ (statusCode res = 200 \/ statusCode res = 400 \/ statusCode res = 500)
    /\ (statusCode res = 200 ->
        exists file decoded searchParam searchTerms,
          get [("file", "/app/t.html"); ("search", "terms")] "file" = Some file
          /\ Some file = Some decoded
          /\ get [("file", "/app/t.html"); ("search", "terms")] "search" = Some searchParam
          /\ parsedTerms (fun s => Some s) (fun _ => Some (Some ["(click)"; "save"]))
               searchParam = Some searchTerms
          /\ body res
             = Text ("Opened at line "
                     +:+ decimal (bestLineOf (fun _ _ => None)
                                    (fun _ => Some (fileOf ["save"; "x (click)"]))
                                    decoded searchTerms))
          /\ launch None "valueOf" "code" (fun _ => true) (fun _ _ => true)
               (decoded +:+ ":"
                +:+ decimal (bestLineOf (fun _ _ => None)
                               (fun _ => Some (fileOf ["save"; "x (click)"]))
                               decoded searchTerms) +:+ ":1")
             = Returned true calls).
Proof.
  apply (search_route_contains_failures None "valueOf" "code" (fun _ => true)
           (fun _ _ => true) (fun _ _ => None)
           (fun _ => Some (fileOf ["save"; "x (click)"])) true (fun s => Some s)
           (fun _ => Some (Some ["(click)"; "save"]))
           {| pathname := "/__open-in-editor-search";
              searchParams := [("file", "/app/t.html"); ("search", "terms")] |} eq_refl).
  intros file _. cbn. eauto.
Defined.

Lemma handle_status_reflects_launch_witness :
  handle None "cursor" "code" (fun _ => true)
    (fun _ call => String.eqb (cmd call) "code") (fun _ _ => None)
    (fun _ => Some (fileOf ["save"; "x (click)"])) true (fun s => Some s)
    (fun _ => Some (Some ["(click)"; "save"]))
    {| url := Some {| pathname := "/__open-in-editor-search";
                      searchParams := [("file", "/app/t.html"); ("search", "terms")] |};
       method := "GET" |}
  = Responded {| statusCode := 200; body := Text "Opened at line 2" |}
      [{| cmd := "cursor"; args := ["--goto"; "/app/t.html:2:1"] |};
       {| cmd := "code"; args := ["--goto"; "/app/t.html:2:1"] |}]
  /\ exists before call,
       [{| cmd := "cursor"; args := ["--goto"; "/app/t.html:2:1"] |};
        {| cmd := "code"; args := ["--goto"; "/app/t.html:2:1"] |}] = before ++ [call]
       /\ String.eqb (cmd call) "code" = true.
Proof.
  split; [reflexivity|].
  destruct (proj1 (proj2 (handle_status_reflects_launch None "cursor" "code" (fun _ => true)
                     (fun _ call => String.eqb (cmd call) "code") (fun _ _ => None)
                     (fun _ => Some (fileOf ["save"; "x (click)"])) true (fun s => Some s)
                     (fun _ => Some (Some ["(click)"; "save"]))
                     {| url := Some {| pathname := "/__open-in-editor-search";
                                       searchParams := [("file", "/app/t.html");
                                                        ("search", "terms")] |};
                        method := "GET" |}
                     {| statusCode := 200; body := Text "Opened at line 2" |}
                     [{| cmd := "cursor"; args := ["--goto"; "/app/t.html:2:1"] |};
                      {| cmd := "code"; args := ["--goto"; "/app/t.html:2:1"] |}]
                     eq_refl)) eq_refl) as [H|H]; [discriminate H|exact H].
Defined.

End ServerFacts.
